(** * ui5-cache-buster: a shallow embedding of [index.js]

    The development embeds the cache buster ([ui5Bust] and its helpers
    [_getUi5AppHash], [_getUi5LibHash], [_getAssetsHash], [_getThemeRootHash],
    [_readAllFiles], [_createHash]) together with the parts of the JavaScript
    platform the program leans on: strings, the regular expressions it builds,
    JSON values, POSIX paths and a directory tree with [rename].

    Conventions of the model.
    - The strings of the document, of paths, of JSON values and of digests
      are [string]s: sequences of code units below 256.
    - A file holds bytes, and so does a [Buffer] ([buffer]).  The string that
      [readFileSync(p, 'utf8')] or [buffer.toString()] returns is the UTF-8
      decoding of the bytes, in full: a sequence of UTF-16 code units
      ([Text.text]), with U+FFFD for every ill-formed part.  [Buffer.from]
      of a string is its UTF-8 encoding.  A manifest whose text holds a code
      unit above 255 is outside the model ([OutOfModel]).
    - The file system is a tree ([Fs.node]); a directory lists its entries in
      the order [readdirSync] enumerates them.  Paths are POSIX paths
      ([path.sep] is ["/"]).  A path handed to [fs] is modelled when it is
      absolute and normalised, as [path.resolve] returns it; the empty path
      names nothing; any other path is outside the model.
    - Exceptions are explicit: an effectful operation takes the file system
      and returns an [outcome] together with the file system at that point, so
      the state at the time of a failure stays observable.
    - [JSON.parse], [loaderUtils.getHashDigest] and [process.cwd()] are
      supplied by the platform ([Platform]); a reference platform is given for
      closed examples. *)

From Stdlib Require Import String Ascii DecimalString List NArith ZArith QArith Bool
  Lia Permutation Sorted.
Import ListNotations.
Local Open Scope string_scope.
Local Open Scope Z_scope.
Set Warnings "-register-all".

(* ===================================================================== *)
(** * JavaScript strings *)
(* ===================================================================== *)

Module JS.

(** [s.startsWith(p)] *)
Fixpoint startsWith (p s : string) : bool :=
  match p, s with
  | EmptyString, _ => true
  | String a p', String b s' => if Ascii.eqb a b then startsWith p' s' else false
  | String _ _, EmptyString => false
  end.

(** Index of the first occurrence of [p] in [s], counted from [i]; the
    search is over the suffix [s]. *)
Fixpoint indexFrom (p s : string) (i : Z) : Z :=
  if startsWith p s then i
  else match s with
       | EmptyString => -1
       | String _ s' => indexFrom p s' (i + 1)
       end.

(** Drop the first [n] characters. *)
Fixpoint drop (n : nat) (s : string) : string :=
  match n, s with
  | O, _ => s
  | S n', String _ s' => drop n' s'
  | S _, EmptyString => EmptyString
  end.

(** Keep the first [n] characters. *)
Fixpoint take (n : nat) (s : string) : string :=
  match n, s with
  | O, _ => EmptyString
  | S n', String c s' => String c (take n' s')
  | S _, EmptyString => EmptyString
  end.

Definition len (s : string) : Z := Z.of_nat (String.length s).

(** Clamp an index into [0 .. len s], as [indexOf] and [substring] do. *)
Definition clamp (s : string) (i : Z) : nat :=
  Z.to_nat (Z.min (Z.max i 0) (len s)).

(** [s.indexOf(p, from)]; [-1] when there is no occurrence. *)
Definition indexOf (s p : string) (from : Z) : Z :=
  let k := clamp s from in
  indexFrom p (drop k s) (Z.of_nat k).

(** [s.substring(a, b)]: both ends are clamped, and swapped when [a > b]. *)
Definition substring (s : string) (a b : Z) : string :=
  let a' := clamp s a in
  let b' := clamp s b in
  let lo := Nat.min a' b' in
  let hi := Nat.max a' b' in
  take (hi - lo) (drop lo s).

(** [s.split(c)] for a one-character separator: never an empty array. *)
Fixpoint split (c : ascii) (s : string) : list string :=
  match s with
  | EmptyString => [EmptyString]
  | String a s' =>
      if Ascii.eqb a c then EmptyString :: split c s'
      else match split c s' with
           | [] => [String a EmptyString]
           | x :: xs => String a x :: xs
           end
  end.

(** [a[a.length - 1]] of an array of strings; [undefined] (here [None]) on
    the empty array. *)
Fixpoint lastOf (l : list string) : option string :=
  match l with
  | [] => None
  | [x] => Some x
  | _ :: l' => lastOf l'
  end.

Definition lower_char (c : ascii) : ascii :=
  let n := nat_of_ascii c in
  if (Nat.leb 65 n && Nat.leb n 90)%bool then ascii_of_nat (n + 32)
  else if (Nat.leb 192 n && Nat.leb n 222 && negb (Nat.eqb n 215))%bool
       then ascii_of_nat (n + 32)
       else c.

(** [s.toLowerCase()] on code units below 256: the letters [A] to [Z] and
    the capital letters from U+00C0 to U+00DE. *)
Fixpoint toLowerCase (s : string) : string :=
  match s with
  | EmptyString => EmptyString
  | String c s' => String (lower_char c) (toLowerCase s')
  end.

(** [a.join(sep)] *)
Definition join (sep : string) (l : list string) : string := String.concat sep l.

(** A line feed. *)
Definition nl : string := String (ascii_of_nat 10) EmptyString.

(** Replace every back-quote by a double quote: JSON texts in the examples
    are written with back-quotes. *)
Fixpoint dq (s : string) : string :=
  match s with
  | EmptyString => EmptyString
  | String c s' =>
      String (if Ascii.eqb c "`"%char then ascii_of_nat 34 else c) (dq s')
  end.

End JS.

(* ===================================================================== *)
(** * Regular expressions

    The fragment of ECMAScript regular expressions the program uses:
    literal characters, [.], [$] (no [m] flag: end of input only), greedy
    [*], alternation and one capturing group.  Matching is by backtracking,
    in continuation-passing style, leftmost match first. *)
(* ===================================================================== *)

Module Regex.

Inductive regex : Type :=
| Empty
| Lit (c : ascii)
| Dot
| Eol
| Seq (r1 r2 : regex)
| Alt (r1 r2 : regex)
| Star (r : regex)
| Group (r : regex).

(** Line terminators of the 8-bit model: LF and CR. *)
Definition is_line_terminator (c : ascii) : bool :=
  (Ascii.eqb c (ascii_of_nat 10) || Ascii.eqb c (ascii_of_nat 13))%bool.

(** The text consumed between a string and one of its suffixes. *)
Definition consumed (s rest : string) : string :=
  JS.take (String.length s - String.length rest) s.

(** [rmatch r s cap k]: match [r] at the start of [s]; on success hand the
    rest of the input and the capture of group 1 to [k]. *)
Fixpoint rmatch {X : Type} (r : regex) (s : string) (cap : option string)
         (k : string -> option string -> option X) {struct r} : option X :=
  match r with
  | Empty => k s cap
  | Lit c =>
      match s with
      | String c' s' => if Ascii.eqb c c' then k s' cap else None
      | EmptyString => None
      end
  | Dot =>
      match s with
      | String c' s' => if is_line_terminator c' then None else k s' cap
      | EmptyString => None
      end
  | Eol =>
      match s with
      | EmptyString => k s cap
      | String _ _ => None
      end
  | Seq r1 r2 => rmatch r1 s cap (fun s' cap' => rmatch r2 s' cap' k)
  | Alt r1 r2 =>
      match rmatch r1 s cap k with
      | Some x => Some x
      | None => rmatch r2 s cap k
      end
  | Star r' =>
      (fix loop (n : nat) (s : string) (cap : option string) {struct n} : option X :=
         match n with
         | O => k s cap
         | S n' =>
             match rmatch r' s cap
                          (fun s' cap' =>
                             if Nat.ltb (String.length s') (String.length s)
                             then loop n' s' cap' else None) with
             | Some x => Some x
             | None => k s cap
             end
         end) (String.length s) s cap
  | Group r' => rmatch r' s cap (fun s' _ => k s' (Some (consumed s s')))
  end.

(** Number of capturing groups. *)
Fixpoint ngroups (r : regex) : nat :=
  match r with
  | Seq r1 r2 | Alt r1 r2 => (ngroups r1 + ngroups r2)%nat
  | Star r' => ngroups r'
  | Group r' => S (ngroups r')
  | _ => O
  end.

(** A match: the text before it, the matched text, group 1, the text after. *)
Record found : Type := mkFound {
  before : string; matched : string; group1 : option string; after : string }.

(** Match at the start of [s] only. *)
Definition match_here (r : regex) (s : string) : option (string * option string) :=
  rmatch r s None (fun rest cap => Some (consumed s rest, cap)).

(** Leftmost match in [s]; [pre] is the text already passed. *)
Fixpoint search (r : regex) (pre : string) (s : string) : option found :=
  match match_here r s with
  | Some (m, cap) =>
      Some (mkFound pre m cap (JS.drop (String.length m) s))
  | None =>
      match s with
      | EmptyString => None
      | String c s' => search r (pre ++ String c EmptyString) s'
      end
  end.

Definition is_digit (c : ascii) : bool :=
  let n := nat_of_ascii c in (Nat.leb 48 n && Nat.leb n 57)%bool.

Definition digit_val (c : ascii) : nat := (nat_of_ascii c - 48)%nat.

(** The capture with number [i] among [m] groups (only group 1 is kept). *)
Definition capture (m : nat) (g1 : option string) (i : nat) : option string :=
  if (Nat.leb 1 i && Nat.leb i m)%bool
  then Some (match i, g1 with 1%nat, Some t => t | _, _ => EmptyString end)
  else None.

(** GetSubstitution: expand the [$] patterns of a replacement string.
    [whole_before] and [whole_after] are the parts of the subject around
    the match. *)
Fixpoint expand (m : nat) (whole_before mt whole_after : string)
         (g1 : option string) (repl : string) {struct repl} : string :=
  match repl with
  | EmptyString => EmptyString
  | String c rest =>
      if Ascii.eqb c "$"%char then
        match rest with
        | String d rest' =>
            if Ascii.eqb d "$"%char then
              String "$"%char (expand m whole_before mt whole_after g1 rest')
            else if Ascii.eqb d "&"%char then
              mt ++ expand m whole_before mt whole_after g1 rest'
            else if Ascii.eqb d "`"%char then
              whole_before ++ expand m whole_before mt whole_after g1 rest'
            else if Ascii.eqb d "'"%char then
              whole_after ++ expand m whole_before mt whole_after g1 rest'
            else if is_digit d then
              let one :=
                match capture m g1 (digit_val d) with
                | Some t => t ++ expand m whole_before mt whole_after g1 rest'
                | None => String c (expand m whole_before mt whole_after g1 rest)
                end in
              match rest' with
              | String e rest'' =>
                  if is_digit e then
                    let idx := (10 * digit_val d + digit_val e)%nat in
                    if Nat.ltb m idx then one
                    else match capture m g1 idx with
                         | Some t => t ++ expand m whole_before mt whole_after g1 rest''
                         | None =>
                             String c (String d (String e
                               (expand m whole_before mt whole_after g1 rest'')))
                         end
                  else one
              | EmptyString => one
              end
            else String c (expand m whole_before mt whole_after g1 rest)
        | EmptyString => String c EmptyString
        end
      else String c (expand m whole_before mt whole_after g1 rest)
  end.

(** [s.replace(r, repl)] for a regular expression without the [g] flag. *)
Definition replace (r : regex) (s repl : string) : string :=
  match search r EmptyString s with
  | None => s
  | Some f =>
      before f ++ expand (ngroups r) (before f) (matched f) (after f) (group1 f) repl
               ++ after f
  end.

(** [s.replace(r, repl)] with the [g] flag.  [done_] is the part of the
    subject already scanned, [s] the part still to scan; an empty match
    advances by one character. *)
Fixpoint replace_all_from (fuel : nat) (r : regex) (repl : string)
         (done_ s : string) : string :=
  match fuel with
  | O => s
  | S fuel' =>
      match search r EmptyString s with
      | None => s
      | Some f =>
          let out :=
            before f ++ expand (ngroups r) (done_ ++ before f) (matched f)
                               (after f) (group1 f) repl in
          match matched f, after f with
          | EmptyString, EmptyString => out
          | EmptyString, String c rest =>
              out ++ String c
                  (replace_all_from fuel' r repl
                     (done_ ++ before f ++ String c EmptyString) rest)
          | _, _ =>
              out ++ replace_all_from fuel' r repl
                       (done_ ++ before f ++ matched f) (after f)
          end
      end
  end.

Definition replace_all (r : regex) (s repl : string) : string :=
  replace_all_from (S (String.length s)) r repl EmptyString s.

(** A literal string as a regular expression. *)
Fixpoint lit (s : string) : regex :=
  match s with
  | EmptyString => Empty
  | String c s' => Seq (Lit c) (lit s')
  end.

(** Characters with a meaning of their own in a pattern. *)
Definition is_syntax_char (c : ascii) : bool :=
  existsb (Ascii.eqb c)
    ["\"%char; "^"%char; "$"%char; "."%char; "*"%char; "+"%char; "?"%char;
     "("%char; ")"%char; "["%char; "]"%char; "{"%char; "}"%char; "|"%char].

(** [new RegExp(src)] for a source text made of ordinary characters, [.]
    and [$]; [None] when the text uses other pattern syntax, which this
    model does not interpret. *)
Fixpoint compile (src : string) : option regex :=
  match src with
  | EmptyString => Some Empty
  | String c src' =>
      match compile src' with
      | None => None
      | Some r =>
          if Ascii.eqb c "."%char then Some (Seq Dot r)
          else if Ascii.eqb c "$"%char then Some (Seq Eol r)
          else if is_syntax_char c then None
          else Some (Seq (Lit c) r)
      end
  end.

End Regex.

(* ===================================================================== *)
(** * Exceptions and outcomes *)
(* ===================================================================== *)

(** Error codes of the file-system calls. *)
Inductive errno : Type := ENOENT | ENOTDIR | EISDIR | ENOTEMPTY | EINVAL.

(** The exceptions a run can end with.  [SyntaxError] is what [JSON.parse]
    throws on a malformed declaration; [SystemError] is a failed file-system
    call; [TypeError] is a failed property access or call. *)
Inductive error : Type :=
| SyntaxError
| TypeError
| SystemError (code : errno).

(** The result of a computation: a value, an exception, or [OutOfModel] when
    the input asks for pattern syntax outside the modelled fragment
    ([Regex.compile]). *)
Inductive outcome (A : Type) : Type :=
| Ok (a : A)
| Throw (e : error)
| OutOfModel.

Arguments Ok {A} a.
Arguments Throw {A} e.
Arguments OutOfModel {A}.

(* ===================================================================== *)
(** * JSON values and the objects built from them *)
(* ===================================================================== *)

Module Json.

(** A value produced by [JSON.parse].  An object lists its own properties
    in the order [Object.keys] enumerates them. *)
Inductive json : Type :=
| JNull
| JBool (b : bool)
| JNum (q : Q)
| JStr (s : string)
| JArr (l : list json)
| JObj (m : list (string * json)).

(** A property read yields a value or [undefined] ([None]). *)
Definition value : Type := option json.

(** ToBoolean *)
Definition truthy (v : value) : bool :=
  match v with
  | None | Some JNull => false
  | Some (JBool b) => b
  | Some (JNum q) => negb (Qeq_bool q 0)
  | Some (JStr s) => negb (String.eqb s EmptyString)
  | Some (JArr _) | Some (JObj _) => true
  end.

Definition index_key (n : nat) : string :=
  NilEmpty.string_of_uint (Nat.to_uint n).

Fixpoint indexed {A : Type} (n : nat) (l : list A) : list (string * A) :=
  match l with
  | [] => []
  | x :: l' => (index_key n, x) :: indexed (S n) l'
  end.

Fixpoint chars (s : string) : list json :=
  match s with
  | EmptyString => []
  | String c s' => JStr (String c EmptyString) :: chars s'
  end.

(** Own enumerable string-keyed properties, in enumeration order. *)
Definition own_entries (v : json) : list (string * json) :=
  match v with
  | JObj m => m
  | JArr l => indexed 0 l
  | JStr s => indexed 0 (chars s)
  | JNull | JBool _ | JNum _ => []
  end.

Fixpoint assoc {A : Type} (k : string) (m : list (string * A)) : option A :=
  match m with
  | [] => None
  | (k', x) :: m' => if String.eqb k k' then Some x else assoc k m'
  end.

(** [Object.keys(v)]: a [TypeError] on [null]. *)
Definition keys (v : json) : outcome (list string) :=
  match v with
  | JNull => Throw TypeError
  | _ => Ok (map fst (own_entries v))
  end.

(** [v[k]] for the property names this program reads: an own key of [v],
    ['sap.ui5'], ['resources'] or ['uri'].  A [TypeError] on [null]. *)
Definition get (v : json) (k : string) : outcome value :=
  match v with
  | JNull => Throw TypeError
  | _ => Ok (assoc k (own_entries v))
  end.

(** [o[k]] when [o] itself may be [undefined]. *)
Definition get_of (o : value) (k : string) : outcome value :=
  match o with
  | None => Throw TypeError
  | Some v => get v k
  end.

(** The object under construction in a [reduce]: string values only. *)
Definition strmap : Type := list (string * string).

Fixpoint replace_value (k v : string) (o : strmap) : strmap :=
  match o with
  | [] => []
  | (k', v') :: o' =>
      if String.eqb k k' then (k', v) :: o' else (k', v') :: replace_value k v o'
  end.

(** [o[k] = v] on an ordinary object whose values are strings: an existing
    key keeps its place, a new key goes last; assigning a string to
    [__proto__] is ignored by the prototype setter. *)
Definition set (o : strmap) (k v : string) : strmap :=
  if String.eqb k "__proto__" then o
  else match assoc k o with
       | Some _ => replace_value k v o
       | None => (o ++ [(k, v)])%list
       end.

Definition hex_digit (n : nat) : ascii :=
  if Nat.ltb n 10 then ascii_of_nat (48 + n) else ascii_of_nat (87 + n).

(** QuoteJSONString, character by character. *)
Definition quote_char (c : ascii) : string :=
  let n := nat_of_ascii c in
  if Nat.eqb n 34 then String "\"%char (String c EmptyString)
  else if Nat.eqb n 92 then "\\"
  else if Nat.eqb n 8 then "\b"
  else if Nat.eqb n 12 then "\f"
  else if Nat.eqb n 10 then "\n"
  else if Nat.eqb n 13 then "\r"
  else if Nat.eqb n 9 then "\t"
  else if Nat.ltb n 32 then
    "\u00" ++ String (hex_digit (n / 16)) (String (hex_digit (n mod 16)) EmptyString)
  else String c EmptyString.

Fixpoint quote_body (s : string) : string :=
  match s with
  | EmptyString => EmptyString
  | String c s' => quote_char c ++ quote_body s'
  end.

Definition quote (s : string) : string :=
  String (ascii_of_nat 34) (quote_body s ++ String (ascii_of_nat 34) EmptyString).

(** [JSON.stringify(o)] of an object whose values are strings. *)
Definition stringify (o : strmap) : string :=
  "{" ++ JS.join "," (map (fun kv => quote (fst kv) ++ ":" ++ quote (snd kv)) o) ++ "}".

End Json.

(* ===================================================================== *)
(** * POSIX paths ([path.resolve], [path.dirname]) *)
(* ===================================================================== *)

Module Path.

Definition is_sep (c : ascii) : bool := Ascii.eqb c "/"%char.

Definition isAbsolute (p : string) : bool :=
  match p with
  | String c _ => is_sep c
  | EmptyString => false
  end.

(** Resolve [.] and [..] over a list of segments; [acc] is reversed.
    At the root [..] stays at the root. *)
Fixpoint normalize_segments (segs : list string) (acc : list string) : list string :=
  match segs with
  | [] => rev acc
  | seg :: segs' =>
      if (String.eqb seg "" || String.eqb seg ".")%bool then normalize_segments segs' acc
      else if String.eqb seg ".." then normalize_segments segs' (tl acc)
      else normalize_segments segs' (seg :: acc)
  end.

(** The segments of an absolute path. *)
Definition segments (p : string) : list string :=
  normalize_segments (JS.split "/" p) [].

Definition of_segments (segs : list string) : string :=
  "/" ++ JS.join "/" segs.

(** The right-to-left scan of [path.resolve]: empty arguments are skipped
    and the scan stops at the first absolute one.  [args] is reversed. *)
Fixpoint scan (rev_args : list string) (acc : string) : string * bool :=
  match rev_args with
  | [] => (acc, false)
  | p :: rest =>
      if String.eqb p "" then scan rest acc
      else if isAbsolute p then (p ++ "/" ++ acc, true)
      else scan rest (p ++ "/" ++ acc)
  end.

(** [path.resolve(...args)]; [cwd] is [process.cwd()], an absolute path. *)
Definition resolve (cwd : string) (args : list string) : string :=
  let '(joined, absolute) := scan (rev args) "" in
  of_segments (segments (if absolute then joined else cwd ++ "/" ++ joined)).

Fixpoint drop_while (f : ascii -> bool) (l : list ascii) : list ascii :=
  match l with
  | [] => []
  | c :: l' => if f c then drop_while f l' else l
  end.

(** [path.dirname(p)]: the scan from the right skips trailing separators,
    then the base name, and never looks at the first character. *)
Definition dirname (p : string) : string :=
  match p with
  | EmptyString => "."
  | String c0 t =>
      let r := rev (list_ascii_of_string t) in
      let r1 := drop_while is_sep r in
      let r2 := drop_while (fun c => negb (is_sep c)) r1 in
      match r2 with
      | [] => if is_sep c0 then "/" else "."
      | _ :: r3 =>
          match r3 with
          | [] => if is_sep c0 then "//" else String c0 EmptyString
          | _ => String c0 (string_of_list_ascii (rev r3))
          end
      end
  end.

End Path.

(* ===================================================================== *)
(** * Strings in full and their UTF-8 encoding *)
(* ===================================================================== *)

Module Text.

Local Open Scope N_scope.

(** A JavaScript string in full: its UTF-16 code units. *)
Definition text : Type := list N.

(** [x <= y] on strings: code unit by code unit, a proper prefix first. *)
Fixpoint leb (x y : text) : bool :=
  match x, y with
  | [], _ => true
  | _ :: _, [] => false
  | u :: x', v :: y' =>
      if u <? v then true else if v <? u then false else leb x' y'
  end.

(** The empty string, the only string that is falsy. *)
Definition is_empty (t : text) : bool :=
  match t with [] => true | _ :: _ => false end.

(** A string of the model's 8-bit strings, and back when no code unit is
    above 255. *)
Definition of_string (s : string) : text :=
  map N_of_ascii (list_ascii_of_string s).

Definition to_string (t : text) : option string :=
  if forallb (fun u => u <? 256) t
  then Some (string_of_list_ascii (map ascii_of_N t))
  else None.

End Text.

Module Utf8.

Local Open Scope N_scope.

Definition replacement : N := 0xFFFD.

Definition between (lo hi b : N) : bool := ((lo <=? b) && (b <=? hi))%bool.

(** A continuation byte. *)
Definition cont (b : N) : bool := between 0x80 0xBF b.

(** The range of the second byte after a lead byte of a three-byte and of a
    four-byte sequence. *)
Definition second3 (b0 b1 : N) : bool :=
  between (if b0 =? 0xE0 then 0xA0 else 0x80) (if b0 =? 0xED then 0x9F else 0xBF) b1.

Definition second4 (b0 b1 : N) : bool :=
  between (if b0 =? 0xF0 then 0x90 else 0x80) (if b0 =? 0xF4 then 0x8F else 0xBF) b1.

(** The code points of a byte sequence, as a UTF-8 decoder without a fatal
    flag reads it: every maximal ill-formed part gives U+FFFD and decoding
    resumes at the byte that broke the sequence. *)
Fixpoint code_points (bs : list N) : list N :=
  match bs with
  | [] => []
  | b0 :: r0 =>
      if b0 <? 0x80 then b0 :: code_points r0
      else if between 0xC2 0xDF b0 then
        match r0 with
        | [] => [replacement]
        | b1 :: r1 =>
            if cont b1
            then ((b0 - 0xC0) * 0x40 + (b1 - 0x80)) :: code_points r1
            else replacement :: code_points r0
        end
      else if between 0xE0 0xEF b0 then
        match r0 with
        | [] => [replacement]
        | b1 :: r1 =>
            if second3 b0 b1 then
              match r1 with
              | [] => [replacement]
              | b2 :: r2 =>
                  if cont b2
                  then ((b0 - 0xE0) * 0x1000 + (b1 - 0x80) * 0x40 + (b2 - 0x80))
                         :: code_points r2
                  else replacement :: code_points r1
              end
            else replacement :: code_points r0
        end
      else if between 0xF0 0xF4 b0 then
        match r0 with
        | [] => [replacement]
        | b1 :: r1 =>
            if second4 b0 b1 then
              match r1 with
              | [] => [replacement]
              | b2 :: r2 =>
                  if cont b2 then
                    match r2 with
                    | [] => [replacement]
                    | b3 :: r3 =>
                        if cont b3
                        then ((b0 - 0xF0) * 0x40000 + (b1 - 0x80) * 0x1000
                              + (b2 - 0x80) * 0x40 + (b3 - 0x80)) :: code_points r3
                        else replacement :: code_points r2
                    end
                  else replacement :: code_points r1
              end
            else replacement :: code_points r0
        end
      else replacement :: code_points r0
  end.

(** The UTF-16 code units of a code point. *)
Definition units (cp : N) : list N :=
  if cp <? 0x10000 then [cp]
  else [0xD800 + (cp - 0x10000) / 0x400; 0xDC00 + (cp - 0x10000) mod 0x400].

(** The UTF-8 bytes of a code point. *)
Definition bytes (cp : N) : list N :=
  if cp <? 0x80 then [cp]
  else if cp <? 0x800 then [0xC0 + cp / 0x40; 0x80 + cp mod 0x40]
  else if cp <? 0x10000 then
    [0xE0 + cp / 0x1000; 0x80 + (cp / 0x40) mod 0x40; 0x80 + cp mod 0x40]
  else [0xF0 + cp / 0x40000; 0x80 + (cp / 0x1000) mod 0x40;
        0x80 + (cp / 0x40) mod 0x40; 0x80 + cp mod 0x40].

Definition high (u : N) : bool := between 0xD800 0xDBFF u.
Definition low (u : N) : bool := between 0xDC00 0xDFFF u.

(** The code points of a string: a surrogate pair is one code point, a lone
    surrogate is read as U+FFFD. *)
Fixpoint scalars (t : Text.text) : list N :=
  match t with
  | [] => []
  | u :: r =>
      if high u then
        match r with
        | [] => [replacement]
        | l :: r' =>
            if low l
            then (0x10000 + (u - 0xD800) * 0x400 + (l - 0xDC00)) :: scalars r'
            else replacement :: scalars r
        end
      else if low u then replacement :: scalars r
      else u :: scalars r
  end.

Definition bytes_of (b : string) : list N := map N_of_ascii (list_ascii_of_string b).

Definition of_bytes (l : list N) : string := string_of_list_ascii (map ascii_of_N l).

(** A scalar value: a code point that is not a surrogate. *)
Definition scalar (cp : N) : Prop := cp < 0xD800 \/ (0xE000 <= cp /\ cp < 0x110000).

(** A string without lone surrogates: the code units of scalar values. *)
Definition well_formed (t : Text.text) : Prop :=
  exists cps, Forall scalar cps /\ t = flat_map units cps.

(** [buffer.toString('utf8')] *)
Definition decode (b : string) : Text.text := flat_map units (code_points (bytes_of b)).

(** [Buffer.from(text, 'utf8')] *)
Definition encode (t : Text.text) : string := of_bytes (flat_map bytes (scalars t)).

End Utf8.

Arguments Utf8.decode : simpl never.
Arguments Utf8.encode : simpl never.

(* ===================================================================== *)
(** * The file system *)
(* ===================================================================== *)

Module Fs.

(** A file with its content, or a directory with its entries in
    enumeration order.  Entry names are non-empty, free of ["/"] and
    distinct within a directory. *)
Inductive node : Type :=
| File (content : string)
| Dir (entries : list (string * node)).

(** The state: the root directory. *)
Definition fs : Type := node.

Fixpoint find (x : string) (es : list (string * node)) : option node :=
  match es with
  | [] => None
  | (y, c) :: es' => if String.eqb x y then Some c else find x es'
  end.

(** The node at a path given by its segments. *)
Fixpoint lookup (p : list string) (n : node) : option node :=
  match p with
  | [] => Some n
  | x :: p' =>
      match n with
      | File _ => None
      | Dir es =>
          match find x es with
          | Some c => lookup p' c
          | None => None
          end
      end
  end.

(** The error on a path that names nothing: [ENOTDIR] when the walk runs
    into a regular file, [ENOENT] when a name is missing. *)
Fixpoint miss (p : list string) (n : node) : errno :=
  match p, n with
  | x :: p', Dir es =>
      match find x es with
      | Some c => miss p' c
      | None => ENOENT
      end
  | _ :: _, File _ => ENOTDIR
  | [], _ => ENOENT
  end.

Definition without (x : string) (es : list (string * node)) : list (string * node) :=
  filter (fun e => negb (String.eqb (fst e) x)) es.

(** Unlink the entry at path [p]. *)
Fixpoint remove (p : list string) (n : node) : node :=
  match p, n with
  | [x], Dir es => Dir (without x es)
  | x :: p', Dir es =>
      Dir (map (fun e => if String.eqb (fst e) x then (fst e, remove p' (snd e)) else e) es)
  | _, _ => n
  end.

(** Link [new] at path [p], replacing an entry of that name; a new entry
    goes last in its directory. *)
Fixpoint put (p : list string) (new : node) (n : node) : node :=
  match p, n with
  | [], _ => new
  | [x], Dir es => Dir (without x es ++ [(x, new)])%list
  | x :: p', Dir es =>
      Dir (map (fun e => if String.eqb (fst e) x then (fst e, put p' new (snd e)) else e) es)
  | _ :: _, File _ => n
  end.

Fixpoint is_prefix (p q : list string) : bool :=
  match p, q with
  | [], _ => true
  | x :: p', y :: q' => (String.eqb x y && is_prefix p' q')%bool
  | _ :: _, [] => false
  end.

Definition same_path (p q : list string) : bool :=
  (is_prefix p q && is_prefix q p)%bool.

(** Stateful computations that may throw: the file system is threaded
    through and is still there after an exception. *)
Definition M (A : Type) : Type := fs -> outcome A * fs.

Definition ret {A : Type} (a : A) : M A := fun s => (Ok a, s).

Definition bind {A B : Type} (m : M A) (f : A -> M B) : M B :=
  fun s =>
    match m s with
    | (Ok a, s') => f a s'
    | (Throw e, s') => (Throw e, s')
    | (OutOfModel, s') => (OutOfModel, s')
    end.

Definition throw {A : Type} (e : error) : M A := fun s => (Throw e, s).

(** Lift a computation that does not touch the file system. *)
Definition lift {A : Type} (o : outcome A) : M A := fun s => (o, s).

(** An absolute, normalised path: what [path.resolve] returns. *)
Definition resolved (p : string) : bool :=
  String.eqb (Path.of_segments (Path.segments p)) p.

(** The node a path names, if any.  The empty path names nothing; a path
    that is relative or not normalised is outside the model. *)
Definition locate (p : string) (s : fs) : outcome (option node) :=
  if String.eqb p "" then Ok None
  else if resolved p then Ok (lookup (Path.segments p) s)
  else OutOfModel.

(** [fs.existsSync(p)] *)
Definition existsSync (p : string) : M bool :=
  fun s =>
    match locate p s with
    | Ok (Some _) => (Ok true, s)
    | Ok None => (Ok false, s)
    | Throw e => (Throw e, s)
    | OutOfModel => (OutOfModel, s)
    end.

(** [fs.readFileSync(p, 'utf8')]: the bytes of the file, decoded. *)
Definition readFileSync (p : string) : M Text.text :=
  fun s =>
    match locate p s with
    | Ok (Some (File c)) => (Ok (Utf8.decode c), s)
    | Ok (Some (Dir _)) => (Throw (SystemError EISDIR), s)
    | Ok None => (Throw (SystemError (miss (Path.segments p) s)), s)
    | Throw e => (Throw e, s)
    | OutOfModel => (OutOfModel, s)
    end.

(** The directory at [p], for [fs.readdirSync(p)] followed by
    [fs.statSync] on each entry. *)
Definition readdirSync (p : string) : M (list (string * node)) :=
  fun s =>
    match locate p s with
    | Ok (Some (Dir es)) => (Ok es, s)
    | Ok (Some (File _)) => (Throw (SystemError ENOTDIR), s)
    | Ok None => (Throw (SystemError (miss (Path.segments p) s)), s)
    | Throw e => (Throw e, s)
    | OutOfModel => (OutOfModel, s)
    end.

Definition parent (p : list string) : list string := removelast p.

(** [fs.renameSync(old, new)], after rename(2): the old path has to name
    something; renaming a path to itself does nothing; a directory may only
    replace an empty directory, a file only a file; a directory cannot move
    into itself; the parent of the new path has to be a directory. *)
Definition renameSync (old new : string) : M unit :=
  fun s =>
    let po := Path.segments old in
    let pn := Path.segments new in
    match locate old s, locate new s with
    | Ok None, _ => (Throw (SystemError (miss po s)), s)
    | Ok (Some src), Ok target =>
        if String.eqb new "" then (Throw (SystemError ENOENT), s)
        else if same_path po pn then (Ok tt, s)
        else if is_prefix po pn then (Throw (SystemError EINVAL), s)
        else
          match lookup (parent pn) s with
          | None => (Throw (SystemError (miss (parent pn) s)), s)
          | Some (File _) => (Throw (SystemError ENOTDIR), s)
          | Some (Dir _) =>
              match src, target with
              | Dir _, Some (File _) => (Throw (SystemError ENOTDIR), s)
              | Dir _, Some (Dir (_ :: _)) => (Throw (SystemError ENOTEMPTY), s)
              | File _, Some (Dir _) => (Throw (SystemError EISDIR), s)
              | _, _ => (Ok tt, put pn src (remove po s))
              end
          end
    | Throw e, _ | Ok (Some _), Throw e => (Throw e, s)
    | OutOfModel, _ | Ok (Some _), OutOfModel => (OutOfModel, s)
    end.

End Fs.

Declare Scope fs_scope.
Delimit Scope fs_scope with fs.
Notation "x <- m ;; k" := (Fs.bind m (fun x => k))
  (at level 61, m at next level, right associativity) : fs_scope.
Notation "m ;;; k" := (Fs.bind m (fun _ => k))
  (at level 61, right associativity) : fs_scope.

(* ===================================================================== *)
(** * The platform *)
(* ===================================================================== *)

(** What the program takes from its environment: [JSON.parse] ([None] when
    it throws a [SyntaxError]; the empty text is not JSON),
    [loaderUtils.getHashDigest(buffer, hashType, digestType, maxLength)] and
    [process.cwd()]. *)
Class Platform : Type := {
  JSON_parse : string -> option Json.json;
  JSON_parse_empty : JSON_parse "" = None;
  getHashDigest : string -> string -> string -> Z -> string;
  process_cwd : string
}.

(* ===================================================================== *)
(** * The program *)
(* ===================================================================== *)

(** [oOptions.hash]: every field is optional. *)
Record hash_options : Type := {
  type : option string;
  digestType : option string;
  maxLength : option Z
}.

(** [oOptions] *)
Record options : Type := { hash : option hash_options }.

(** [oValidatedHashOptions] *)
Record validated_options : Type := {
  HASH_TYPE : string;
  DIGEST_TYPE : string;
  MAX_LENGTH : Z
}.

(** The Vinyl file of the bootstrap document. *)
Record Vinyl : Type := {
  cwd : string;
  path : string;
  contents : string
}.

(** The kinds of module a resource root can be. *)
Inductive module_kind : Type := Application | Library | AssetBundle.

(** The value of [sNewHash]: a token, [null], or [undefined] when no branch
    of the selecting function returns. *)
Inductive hash_value : Type :=
| HString (s : string)
| HNull
| HUndefined.

(** A byte buffer. *)
Definition buffer : Type := string.

(** [Buffer.from(sContent)] *)
Definition Buffer_from (sContent : Text.text) : buffer := Utf8.encode sContent.

(** [buffer.toString()] *)
Definition Buffer_toString (b : buffer) : Text.text := Utf8.decode b.

Arguments Buffer_from : simpl never.
Arguments Buffer_toString : simpl never.

Definition Buffer_concat (l : list buffer) : buffer := String.concat "" l.

(** The default comparison of [Array.prototype.sort]: the elements
    converted to strings, compared code unit by code unit. *)
Definition sort_leb (x y : buffer) : bool :=
  Text.leb (Buffer_toString x) (Buffer_toString y).

Fixpoint sort_insert (x : buffer) (l : list buffer) : list buffer :=
  match l with
  | [] => [x]
  | y :: l' => if sort_leb x y then x :: l else y :: sort_insert x l'
  end.

(** [a.sort()]: elements that compare equal keep their order. *)
Fixpoint Array_sort (l : list buffer) : list buffer :=
  match l with
  | [] => []
  | x :: l' => sort_insert x (Array_sort l')
  end.

(** [h || null] *)
Definition or_null (h : option string) : hash_value :=
  match h with
  | Some s => if String.eqb s "" then HNull else HString s
  | None => HNull
  end.

(** ToBoolean of [sNewHash] *)
Definition hash_truthy (h : hash_value) : bool :=
  match h with
  | HString s => negb (String.eqb s "")
  | HNull | HUndefined => false
  end.

(** ToString of [sNewHash], as string concatenation applies it. *)
Definition hash_to_string (h : hash_value) : string :=
  match h with
  | HString s => s
  | HNull => "null"
  | HUndefined => "undefined"
  end.

(** [a.indexOf(x) !== -1] *)
Definition contains (a : list string) (x : string) : bool :=
  existsb (String.eqb x) a.

(** The body of [_readAllFiles] once [readdirSync] has listed the directory:
    the [reduce] over its entries.  [statSync] of an entry is the entry's
    node and [readFileSync] of a file its decoded bytes; the recursive call
    passes no allow-list. *)
Fixpoint readTree (n : Fs.node) (aWhitelist : list string) {struct n}
  : list Text.text :=
  match n with
  | Fs.File _ => []
  | Fs.Dir aFiles =>
      (fix reduce (aFiles : list (string * Fs.node)) (aContents : list Text.text)
         {struct aFiles} : list Text.text :=
         match aFiles with
         | [] => aContents
         | (sFileName, oFile) :: rest =>
             reduce rest
               (match oFile with
                | Fs.Dir _ => aContents ++ readTree oFile []
                | Fs.File sContent =>
                    if (Nat.eqb (List.length aWhitelist) 0
                        || contains aWhitelist sFileName)%bool
                    then aContents ++ [Utf8.decode sContent]
                    else aContents
                end)%list
         end) aFiles []
  end.

Local Open Scope fs_scope.

(** [_readAllFiles(sDir, aWhitelist)] *)
Definition _readAllFiles (sDir : string) (aWhitelist : list string)
  : Fs.M (list Text.text) :=
  aFiles <- Fs.readdirSync sDir ;;
  Fs.ret (readTree (Fs.Dir aFiles) aWhitelist).

(** The options after defaulting: [sha512], [base62], length 8. *)
Definition validate (oHashOptions : hash_options) : validated_options :=
  {| HASH_TYPE := match type oHashOptions with Some t => t | None => "sha512" end;
     DIGEST_TYPE := match digestType oHashOptions with Some d => d | None => "base62" end;
     MAX_LENGTH := match maxLength oHashOptions with Some n => n | None => 8 end |}.

(** [const { hash: oHashOptions } = oOptions] with the default
    [{ hash: {} }] of an omitted argument; destructuring a missing [hash]
    throws a [TypeError]. *)
Definition hash_options_of (oOptions : option options) : outcome hash_options :=
  match oOptions with
  | None => Ok {| type := None; digestType := None; maxLength := None |}
  | Some o =>
      match hash o with
      | Some h => Ok h
      | None => Throw TypeError
      end
  end.

(** A value that has to be a string: [path.resolve] throws a [TypeError] on
    anything else. *)
Definition as_path (v : Json.value) : outcome string :=
  match v with
  | Some (Json.JStr s) => Ok s
  | _ => Throw TypeError
  end.

(** [a.reduce(f, init)] with an effectful callback. *)
Fixpoint reduce {A B : Type} (f : B -> A -> Fs.M B) (l : list A) (acc : B) : Fs.M B :=
  match l with
  | [] => Fs.ret acc
  | x :: l' => acc' <- f acc x ;; reduce f l' acc'
  end.

(** [a.map(f)] with an effectful callback. *)
Fixpoint mapM {A B : Type} (f : A -> Fs.M B) (l : list A) : Fs.M (list B) :=
  match l with
  | [] => Fs.ret []
  | x :: l' => y <- f x ;; ys <- mapM f l' ;; Fs.ret (y :: ys)
  end.

(** The pattern of a declaration, used with the [g] flag: the marker, a
    single quote, a captured greedy run of any characters but line
    terminators, and a single quote. *)
Definition declaration_pattern (sMarker : string) : Regex.regex :=
  Regex.Seq (Regex.lit sMarker)
    (Regex.Seq (Regex.Lit "'"%char)
       (Regex.Seq (Regex.Group (Regex.Star Regex.Dot)) (Regex.Lit "'"%char))).

(** The quoted text after a marker: from one character past the marker to
    the next single quote. *)
Definition extract (sMarker sHTMLContent : string) : string :=
  let iJSONStartsAt := JS.indexOf sHTMLContent sMarker 0 + JS.len sMarker + 1 in
  let iJSONEndsAt := JS.indexOf sHTMLContent "'" iJSONStartsAt in
  JS.substring sHTMLContent iJSONStartsAt iJSONEndsAt.

(** [new RegExp(src)] for a pattern built from a directory name. *)
Definition RegExp (src : string) : outcome Regex.regex :=
  match Regex.compile src with
  | Some r => Ok r
  | None => OutOfModel
  end.

(** The selection of the hash strategy: the [if]/[else if] chain over the
    three flags. *)
Definition classify (isUi5App isUi5Lib isAssetsDir : bool) : option module_kind :=
  if isUi5App then Some Application
  else if isUi5Lib then Some Library
  else if isAssetsDir then Some AssetBundle
  else None.

Section Program.

Context {P : Platform}.

(** [_createHash(aBufferList, oOptions)]; [None] is [null]. *)
Definition _createHash (aBufferList : option (list buffer))
           (oOptions : validated_options) : option string :=
  let aSortedBufferList :=
    Array_sort (match aBufferList with Some l => l | None => [] end) in
  if Nat.ltb 0 (List.length aSortedBufferList)
  then Some (JS.toLowerCase
               (getHashDigest (Buffer_concat aSortedBufferList)
                  (HASH_TYPE oOptions) (DIGEST_TYPE oOptions) (MAX_LENGTH oOptions)))
  else None.

(** [JSON.parse(s)] *)
Definition parse (s : string) : Fs.M Json.json :=
  match JSON_parse s with
  | Some v => Fs.ret v
  | None => Fs.throw SyntaxError
  end.

(** [JSON.parse] of a text read from a file. *)
Definition parse_text (t : Text.text) : Fs.M Json.json :=
  match Text.to_string t with
  | Some s => parse s
  | None => Fs.lift OutOfModel
  end.

(** [path.resolve(...)] *)
Definition resolve (args : list string) : string := Path.resolve process_cwd args.

(** [oManifestJSON['sap.ui5'].resources] *)
Definition manifest_resources (oManifestJSON : Json.json) : outcome Json.value :=
  match Json.get oManifestJSON "sap.ui5" with
  | Ok ui5 => Json.get_of ui5 "resources"
  | Throw e => Throw e
  | OutOfModel => OutOfModel
  end.

(** [oManifestJSON['sap.ui5'].resources[sResourceKey].map(oResource =>
    fs.readFileSync(path.resolve(sResolvedModulePath, oResource.uri), 'utf8'))] *)
Definition read_resources (sResolvedModulePath : string) (oManifestJSON : Json.json)
           (sResourceKey : string) : Fs.M (list Text.text) :=
  resources <- Fs.lift (manifest_resources oManifestJSON) ;;
  aResources <- Fs.lift (Json.get_of resources sResourceKey) ;;
  match aResources with
  | Some (Json.JArr l) =>
      mapM (fun oResource =>
              uri <- Fs.lift (Json.get oResource "uri") ;;
              sUri <- Fs.lift (as_path uri) ;;
              Fs.readFileSync (resolve [sResolvedModulePath; sUri])) l
  | _ => Fs.throw TypeError
  end.

(** The buffer list of [_getUi5AppHash], up to the call of [_createHash]. *)
Definition app_buffer_list (sResolvedModulePath sPreloadPath : string)
  : Fs.M (list buffer) :=
  oPreloadFileContent <- Fs.readFileSync sPreloadPath ;;
  let sManifestPath := resolve [sResolvedModulePath; "manifest.json"] in
  bManifest <- Fs.existsSync sManifestPath ;;
  oManifestFileContent <-
    (if bManifest : bool
     then (c <- Fs.readFileSync sManifestPath ;; Fs.ret (Some c))
     else Fs.ret None) ;;
  oManifestJSON <-
    match oManifestFileContent with
    | Some c =>
        if Text.is_empty c
        then Fs.ret (Json.JObj [("sap.ui5", Json.JObj [])])
        else parse_text c
    | None => Fs.ret (Json.JObj [("sap.ui5", Json.JObj [])])
    end ;;
  resources <- Fs.lift (manifest_resources oManifestJSON) ;;
  aResourceKeys <-
    (if Json.truthy resources
     then match resources with
          | Some r => Fs.lift (Json.keys r)
          | None => Fs.throw TypeError
          end
     else Fs.ret []) ;;
  aDependedResourceContents <-
    reduce (fun aContentsList sResourceKey =>
              l <- read_resources sResolvedModulePath oManifestJSON sResourceKey ;;
              Fs.ret (aContentsList ++ l)%list)
           aResourceKeys [] ;;
  Fs.ret (map Buffer_from
            (aDependedResourceContents
               ++ (if Text.is_empty oPreloadFileContent then []
                   else [oPreloadFileContent]))%list).

(** [_getUi5AppHash(sResolvedModulePath, sPreloadPath, oOptions)] *)
Definition _getUi5AppHash (sResolvedModulePath sPreloadPath : string)
           (oOptions : validated_options) : Fs.M (option string) :=
  aBufferList <- app_buffer_list sResolvedModulePath sPreloadPath ;;
  Fs.ret (_createHash (Some aBufferList) oOptions).

(** [_getUi5LibHash(sResolvedModulePath, sLibPreloadPath, oOptions)] *)
Definition _getUi5LibHash (sResolvedModulePath sLibPreloadPath : string)
           (oOptions : validated_options) : Fs.M (option string) :=
  oLibPreloadFileContent <- Fs.readFileSync sLibPreloadPath ;;
  let aBufferList := map Buffer_from [oLibPreloadFileContent] in
  Fs.ret (_createHash (Some aBufferList) oOptions).

(** [_getAssetsHash(sResolvedModulePath, oOptions)] *)
Definition _getAssetsHash (sResolvedModulePath : string)
           (oOptions : validated_options) : Fs.M (option string) :=
  aAssetContents <- _readAllFiles sResolvedModulePath [] ;;
  let aBufferList := map Buffer_from aAssetContents in
  Fs.ret (_createHash (Some aBufferList) oOptions).

(** [_getThemeRootHash(sThemeRootPath, sThemeName, oOptions)] *)
Definition _getThemeRootHash (sThemeRootPath sThemeName : string)
           (oOptions : validated_options) : Fs.M (option string) :=
  aAssetContents <- _readAllFiles sThemeRootPath [] ;;
  let aBufferList := map Buffer_from aAssetContents in
  Fs.ret (_createHash (Some aBufferList) oOptions).

(** The kind the callback of part one assigns to a resolved module
    directory: the two marker tests followed by the selection. *)
Definition module_kind_of (sResolvedModulePath : string) : Fs.M (option module_kind) :=
  isUi5App <- Fs.existsSync (resolve [sResolvedModulePath; "Component-preload.js"]) ;;
  isUi5Lib <- Fs.existsSync (resolve [sResolvedModulePath; "library-preload.js"]) ;;
  let isAssetsDir := (negb isUi5App && negb isUi5Lib)%bool in
  Fs.ret (classify isUi5App isUi5Lib isAssetsDir).

(** The generation of [sNewHash] for a resource root. *)
Definition module_hash (sResolvedModulePath sPreloadPath sLibPreloadPath : string)
           (isUi5App isUi5Lib isAssetsDir : bool)
           (oOptions : validated_options) : Fs.M hash_value :=
  match classify isUi5App isUi5Lib isAssetsDir with
  | Some Application =>
      h <- _getUi5AppHash sResolvedModulePath sPreloadPath oOptions ;;
      Fs.ret (or_null h)
  | Some Library =>
      h <- _getUi5LibHash sResolvedModulePath sLibPreloadPath oOptions ;;
      Fs.ret (or_null h)
  | Some AssetBundle =>
      h <- _getAssetsHash sResolvedModulePath oOptions ;;
      Fs.ret (or_null h)
  | None => Fs.ret HUndefined
  end.

(** The callback of the [reduce] over the module names (part one). *)
Definition bust_resource_root (oHTMLFile : Vinyl) (oOptions : validated_options)
           (oResouceRoots : Json.json) (oNewResouceRoots : Json.strmap)
           (sModuleName : string) : Fs.M Json.strmap :=
  vModulePath <- Fs.lift (Json.get oResouceRoots sModuleName) ;;
  sModulePath <- Fs.lift (as_path vModulePath) ;;
  let sResolvedModulePath :=
    resolve [cwd oHTMLFile; Path.dirname (path oHTMLFile); sModulePath] in
  (* check if module is of type APP *)
  let sPreloadPath := resolve [sResolvedModulePath; "Component-preload.js"] in
  isUi5App <- Fs.existsSync sPreloadPath ;;
  (* check if module is of type LIB *)
  let sLibPreloadPath := resolve [sResolvedModulePath; "library-preload.js"] in
  isUi5Lib <- Fs.existsSync sLibPreloadPath ;;
  (* check if module is of type ASSETS *)
  let isAssetsDir := (negb isUi5App && negb isUi5Lib)%bool in
  (* generate hash *)
  sNewHash <- module_hash sResolvedModulePath sPreloadPath sLibPreloadPath
                isUi5App isUi5Lib isAssetsDir oOptions ;;
  (* compose new module path *)
  let aPathChain := JS.split "/" sModulePath in
  let sOriginDirectory :=
    match JS.lastOf aPathChain with Some d => d | None => "undefined" end in
  sNewHashedModulePath <-
    (if hash_truthy sNewHash
     then r <- Fs.lift (RegExp (sOriginDirectory ++ "$")) ;;
          Fs.ret (Regex.replace r sResolvedModulePath
                    (sOriginDirectory ++ "-" ++ hash_to_string sNewHash))
     else Fs.ret sResolvedModulePath) ;;
  r <- Fs.lift (RegExp (sOriginDirectory ++ "$")) ;;
  let sNewHashedPath :=
    Regex.replace r sModulePath
      (sOriginDirectory ++ "-" ++ hash_to_string sNewHash) in
  (* rename resource root folder *)
  Fs.renameSync sResolvedModulePath sNewHashedModulePath ;;;
  (* update resource roots *)
  Fs.ret (Json.set oNewResouceRoots sModuleName sNewHashedPath).

(** The callback of the [reduce] over the theme names (part two). *)
Definition bust_theme_root (oHTMLFile : Vinyl) (oOptions : validated_options)
           (oThemeRoots : Json.json) (oNewThemeRoots : Json.strmap)
           (sThemeName : string) : Fs.M Json.strmap :=
  vThemeRootPath <- Fs.lift (Json.get oThemeRoots sThemeName) ;;
  sThemeRootPath <- Fs.lift (as_path vThemeRootPath) ;;
  let sResolvedThemeRootPath :=
    resolve [cwd oHTMLFile; Path.dirname (path oHTMLFile); sThemeRootPath] in
  (* check if theme root has a valid starting structure *)
  isValidThemeRoot <- Fs.existsSync sResolvedThemeRootPath ;;
  (* generate hash *)
  sNewHash <-
    (if isValidThemeRoot : bool
     then h <- _getThemeRootHash sResolvedThemeRootPath sThemeName oOptions ;;
          Fs.ret (or_null h)
     else Fs.ret HNull) ;;
  (* compose new theme root path *)
  let aPathChain :=
    JS.split "/" (Regex.replace (Regex.Seq (Regex.lit "/UI5") Regex.Eol)
                    sThemeRootPath "") in
  let sOriginDirectory :=
    match JS.lastOf aPathChain with Some d => d | None => "undefined" end in
  r1 <- Fs.lift (RegExp (sOriginDirectory ++ "/" ++ "UI5")) ;;
  let sNewHashedThemeRootPath :=
    Regex.replace r1 sResolvedThemeRootPath
      (sOriginDirectory ++ "-" ++ hash_to_string sNewHash) in
  r2 <- Fs.lift (RegExp (sOriginDirectory ++ "/UI5")) ;;
  let sNewHashedPath :=
    Regex.replace r2 sThemeRootPath
      (sOriginDirectory ++ "-" ++ hash_to_string sNewHash ++ "/UI5") in
  (* rename resource root folder *)
  let sPathBefore :=
    Regex.replace
      (Regex.Seq (Regex.Group (Regex.Alt (Regex.Lit "\"%char) (Regex.Lit "/"%char)))
         (Regex.Seq (Regex.lit "UI5") Regex.Eol))
      sResolvedThemeRootPath "" in
  Fs.renameSync sPathBefore sNewHashedThemeRootPath ;;;
  (* update resource roots *)
  Fs.ret (Json.set oNewThemeRoots sThemeName sNewHashedPath).

(** Part one: the resource roots. *)
Definition part_one (oHTMLFile : Vinyl) (oOptions : validated_options)
  : Fs.M Json.strmap :=
  let sResourceRoots := extract "data-sap-ui-resourceroots=" (contents oHTMLFile) in
  oResouceRoots <- parse sResourceRoots ;;
  aModuleNames <- Fs.lift (Json.keys oResouceRoots) ;;
  reduce (bust_resource_root oHTMLFile oOptions oResouceRoots) aModuleNames [].

(** Part two: the theme roots. *)
Definition part_two (oHTMLFile : Vinyl) (oOptions : validated_options)
  : Fs.M Json.strmap :=
  let sThemeRoots := extract "data-sap-ui-theme-roots=" (contents oHTMLFile) in
  oThemeRoots <- parse sThemeRoots ;;
  aThemeNames <- Fs.lift (Json.keys oThemeRoots) ;;
  reduce (bust_theme_root oHTMLFile oOptions oThemeRoots) aThemeNames [].

(** The update of the declarations in the document text. *)
Definition patch (sHTMLContent : string) (oNewResouceRoots oNewThemeRoots : Json.strmap)
  : string :=
  let sStringifiedResourceRoots := Json.stringify oNewResouceRoots in
  let sStringifiedThemeRoots := Json.stringify oNewThemeRoots in
  Regex.replace_all (declaration_pattern "data-sap-ui-theme-roots=")
    (Regex.replace_all (declaration_pattern "data-sap-ui-resourceroots=")
       sHTMLContent
       ("data-sap-ui-resourceroots='" ++ sStringifiedResourceRoots ++ "'"))
    ("data-sap-ui-theme-roots='" ++ sStringifiedThemeRoots ++ "'").

(** [ui5Bust(oHTMLFile, oOptions)]; [oOptions = None] is the omitted
    argument, with its default [{ hash: {} }]. *)
Definition ui5Bust (oHTMLFile : Vinyl) (oOptions : option options) : Fs.M Vinyl :=
  oHashOptions <- Fs.lift (hash_options_of oOptions) ;;
  let oValidatedHashOptions := validate oHashOptions in
  let sHTMLContent := contents oHTMLFile in
  oNewResouceRoots <- part_one oHTMLFile oValidatedHashOptions ;;
  oNewThemeRoots <- part_two oHTMLFile oValidatedHashOptions ;;
  let sNewHTMLContent := patch sHTMLContent oNewResouceRoots oNewThemeRoots in
  Fs.ret {| cwd := cwd oHTMLFile; path := path oHTMLFile; contents := sNewHTMLContent |}.

End Program.

(* ===================================================================== *)
(** * A reference platform

    An instance of [Platform] to run the program on concrete inputs: a JSON
    parser for texts in the 8-bit model (a [\u] escape above [00ff] is
    rejected), and a small checksum standing in for the digest, which here
    prints upper-case hexadecimal so that the lower-casing shows.  The
    theorems below hold for every platform; the reference platform only
    serves the closed examples. *)
(* ===================================================================== *)

Module Ref.

Import Json.

Definition is_ws (c : ascii) : bool :=
  let n := nat_of_ascii c in
  (Nat.eqb n 32 || Nat.eqb n 9 || Nat.eqb n 10 || Nat.eqb n 13)%bool.

Fixpoint skip_ws (s : string) : string :=
  match s with
  | String c s' => if is_ws c then skip_ws s' else s
  | EmptyString => s
  end.

Definition hex_val (c : ascii) : option nat :=
  let n := nat_of_ascii c in
  if (Nat.leb 48 n && Nat.leb n 57)%bool then Some (n - 48)%nat
  else if (Nat.leb 97 n && Nat.leb n 102)%bool then Some (n - 87)%nat
  else if (Nat.leb 65 n && Nat.leb n 70)%bool then Some (n - 55)%nat
  else None.

Definition simple_escape (c : ascii) : option ascii :=
  let n := nat_of_ascii c in
  if Nat.eqb n 34 then Some c
  else if Nat.eqb n 92 then Some c
  else if Nat.eqb n 47 then Some c
  else if Nat.eqb n 98 then Some (ascii_of_nat 8)
  else if Nat.eqb n 102 then Some (ascii_of_nat 12)
  else if Nat.eqb n 110 then Some (ascii_of_nat 10)
  else if Nat.eqb n 114 then Some (ascii_of_nat 13)
  else if Nat.eqb n 116 then Some (ascii_of_nat 9)
  else None.

(** The characters of a string literal after its opening quote. *)
Fixpoint string_body (s : string) : option (string * string) :=
  match s with
  | EmptyString => None
  | String c s' =>
      if Nat.eqb (nat_of_ascii c) 34 then Some (EmptyString, s')
      else if Nat.eqb (nat_of_ascii c) 92 then
        match s' with
        | String e s'' =>
            if Ascii.eqb e "u"%char then
              match s'' with
              | String h1 (String h2 (String h3 (String h4 s3))) =>
                  match hex_val h1, hex_val h2, hex_val h3, hex_val h4 with
                  | Some 0%nat, Some 0%nat, Some a, Some b =>
                      match string_body s3 with
                      | Some (t, rest) =>
                          Some (String (ascii_of_nat (16 * a + b)) t, rest)
                      | None => None
                      end
                  | _, _, _, _ => None
                  end
              | _ => None
              end
            else
              match simple_escape e, string_body s'' with
              | Some x, Some (t, rest) => Some (String x t, rest)
              | _, _ => None
              end
        | EmptyString => None
        end
      else if Nat.ltb (nat_of_ascii c) 32 then None
      else match string_body s' with
           | Some (t, rest) => Some (String c t, rest)
           | None => None
           end
  end.

(** A run of decimal digits: its value, its length and the rest. *)
Fixpoint digits (s : string) (acc : Z) (n : nat) : Z * nat * string :=
  match s with
  | String c s' =>
      if Regex.is_digit c
      then digits s' (10 * acc + Z.of_nat (Regex.digit_val c)) (S n)
      else (acc, n, s)
  | EmptyString => (acc, n, s)
  end.

(** A number: [-]? int frac? exp?, kept as the rational it denotes. *)
Definition number (s : string) : option (Q * string) :=
  let '(neg, s1) :=
    match s with
    | String c s' => if Ascii.eqb c "-"%char then (true, s') else (false, s)
    | EmptyString => (false, s)
    end in
  let '(i, ni, s2) := digits s1 0 0 in
  let leading_zero :=
    match s1 with
    | String c _ => (Ascii.eqb c "0"%char && Nat.ltb 1 ni)%bool
    | EmptyString => false
    end in
  if (Nat.eqb ni 0 || leading_zero)%bool then None
  else
    let frac :=
      match s2 with
      | String c s' =>
          if Ascii.eqb c "."%char
          then let '(f, nf, s3) := digits s' 0 0 in
               if Nat.eqb nf 0 then None else Some (f, nf, s3)
          else Some (0, O, s2)
      | EmptyString => Some (0, O, s2)
      end in
    match frac with
    | None => None
    | Some (f, nf, s3) =>
        let expo :=
          match s3 with
          | String c s' =>
              if (Ascii.eqb c "e"%char || Ascii.eqb c "E"%char)%bool then
                let '(eneg, s4) :=
                  match s' with
                  | String d s'' =>
                      if Ascii.eqb d "-"%char then (true, s'')
                      else if Ascii.eqb d "+"%char then (false, s'')
                      else (false, s')
                  | EmptyString => (false, s')
                  end in
                let '(e, ne, s5) := digits s4 0 0 in
                if Nat.eqb ne 0 then None
                else Some ((if eneg : bool then - e else e), s5)
              else Some (0, s3)
          | EmptyString => Some (0, s3)
          end in
        match expo with
        | None => None
        | Some (e, s5) =>
            let mant := i * 10 ^ Z.of_nat nf + f in
            let num := (if neg : bool then - mant else mant) * 10 ^ Z.max e 0 in
            let den := 10 ^ Z.of_nat nf * 10 ^ Z.max (- e) 0 in
            Some (Qmake num (Z.to_pos den), s5)
        end
    end.

(** Define property [k] of the object under construction: a repeated key
    keeps its place and takes the later value. *)
Fixpoint define (k : string) (v : json) (m : list (string * json))
  : list (string * json) :=
  match m with
  | [] => [(k, v)]
  | (k', v') :: m' =>
      if String.eqb k k' then (k', v) :: m' else (k', v') :: define k v m'
  end.

(** The value of a canonical array index ([0], [1], ... below [2^32 - 1]). *)
Definition array_index (k : string) : option Z :=
  let '(v, n, rest) := digits k 0 0 in
  match k with
  | EmptyString => None
  | String c _ =>
      if (String.eqb rest "" && negb (Ascii.eqb c "0"%char && Nat.ltb 1 n)
          && (v <? 4294967295))%bool
      then Some v else None
  end.

Fixpoint insert_index (i : Z) (e : string * json) (l : list (Z * (string * json)))
  : list (Z * (string * json)) :=
  match l with
  | [] => [(i, e)]
  | (j, e') :: l' => if i <? j then (i, e) :: l else (j, e') :: insert_index i e l'
  end.

(** Enumeration order of an object: array indices in ascending order,
    then the other keys in order of creation. *)
Definition enumerate (m : list (string * json)) : list (string * json) :=
  let idx :=
    fold_left (fun acc e =>
                 match array_index (fst e) with
                 | Some i => insert_index i e acc
                 | None => acc
                 end) m [] in
  let others :=
    filter (fun e => match array_index (fst e) with Some _ => false | None => true end) m in
  (map snd idx ++ others)%list.

Definition literal (word : string) (v : json) (s : string) : option (json * string) :=
  if JS.startsWith word s then Some (v, JS.drop (String.length word) s) else None.

(** A JSON value at the start of [s], with the rest of the text. *)
Fixpoint value (fuel : nat) (s : string) {struct fuel} : option (json * string) :=
  match fuel with
  | O => None
  | S fuel' =>
      match skip_ws s with
      | EmptyString => None
      | String c rest as s0 =>
          if Ascii.eqb c "{"%char then
            match skip_ws rest with
            | String d rest' =>
                if Ascii.eqb d "}"%char then Some (JObj [], rest')
                else members fuel' (String d rest') []
            | EmptyString => None
            end
          else if Ascii.eqb c "["%char then
            match skip_ws rest with
            | String d rest' =>
                if Ascii.eqb d "]"%char then Some (JArr [], rest')
                else elements fuel' (String d rest') []
            | EmptyString => None
            end
          else if Nat.eqb (nat_of_ascii c) 34 then
            match string_body rest with
            | Some (t, rest') => Some (JStr t, rest')
            | None => None
            end
          else if Ascii.eqb c "n"%char then literal "null" JNull s0
          else if Ascii.eqb c "t"%char then literal "true" (JBool true) s0
          else if Ascii.eqb c "f"%char then literal "false" (JBool false) s0
          else match number s0 with
               | Some (q, rest') => Some (JNum q, rest')
               | None => None
               end
      end
  end
with elements (fuel : nat) (s : string) (acc : list json) {struct fuel}
  : option (json * string) :=
  match fuel with
  | O => None
  | S fuel' =>
      match value fuel' s with
      | Some (v, rest) =>
          match skip_ws rest with
          | String c rest' =>
              if Ascii.eqb c ","%char then elements fuel' rest' (v :: acc)
              else if Ascii.eqb c "]"%char then Some (JArr (rev (v :: acc)), rest')
              else None
          | EmptyString => None
          end
      | None => None
      end
  end
with members (fuel : nat) (s : string) (acc : list (string * json)) {struct fuel}
  : option (json * string) :=
  match fuel with
  | O => None
  | S fuel' =>
      match skip_ws s with
      | String q rest =>
          if Nat.eqb (nat_of_ascii q) 34 then
            match string_body rest with
            | Some (k, rest1) =>
                match skip_ws rest1 with
                | String c rest2 =>
                    if Ascii.eqb c ":"%char then
                      match value fuel' rest2 with
                      | Some (v, rest3) =>
                          match skip_ws rest3 with
                          | String d rest4 =>
                              if Ascii.eqb d ","%char
                              then members fuel' rest4 (define k v acc)
                              else if Ascii.eqb d "}"%char
                              then Some (JObj (enumerate (define k v acc)), rest4)
                              else None
                          | EmptyString => None
                          end
                      | None => None
                      end
                    else None
                | EmptyString => None
                end
            | None => None
            end
          else None
      | EmptyString => None
      end
  end.

(** The whole text has to be one value. *)
Definition parse_json (s : string) : option json :=
  match value (2 * String.length s + 2) s with
  | Some (v, rest) =>
      match skip_ws rest with
      | EmptyString => Some v
      | String _ _ => None
      end
  | None => None
  end.

Fixpoint checksum (s : string) (h : Z) : Z :=
  match s with
  | EmptyString => h
  | String c s' => checksum s' ((h * 33 + Z.of_nat (nat_of_ascii c)) mod 4294967296)
  end.

Definition upper_hex_digit (n : Z) : ascii :=
  if n <? 10 then ascii_of_nat (48 + Z.to_nat n) else ascii_of_nat (55 + Z.to_nat n).

Fixpoint hex (k : nat) (n : Z) (acc : string) : string :=
  match k with
  | O => acc
  | S k' => hex k' (n / 16) (String (upper_hex_digit (n mod 16)) acc)
  end.

(** The stand-in digest: eight upper-case hexadecimal digits of a
    checksum, cut to [maxLength]. *)
Definition digest (content hashType digestType : string) (nMaxLength : Z) : string :=
  JS.take (Z.to_nat nMaxLength) (hex 8 (checksum content 5381) EmptyString).

Definition platform : Platform :=
  {| JSON_parse := parse_json;
   JSON_parse_empty := eq_refl;
   getHashDigest := digest;
   process_cwd := "/" |}.

End Ref.

(* ===================================================================== *)
(** * Example inputs *)
(* ===================================================================== *)

Module Examples.

Import Fs.

Definition page (sContent : string) : Vinyl :=
  {| cwd := "/proj"; path := "/proj/index.html"; contents := JS.dq sContent |}.

Definition default_options : validated_options :=
  {| HASH_TYPE := "sha512"; DIGEST_TYPE := "base62"; MAX_LENGTH := 8 |}.

(** A run on the reference platform. *)
Definition run : Vinyl -> option options -> Fs.M Vinyl :=
  ui5Bust (P := Ref.platform).

(** A project with an application, a library, an empty asset directory
    and a theme directory without its [UI5] folder. *)
Definition project : fs :=
  Dir [("proj",
        Dir [("index.html", File "<html/>");
             ("apps",
              Dir [("demo", Dir [("Component-preload.js", File "B")]);
                   ("empty", Dir [])]);
             ("libs", Dir [("demo", Dir [("library-preload.js", File "L1")])]);
             ("themes", Dir [("custom", Dir [("readme.txt", File "r")])])])].

(** An empty asset bundle as the only resource root. *)
Definition page_empty_bundle : Vinyl :=
  page ("<script data-sap-ui-resourceroots='{`demo.assets`:`./apps/empty`}'" ++ JS.nl
        ++ "data-sap-ui-theme-roots='{}'></script>").

(** A library as resource root, and no theme-root declaration at all. *)
Definition page_without_theme_roots : Vinyl :=
  page "<script data-sap-ui-resourceroots='{`demo.lib`:`./libs/demo`}'></script>".

(** A resource-root declaration that is not JSON. *)
Definition page_broken_resource_roots : Vinyl :=
  page ("<script data-sap-ui-resourceroots='{demo.lib:./libs/demo}'" ++ JS.nl
        ++ "data-sap-ui-theme-roots='{}'></script>").

(** No resource-root marker: the text at offset 26 happens to be JSON. *)
Definition page_without_resource_roots : Vinyl :=
  page "<!-- 0123456789 0123456-->{}' data-sap-ui-theme-roots='{}'".

(** Both declarations on one line. *)
Definition page_one_line : Vinyl :=
  page "<script data-sap-ui-resourceroots='{}' data-sap-ui-theme-roots='{}'></script>".

(** A theme root whose directory [/proj/themes/custom/UI5] does not exist. *)
Definition page_missing_theme : Vinyl :=
  page ("<script data-sap-ui-resourceroots='{}'" ++ JS.nl
        ++ "data-sap-ui-theme-roots='{`custom`:`themes/custom/UI5`}'></script>").

(** The resource-root declaration laid out over several lines. *)
Definition page_multi_line : Vinyl :=
  page ("<script" ++ JS.nl
        ++ "  data-sap-ui-resourceroots='{" ++ JS.nl
        ++ "    `demo.lib`: `./libs/demo`" ++ JS.nl
        ++ "  }'" ++ JS.nl
        ++ "  data-sap-ui-theme-roots='{}'></script>").

(** A site with one application and one theme, and its page. *)
Definition site : fs :=
  Dir [("proj",
        Dir [("index.html", File "<html/>");
             ("apps", Dir [("demo", Dir [("Component-preload.js", File "B")])]);
             ("themes", Dir [("base", Dir [("UI5", Dir [("library.css", File "css")])])])])].

Definition page_site : Vinyl :=
  page ("<script data-sap-ui-resourceroots='{`demo.app`:`./apps/demo`}'" ++ JS.nl
        ++ "data-sap-ui-theme-roots='{`base`:`themes/base/UI5`}'></script>").

(** A directory with a file on the allow-list, one off it, and a
    subdirectory with a file off the allow-list. *)
Definition tree : fs :=
  Dir [("d",
        Dir [("a.txt", File "A");
             ("c.txt", File "C");
             ("sub", Dir [("b.txt", File "B")])])].

(** The string of the bytes given by their numbers. *)
Definition bytes (l : list Z) : string :=
  string_of_list_ascii (map (fun z => ascii_of_N (Z.to_N z)) l).

(** An application whose component-preload file holds the single byte [ff],
    which is not UTF-8. *)
Definition binary_preload : fs :=
  Dir [("proj", Dir [("app", Dir [("Component-preload.js", File (bytes [255]))])])].

(** An application whose component-preload file is empty. *)
Definition empty_preload : fs :=
  Dir [("proj", Dir [("app", Dir [("Component-preload.js", File "")])])].

(** An application with a manifest that has no ['sap.ui5'] property. *)
Definition bare_manifest : fs :=
  Dir [("proj",
        Dir [("app",
              Dir [("Component-preload.js", File "B");
                   ("manifest.json", File "{}")])])].

(** An application with a manifest that refers to two style sheets. *)
Definition styled_app : fs :=
  Dir [("proj",
        Dir [("app",
              Dir [("Component-preload.js", File "B");
                   ("manifest.json",
                    File (JS.dq "{`sap.ui5`:{`resources`:{`css`:[{`uri`:`css/a.css`},{`uri`:`css/b.css`}]}}}"));
                   ("css", Dir [("a.css", File "a{}"); ("b.css", File "b{}")])])])].

End Examples.

(* ===================================================================== *)
(** * Vocabulary of the specification *)
(* ===================================================================== *)

Section Vocabulary.

Context {P : Platform}.

(** The node at a path. *)
Definition node_at (s : Fs.fs) (p : string) : option Fs.node :=
  match Fs.locate p s with
  | Ok n => n
  | _ => None
  end.

(** The text of the regular file at a path, as an 8-bit string: the file
    decodes to a string without a code unit above 255. *)
Definition text_at (s : Fs.fs) (p : string) : option string :=
  match node_at s p with
  | Some (Fs.File c) => Text.to_string (Utf8.decode c)
  | _ => None
  end.

(** The buffer the program makes of a file content: the UTF-8 encoding of
    its decoding. *)
Definition reencoded (c : string) : buffer := Buffer_from (Utf8.decode c).

(** A marker file of a module directory is present. *)
Definition has_marker (s : Fs.fs) (sResolvedModulePath sMarker : string) : Prop :=
  node_at s (resolve [sResolvedModulePath; sMarker]) <> None.

(** The resources section of a manifest, in the words of the
    specification: a mapping from resource category to an ordered sequence
    of [{uri}] entries. *)
Definition resources_section : Type := list (string * list string).

(** All the URIs a resources section refers to, category by category. *)
Definition referenced_uris (R : resources_section) : list string :=
  concat (map snd R).

(** The JSON form of a [{uri}] entry, of a category and of a section. *)
Definition is_entry (u : string) (j : Json.json) : Prop :=
  exists m, j = Json.JObj m /\ Json.assoc "uri" m = Some (Json.JStr u).

Definition is_category (us : list string) (j : Json.json) : Prop :=
  exists l, j = Json.JArr l /\ Forall2 is_entry us l.

Definition is_section (R : resources_section) (j : Json.json) : Prop :=
  exists m, j = Json.JObj m
            /\ NoDup (map fst m)
            /\ Forall2 (fun r e => fst r = fst e /\ is_category (snd r) (snd e)) R m.

(** What the manifest of a module directory declares: nothing when there
    is no manifest, when it is an empty file or when its ['sap.ui5'] object
    has no [resources]; the resources section otherwise. *)
Inductive manifest_declares (s : Fs.fs) (sResolvedModulePath : string)
  : resources_section -> Prop :=
| manifest_absent :
    node_at s (resolve [sResolvedModulePath; "manifest.json"]) = None ->
    manifest_declares s sResolvedModulePath []
| manifest_blank :
    node_at s (resolve [sResolvedModulePath; "manifest.json"]) = Some (Fs.File "") ->
    manifest_declares s sResolvedModulePath []
| manifest_plain c j ui5 :
    text_at s (resolve [sResolvedModulePath; "manifest.json"]) = Some c ->
    JSON_parse c = Some j ->
    Json.get j "sap.ui5" = Ok (Some (Json.JObj ui5)) ->
    Json.assoc "resources" ui5 = None ->
    manifest_declares s sResolvedModulePath []
| manifest_with_resources c j ui5 res R :
    text_at s (resolve [sResolvedModulePath; "manifest.json"]) = Some c ->
    JSON_parse c = Some j ->
    Json.get j "sap.ui5" = Ok (Some (Json.JObj ui5)) ->
    Json.assoc "resources" ui5 = Some res ->
    is_section R res ->
    manifest_declares s sResolvedModulePath R.

(** The files the URIs refer to, resolved against the module directory,
    with their contents. *)
Definition referenced_contents (s : Fs.fs) (sResolvedModulePath : string)
           (uris : list string) (lContents : list string) : Prop :=
  Forall2 (fun u c => node_at s (resolve [sResolvedModulePath; u]) = Some (Fs.File c))
          uris lContents.

End Vocabulary.

(* ===================================================================== *)
(** * Further vocabulary *)
(* ===================================================================== *)

(** A computation that leaves the file system as it found it, whether it
    returns or throws. *)
Definition read_only {A : Type} (m : Fs.M A) : Prop :=
  forall s, snd (m s) = s.

(** The contents of the regular files of a tree, at every depth, in
    enumeration order. *)
Fixpoint file_contents (n : Fs.node) : list string :=
  match n with
  | Fs.File c => [c]
  | Fs.Dir es =>
      (fix go (es : list (string * Fs.node)) : list string :=
         match es with
         | [] => []
         | (_, c) :: es' => (file_contents c ++ go es')%list
         end) es
  end.

(** [x < y] on strings: at the first position where they differ the code
    unit of [x] is the smaller one, or [x] is a proper prefix of [y]. *)
Inductive text_lt : Text.text -> Text.text -> Prop :=
| text_lt_prefix (u : N) (y : Text.text) : text_lt [] (u :: y)
| text_lt_head (u v : N) (x y : Text.text) : (u < v)%N -> text_lt (u :: x) (v :: y)
| text_lt_tail (u : N) (x y : Text.text) : text_lt x y -> text_lt (u :: x) (u :: y).

Definition text_le (x y : Text.text) : Prop := x = y \/ text_lt x y.

(** Buffers told apart by their strings. *)
Definition told_apart (l : list buffer) : Prop :=
  forall x y, In x l -> In y l -> Buffer_toString x = Buffer_toString y -> x = y.

(** The bytes of the buffers of a list, one buffer after the other. *)
Definition bytes_in_order (l : list buffer) : list ascii :=
  List.concat (map list_ascii_of_string l).

(** A character and its lower-case form: a capital letter moves 32 places
    up, any other character stays. *)
Definition lowered (c d : ascii) : Prop :=
  let n := nat_of_ascii c in
  nat_of_ascii d =
  if ((65 <=? n) && (n <=? 90) || (192 <=? n) && (n <=? 222) && negb (n =? 215))%nat%bool
  then (n + 32)%nat else n.

(** A buffer that holds UTF-8: the encoding of a string without lone
    surrogates. *)
Definition valid_utf8 (b : buffer) : Prop :=
  exists t, Utf8.well_formed t /\ b = Utf8.encode t.

(** The [reduce] of [_readAllFiles] as a function of its accumulator. *)
Definition read_entries (aWhitelist : list string)
  : list (string * Fs.node) -> list Text.text -> list Text.text :=
  fix reduce (aFiles : list (string * Fs.node)) (aContents : list Text.text)
    {struct aFiles} : list Text.text :=
    match aFiles with
    | [] => aContents
    | (sFileName, oFile) :: rest =>
        reduce rest
          (match oFile with
           | Fs.Dir _ => aContents ++ readTree oFile []
           | Fs.File sContent =>
               if (Nat.eqb (List.length aWhitelist) 0
                   || contains aWhitelist sFileName)%bool
               then aContents ++ [Utf8.decode sContent]
               else aContents
           end)%list
    end.

(** Two trees with the same files up to the order of the entries of each
    directory and up to the names of the entries. *)
Inductive reshuffled : Fs.node -> Fs.node -> Prop :=
| reshuffled_file (c : string) : reshuffled (Fs.File c) (Fs.File c)
| reshuffled_dir (es es' es'' : list (string * Fs.node)) :
    Forall2 (fun e e' => reshuffled (snd e) (snd e')) es es' ->
    Permutation es' es'' ->
    reshuffled (Fs.Dir es) (Fs.Dir es'').

(** The last segment of a path written with ["/"]: [sOriginDirectory]. *)
Definition origin_directory (sPath : string) : string :=
  match JS.lastOf (JS.split "/" sPath) with Some d => d | None => "undefined" end.

(** A directory name made of ordinary characters and dots. *)
Fixpoint plain_name (sName : string) : bool :=
  match sName with
  | EmptyString => true
  | String c sName' =>
      ((Ascii.eqb c "."%char || negb (Regex.is_syntax_char c)) && plain_name sName')%bool
  end.

(** A text without the character [$], which a replacement string would
    interpret. *)
Fixpoint dollar_free (t : string) : bool :=
  match t with
  | EmptyString => true
  | String c t' => (negb (Ascii.eqb c "$"%char) && dollar_free t')%bool
  end.

(** The regular expression [new RegExp(sName + '$')] of a plain name. *)
Fixpoint suffix_pattern (sName : string) : Regex.regex :=
  match sName with
  | EmptyString => Regex.Seq Regex.Eol Regex.Empty
  | String c sName' =>
      Regex.Seq (if Ascii.eqb c "."%char then Regex.Dot else Regex.Lit c)
                (suffix_pattern sName')
  end.

Section FurtherProgram.

Context {P : Platform}.

(** The callback of part one up to the generation of the hash: the declared
    path, the resolved path and [sNewHash]. *)
Definition resource_root_hash (oHTMLFile : Vinyl) (oOptions : validated_options)
           (oResouceRoots : Json.json) (sModuleName : string)
  : Fs.M (string * string * hash_value) :=
  vModulePath <- Fs.lift (Json.get oResouceRoots sModuleName) ;;
  sModulePath <- Fs.lift (as_path vModulePath) ;;
  let sResolvedModulePath :=
    resolve [cwd oHTMLFile; Path.dirname (path oHTMLFile); sModulePath] in
  let sPreloadPath := resolve [sResolvedModulePath; "Component-preload.js"] in
  isUi5App <- Fs.existsSync sPreloadPath ;;
  let sLibPreloadPath := resolve [sResolvedModulePath; "library-preload.js"] in
  isUi5Lib <- Fs.existsSync sLibPreloadPath ;;
  let isAssetsDir := (negb isUi5App && negb isUi5Lib)%bool in
  sNewHash <- module_hash sResolvedModulePath sPreloadPath sLibPreloadPath
                isUi5App isUi5Lib isAssetsDir oOptions ;;
  Fs.ret (sModulePath, sResolvedModulePath, sNewHash).

(** [sNewHashedModulePath]: the resolved path with the token appended to
    its last segment, or the resolved path itself without a token. *)
Definition hashed_resolved_path (sModulePath sResolvedModulePath : string)
           (sNewHash : hash_value) : outcome string :=
  if hash_truthy sNewHash
  then match RegExp (origin_directory sModulePath ++ "$") with
       | Ok r =>
           Ok (Regex.replace r sResolvedModulePath
                 (origin_directory sModulePath ++ "-" ++ hash_to_string sNewHash))
       | Throw e => Throw e
       | OutOfModel => OutOfModel
       end
  else Ok sResolvedModulePath.

(** [sNewHashedPath]: the declared path after the same replacement. *)
Definition hashed_module_path (sModulePath : string) (sNewHash : hash_value)
  : outcome string :=
  match RegExp (origin_directory sModulePath ++ "$") with
  | Ok r =>
      Ok (Regex.replace r sModulePath
            (origin_directory sModulePath ++ "-" ++ hash_to_string sNewHash))
  | Throw e => Throw e
  | OutOfModel => OutOfModel
  end.

(** The callback of part one from the composition of the new path on. *)
Definition finish_resource_root (oNewResouceRoots : Json.strmap)
           (sModuleName sModulePath sResolvedModulePath : string)
           (sNewHash : hash_value) : Fs.M Json.strmap :=
  sNewHashedModulePath <-
    Fs.lift (hashed_resolved_path sModulePath sResolvedModulePath sNewHash) ;;
  sNewHashedPath <- Fs.lift (hashed_module_path sModulePath sNewHash) ;;
  Fs.renameSync sResolvedModulePath sNewHashedModulePath ;;;
  Fs.ret (Json.set oNewResouceRoots sModuleName sNewHashedPath).

End FurtherProgram.

(** The loop of a greedy star, by name: [Regex.rmatch (Regex.Star r)] is
    this loop started with the length of the input. *)
Definition star_loop {X : Type} (r : Regex.regex)
           (k : string -> option string -> option X)
  : nat -> string -> option string -> option X :=
  fix loop (n : nat) (s : string) (cap : option string) {struct n} : option X :=
    match n with
    | O => k s cap
    | S n' =>
        match Regex.rmatch r s cap
                (fun s' cap' =>
                   if Nat.ltb (String.length s') (String.length s)
                   then loop n' s' cap' else None) with
        | Some x => Some x
        | None => k s cap
        end
    end.

(** The continuation tried after every prefix of [line], the longest prefix
    first: what a greedy [.*] does on a line. *)
Fixpoint longest_first {X : Type} (k : string -> option string -> option X)
         (line rest : string) (cap : option string) : option X :=
  match line with
  | EmptyString => k rest cap
  | String c line' =>
      match longest_first k line' rest cap with
      | Some x => Some x
      | None => k (String c line' ++ rest) cap
      end
  end.

(** A text without line terminators. *)
Fixpoint line_text (t : string) : bool :=
  match t with
  | EmptyString => true
  | String c t' => (negb (Regex.is_line_terminator c) && line_text t')%bool
  end.

(** A text without single quotes. *)
Fixpoint quote_free (t : string) : bool :=
  match t with
  | EmptyString => true
  | String c t' => (negb (Ascii.eqb c "'"%char) && quote_free t')%bool
  end.

(** The end of the text or the start of a new line. *)
Definition at_line_end (t : string) : bool :=
  match t with
  | EmptyString => true
  | String c _ => Regex.is_line_terminator c
  end.

(** A document text around one declaration: the text before the marker, the
    marker, the quoted text, the rest of the line and the other lines. *)
Definition document (sMarker pre body tail rest : string) : string :=
  pre ++ sMarker ++ String "'"%char (body ++ String "'"%char (tail ++ rest)).

(** The declaration is the only one of its marker and closes with the last
    single quote of its line: the marker occurs first at the end of [pre]
    and not after the declaration, the quoted text and the rest of the line
    hold no line terminator, and the rest of the line holds no single
    quote. *)
Definition well_placed (sMarker pre body tail rest : string) : Prop :=
  JS.indexOf (document sMarker pre body tail rest) sMarker 0 = JS.len pre
  /\ line_text body = true
  /\ line_text tail = true
  /\ quote_free tail = true
  /\ at_line_end rest = true
  /\ JS.indexOf (tail ++ rest) sMarker 0 = -1.

(** A map whose keys and values hold no [$]. *)
Definition dollar_free_map (o : Json.strmap) : bool :=
  forallb (fun kv => (dollar_free (fst kv) && dollar_free (snd kv))%bool) o.

(* ===================================================================== *)
(** * Further example inputs *)
(* ===================================================================== *)

Module MoreExamples.

Import Fs.

(** Two directories with the same two contents under other names, in
    another order and at another depth. *)
Definition bundles : fs :=
  Dir [("d", Dir [("a.json", File "1"); ("b.json", File "2")]);
       ("e", Dir [("sub", Dir [("y.json", File "2")]); ("x.json", File "1")])].

(** The directory [/d] of [bundles] enumerated in the other order. *)
Definition bundles_reordered : fs :=
  Dir [("d", Dir [("b.json", File "2"); ("a.json", File "1")]);
       ("e", Dir [("sub", Dir [("y.json", File "2")]); ("x.json", File "1")])].

(** Parsed resource-root declarations for the example project. *)
Definition library_root : Json.json :=
  Json.JObj [("demo.lib", Json.JStr "./libs/demo")].

Definition empty_root : Json.json :=
  Json.JObj [("demo.assets", Json.JStr "./apps/empty")].

(** A page whose resource-root declaration is the JSON value [null]. *)
Definition page_null_declaration : Vinyl :=
  Examples.page ("<script data-sap-ui-resourceroots='null'" ++ JS.nl
                 ++ "data-sap-ui-theme-roots='{}'></script>").

(** The parsed theme-root declaration of the example site. *)
Definition base_theme : Json.json :=
  Json.JObj [("base", Json.JStr "themes/base/UI5")].

End MoreExamples.

(** A directory name proper: not empty, not [.] and not [..]. *)
Definition proper_name (sName : string) : bool :=
  negb (String.eqb sName "" || String.eqb sName "." || String.eqb sName "..")%bool.

Module ManifestExamples.

Import Fs.

(** An application whose manifest is not JSON. *)
Definition broken_manifest : fs :=
  Dir [("proj",
        Dir [("app",
              Dir [("Component-preload.js", File "B");
                   ("manifest.json", File "{oops")])])].

End ManifestExamples.

(** A directory name made of ordinary characters only. *)
Fixpoint literal_name (sName : string) : bool :=
  match sName with
  | EmptyString => true
  | String c sName' => (negb (Regex.is_syntax_char c) && literal_name sName')%bool
  end.

(** A text without the separator ["/"]. *)
Fixpoint slash_free (t : string) : bool :=
  match t with
  | EmptyString => true
  | String c t' => (negb (Ascii.eqb c "/"%char) && slash_free t')%bool
  end.

(** A segment of a normalised path: a name without ["/"] that is not empty,
    [.] or [..]. *)
Definition segment_name (x : string) : bool :=
  (slash_free x
   && negb (String.eqb x "" || String.eqb x "." || String.eqb x ".."))%bool.

(** The pattern [(\\|/)UI5$] that cuts the trailing [UI5] segment off a
    resolved path. *)
Definition trailing_UI5 : Regex.regex :=
  Regex.Seq (Regex.Group (Regex.Alt (Regex.Lit "\"%char) (Regex.Lit "/"%char)))
    (Regex.Seq (Regex.lit "UI5") Regex.Eol).

Section FurtherThemes.

Context {P : Platform}.

(** The callback of part two up to the generation of the hash: the declared
    path, the resolved path and [sNewHash]. *)
Definition theme_root_hash (oHTMLFile : Vinyl) (oOptions : validated_options)
           (oThemeRoots : Json.json) (sThemeName : string)
  : Fs.M (string * string * hash_value) :=
  vThemeRootPath <- Fs.lift (Json.get oThemeRoots sThemeName) ;;
  sThemeRootPath <- Fs.lift (as_path vThemeRootPath) ;;
  let sResolvedThemeRootPath :=
    resolve [cwd oHTMLFile; Path.dirname (path oHTMLFile); sThemeRootPath] in
  isValidThemeRoot <- Fs.existsSync sResolvedThemeRootPath ;;
  sNewHash <-
    (if isValidThemeRoot : bool
     then h <- _getThemeRootHash sResolvedThemeRootPath sThemeName oOptions ;;
          Fs.ret (or_null h)
     else Fs.ret HNull) ;;
  Fs.ret (sThemeRootPath, sResolvedThemeRootPath, sNewHash).

(** The callback of part two from the composition of the new path on. *)
Definition finish_theme_root (oNewThemeRoots : Json.strmap)
           (sThemeName sThemeRootPath sResolvedThemeRootPath : string)
           (sNewHash : hash_value) : Fs.M Json.strmap :=
  let sOriginDirectory :=
    origin_directory
      (Regex.replace (Regex.Seq (Regex.lit "/UI5") Regex.Eol) sThemeRootPath "") in
  r1 <- Fs.lift (RegExp (sOriginDirectory ++ "/" ++ "UI5")) ;;
  let sNewHashedThemeRootPath :=
    Regex.replace r1 sResolvedThemeRootPath
      (sOriginDirectory ++ "-" ++ hash_to_string sNewHash) in
  r2 <- Fs.lift (RegExp (sOriginDirectory ++ "/UI5")) ;;
  let sNewHashedPath :=
    Regex.replace r2 sThemeRootPath
      (sOriginDirectory ++ "-" ++ hash_to_string sNewHash ++ "/UI5") in
  let sPathBefore := Regex.replace trailing_UI5 sResolvedThemeRootPath "" in
  Fs.renameSync sPathBefore sNewHashedThemeRootPath ;;;
  Fs.ret (Json.set oNewThemeRoots sThemeName sNewHashedPath).

End FurtherThemes.

(* ===================================================================== *)
(** * The earlier version of the program ([src/unnamed/part_000])

    Every resource root is taken for an application component; the token
    replaces the directory name, the buffers are not sorted, and there is no
    theme-root part. *)
(* ===================================================================== *)

Module Legacy.

Section Program.

Context {P : Platform}.

(** [fs.existsSync(p) ? fs.readFileSync(p, 'utf8') : null] *)
Definition read_or_null (p : string) : Fs.M (option Text.text) :=
  b <- Fs.existsSync p ;;
  if b : bool then (c <- Fs.readFileSync p ;; Fs.ret (Some c)) else Fs.ret None.

(** [oManifestFileContent ? JSON.parse(oManifestFileContent)
                          : { 'sap.ui5': null }] *)
Definition manifest_json (oManifestFileContent : option Text.text)
  : Fs.M Json.json :=
  match oManifestFileContent with
  | Some c =>
      if Text.is_empty c
      then Fs.ret (Json.JObj [("sap.ui5", Json.JNull)])
      else parse_text c
  | None => Fs.ret (Json.JObj [("sap.ui5", Json.JNull)])
  end.

(** The contents the hash of an application is made of: the files the
    manifest refers to, followed by a non-empty component-preload file. *)
Definition app_buffer_list (sResolvedAppPath : string) : Fs.M (list buffer) :=
  let sPreloadPath := resolve [sResolvedAppPath; "Component-preload.js"] in
  oPreloadFileContent <- read_or_null sPreloadPath ;;
  let sManifestPath := resolve [sResolvedAppPath; "manifest.json"] in
  oManifestFileContent <- read_or_null sManifestPath ;;
  oManifestJSON <- manifest_json oManifestFileContent ;;
  resources <- Fs.lift (manifest_resources oManifestJSON) ;;
  aResourceKeys <-
    (if Json.truthy resources
     then match resources with
          | Some r => Fs.lift (Json.keys r)
          | None => Fs.throw TypeError
          end
     else Fs.ret []) ;;
  aDependedResourceContents <-
    reduce (fun aContentsList sResourceKey =>
              l <- read_resources sResolvedAppPath oManifestJSON sResourceKey ;;
              Fs.ret (aContentsList ++ l)%list)
           aResourceKeys [] ;;
  Fs.ret (map Buffer_from
            (aDependedResourceContents
               ++ (match oPreloadFileContent with
                   | Some c => if Text.is_empty c then [] else [c]
                   | None => []
                   end))%list).

(** [sNewHash]: the declared path when there is nothing to hash, the
    lower-cased digest of the concatenated buffers otherwise. *)
Definition new_hash (sAppPath : string) (aBufferList : list buffer)
           (oOptions : validated_options) : string :=
  if Nat.eqb (List.length aBufferList) 0
  then sAppPath
  else JS.toLowerCase
         (getHashDigest (Buffer_concat aBufferList)
            (HASH_TYPE oOptions) (DIGEST_TYPE oOptions) (MAX_LENGTH oOptions)).

(** The callback of the [reduce] over the application names. *)
Definition bust_app (oHTMLFile : Vinyl) (oOptions : validated_options)
           (oResouceRoots : Json.json) (oNewResouceRoots : Json.strmap)
           (sAppName : string) : Fs.M Json.strmap :=
  vAppPath <- Fs.lift (Json.get oResouceRoots sAppName) ;;
  sAppPath <- Fs.lift (as_path vAppPath) ;;
  let sResolvedAppPath :=
    resolve [cwd oHTMLFile; Path.dirname (path oHTMLFile); sAppPath] in
  aBufferList <- app_buffer_list sResolvedAppPath ;;
  let sNewHash := new_hash sAppPath aBufferList oOptions in
  (* compose new app path *)
  let sOriginDirectory := origin_directory sAppPath in
  r <- Fs.lift (RegExp (sOriginDirectory ++ "$")) ;;
  let sNewHashedAppPath := Regex.replace r sResolvedAppPath sNewHash in
  (* rename resource root folder *)
  Fs.renameSync sResolvedAppPath sNewHashedAppPath ;;;
  (* update resource roots *)
  Fs.ret (Json.set oNewResouceRoots sAppName sNewHash).

(** The pattern of the declaration, used with the [g] flag: the marker, a
    captured greedy run of any characters but line terminators, and [>]. *)
Definition declaration_pattern : Regex.regex :=
  Regex.Seq (Regex.lit "data-sap-ui-resourceroots=")
    (Regex.Seq (Regex.Group (Regex.Star Regex.Dot)) (Regex.Lit ">"%char)).

(** [ui5Bust(oHTMLFile, oOptions)] *)
Definition ui5Bust (oHTMLFile : Vinyl) (oOptions : option options) : Fs.M Vinyl :=
  oHashOptions <- Fs.lift (hash_options_of oOptions) ;;
  let oValidatedHashOptions := validate oHashOptions in
  let sHTMLContent := contents oHTMLFile in
  let sResourceRoots := extract "data-sap-ui-resourceroots=" sHTMLContent in
  oResouceRoots <- parse sResourceRoots ;;
  aAppNames <- Fs.lift (Json.keys oResouceRoots) ;;
  oNewResouceRoots <-
    reduce (bust_app oHTMLFile oValidatedHashOptions oResouceRoots) aAppNames [] ;;
  let sStringifiedResourceRoots := Json.stringify oNewResouceRoots in
  let sNewHTMLContent :=
    Regex.replace_all declaration_pattern sHTMLContent
      ("data-sap-ui-resourceroots='" ++ sStringifiedResourceRoots ++ "'>") in
  Fs.ret {| cwd := cwd oHTMLFile; path := path oHTMLFile; contents := sNewHTMLContent |}.

End Program.

(** A site of the earlier layout: an application beside the page, without
    a manifest. *)
Definition site : Fs.fs :=
  Fs.Dir [("proj",
           Fs.Dir [("index.html", Fs.File "<html/>");
                   ("demo", Fs.Dir [("Component-preload.js", Fs.File "B")])])].

Definition page_site : Vinyl :=
  Examples.page "<script data-sap-ui-resourceroots='{`demo.app`:`./demo`}'></script>".

(** The same application with a manifest without resources. *)
Definition site_with_manifest : Fs.fs :=
  Fs.Dir [("proj",
           Fs.Dir [("index.html", Fs.File "<html/>");
                   ("demo", Fs.Dir [("Component-preload.js", Fs.File "B");
                                    ("manifest.json",
                                     Fs.File (JS.dq "{`sap.ui5`:{}}"))])])].

End Legacy.

(* ===================================================================== *)
(** * Properties of the UTF-8 encoding *)
(* ===================================================================== *)

Section Utf8Facts.

Local Open Scope N_scope.
Local Open Scope list_scope.
Import Utf8.

Ltac arith := zify; Z.to_euclidean_division_equations; lia.

Lemma ltb_ge (a b : N) : b <= a -> (a <? b) = false.
Proof. apply N.ltb_ge. Qed.

Lemma ltb_lt (a b : N) : a < b -> (a <? b) = true.
Proof. apply N.ltb_lt. Qed.

Lemma between_in (lo hi b : N) : lo <= b -> b <= hi -> between lo hi b = true.
Proof.
  intros H1 H2. unfold between.
  now rewrite (proj2 (N.leb_le _ _) H1), (proj2 (N.leb_le _ _) H2).
Qed.

Lemma between_out (lo hi b : N) : b < lo \/ hi < b -> between lo hi b = false.
Proof.
  intros [H|H]; unfold between.
  - now rewrite (proj2 (N.leb_gt _ _) H).
  - rewrite (proj2 (N.leb_gt _ _) H). apply andb_false_r.
Qed.

Lemma second3_in (b0 b1 : N) :
  (b0 = 0xE0 -> 0xA0 <= b1) -> (b0 = 0xED -> b1 <= 0x9F) ->
  0x80 <= b1 -> b1 <= 0xBF -> second3 b0 b1 = true.
Proof.
  intros H1 H2 H3 H4. unfold second3.
  destruct (N.eqb_spec b0 0xE0), (N.eqb_spec b0 0xED); apply between_in; auto.
Qed.

Lemma second4_in (b0 b1 : N) :
  (b0 = 0xF0 -> 0x90 <= b1) -> (b0 = 0xF4 -> b1 <= 0x8F) ->
  0x80 <= b1 -> b1 <= 0xBF -> second4 b0 b1 = true.
Proof.
  intros H1 H2 H3 H4. unfold second4.
  destruct (N.eqb_spec b0 0xF0), (N.eqb_spec b0 0xF4); apply between_in; auto.
Qed.

(** Decoding the bytes of a code point gives the code point back. *)
Lemma code_points_bytes (cp : N) (r : list N) :
  scalar cp -> code_points (bytes cp ++ r) = cp :: code_points r.
Proof.
  intros Hs. unfold bytes.
  destruct (N.ltb_spec cp 0x80) as [H1|H1].
  { cbn [app code_points]. now rewrite (ltb_lt _ _ H1). }
  destruct (N.ltb_spec cp 0x800) as [H2|H2].
  { assert (Hq : 2 <= cp / 0x40 < 0x20) by arith.
    assert (Hm : cp mod 0x40 < 0x40) by arith.
    assert (He : cp = cp / 0x40 * 0x40 + cp mod 0x40) by arith.
    set (q := cp / 0x40) in *. set (m := cp mod 0x40) in *. clearbody q m.
    cbn [app code_points].
    rewrite (ltb_ge (0xC0 + q) 0x80) by lia.
    rewrite (between_in 0xC2 0xDF (0xC0 + q)) by lia.
    unfold cont. rewrite (between_in 0x80 0xBF (0x80 + m)) by lia.
    f_equal. lia. }
  destruct (N.ltb_spec cp 0x10000) as [H3|H3].
  { assert (Hq : cp / 0x1000 < 0x10) by arith.
    assert (Hm : (cp / 0x40) mod 0x40 < 0x40) by arith.
    assert (Hn : cp mod 0x40 < 0x40) by arith.
    assert (He : cp = cp / 0x1000 * 0x1000 + (cp / 0x40) mod 0x40 * 0x40 + cp mod 0x40)
      by arith.
    set (q := cp / 0x1000) in *. set (m := (cp / 0x40) mod 0x40) in *.
    set (n := cp mod 0x40) in *. clearbody q m n.
    cbn [app code_points].
    rewrite (ltb_ge (0xE0 + q) 0x80) by lia.
    rewrite (between_out 0xC2 0xDF (0xE0 + q)) by lia.
    rewrite (between_in 0xE0 0xEF (0xE0 + q)) by lia.
    rewrite (second3_in (0xE0 + q) (0x80 + m)) by (destruct Hs; lia).
    unfold cont. rewrite (between_in 0x80 0xBF (0x80 + n)) by lia.
    f_equal. lia. }
  assert (Hlt : cp < 0x110000) by (destruct Hs; lia).
  assert (Hq : cp / 0x40000 < 5) by arith.
  assert (Hm : (cp / 0x1000) mod 0x40 < 0x40) by arith.
  assert (Hn : (cp / 0x40) mod 0x40 < 0x40) by arith.
  assert (Hk : cp mod 0x40 < 0x40) by arith.
  assert (He : cp = cp / 0x40000 * 0x40000 + (cp / 0x1000) mod 0x40 * 0x1000
                    + (cp / 0x40) mod 0x40 * 0x40 + cp mod 0x40) by arith.
  set (q := cp / 0x40000) in *. set (m := (cp / 0x1000) mod 0x40) in *.
  set (n := (cp / 0x40) mod 0x40) in *. set (k := cp mod 0x40) in *.
  clearbody q m n k.
  cbn [app code_points].
  rewrite (ltb_ge (0xF0 + q) 0x80) by lia.
  rewrite (between_out 0xC2 0xDF (0xF0 + q)) by lia.
  rewrite (between_out 0xE0 0xEF (0xF0 + q)) by lia.
  rewrite (between_in 0xF0 0xF4 (0xF0 + q)) by lia.
  rewrite (second4_in (0xF0 + q) (0x80 + m)) by lia.
  unfold cont. rewrite (between_in 0x80 0xBF (0x80 + n)) by lia.
  rewrite (between_in 0x80 0xBF (0x80 + k)) by lia.
  f_equal. lia.
Qed.

Lemma between_inv (lo hi b : N) : between lo hi b = true -> lo <= b /\ b <= hi.
Proof.
  unfold between. intros H. apply andb_true_iff in H.
  destruct H as [H1 H2]. split; now apply N.leb_le.
Qed.

Lemma second3_inv (b0 b1 : N) :
  second3 b0 b1 = true ->
  0x80 <= b1 /\ b1 <= 0xBF /\ (b0 = 0xE0 -> 0xA0 <= b1) /\ (b0 = 0xED -> b1 <= 0x9F).
Proof.
  unfold second3. intros H. apply between_inv in H.
  destruct (N.eqb_spec b0 0xE0), (N.eqb_spec b0 0xED); lia.
Qed.

Lemma second4_inv (b0 b1 : N) :
  second4 b0 b1 = true ->
  0x80 <= b1 /\ b1 <= 0xBF /\ (b0 = 0xF0 -> 0x90 <= b1) /\ (b0 = 0xF4 -> b1 <= 0x8F).
Proof.
  unfold second4. intros H. apply between_inv in H.
  destruct (N.eqb_spec b0 0xF0), (N.eqb_spec b0 0xF4); lia.
Qed.

Lemma scalar_replacement : scalar replacement.
Proof. right. unfold replacement. lia. Qed.

(** The decoder yields scalar values only: never a surrogate, never a value
    past U+10FFFF. *)
Lemma code_points_scalar (bs : list N) : Forall scalar (code_points bs).
Proof.
  assert (H : forall n bs, (length bs <= n)%nat -> Forall scalar (code_points bs)).
  { clear bs. induction n as [|n IH]; intros bs Hn.
    - destruct bs; [constructor|simpl in Hn; lia].
    - destruct bs as [|b0 r0]; [constructor|]. simpl in Hn.
      assert (H0 : Forall scalar (code_points r0)) by (apply IH; lia).
      cbn [code_points].
      destruct (N.ltb_spec b0 0x80) as [Hb|Hb].
      { constructor; [left; lia|exact H0]. }
      destruct (between 0xC2 0xDF b0) eqn:E2.
      { apply between_inv in E2. destruct r0 as [|b1 r1].
        - constructor; [apply scalar_replacement|constructor].
        - destruct (cont b1) eqn:C1.
          + apply between_inv in C1. constructor; [left; lia|].
            apply IH. simpl in Hn |- *. lia.
          + constructor; [apply scalar_replacement|exact H0]. }
      destruct (between 0xE0 0xEF b0) eqn:E3.
      { apply between_inv in E3. destruct r0 as [|b1 r1].
        - constructor; [apply scalar_replacement|constructor].
        - destruct (second3 b0 b1) eqn:S3.
          + apply second3_inv in S3. destruct r1 as [|b2 r2].
            * constructor; [apply scalar_replacement|constructor].
            * destruct (cont b2) eqn:C2.
              -- apply between_inv in C2. constructor.
                 ++ unfold scalar.
                    destruct (N.eq_dec b0 0xE0), (N.eq_dec b0 0xED); lia.
                 ++ apply IH. simpl in Hn |- *. lia.
              -- constructor; [apply scalar_replacement|].
                 apply IH. simpl in Hn |- *. lia.
          + constructor; [apply scalar_replacement|exact H0]. }
      destruct (between 0xF0 0xF4 b0) eqn:E4.
      { apply between_inv in E4. destruct r0 as [|b1 r1].
        - constructor; [apply scalar_replacement|constructor].
        - destruct (second4 b0 b1) eqn:S4.
          + apply second4_inv in S4. destruct r1 as [|b2 r2].
            * constructor; [apply scalar_replacement|constructor].
            * destruct (cont b2) eqn:C2.
              -- apply between_inv in C2. destruct r2 as [|b3 r3].
                 ++ constructor; [apply scalar_replacement|constructor].
                 ++ destruct (cont b3) eqn:C3.
                    ** apply between_inv in C3. constructor.
                       --- unfold scalar.
                           destruct (N.eq_dec b0 0xF0), (N.eq_dec b0 0xF4); lia.
                       --- apply IH. simpl in Hn |- *. lia.
                    ** constructor; [apply scalar_replacement|].
                       apply IH. simpl in Hn |- *. lia.
              -- constructor; [apply scalar_replacement|].
                 apply IH. simpl in Hn |- *. lia.
          + constructor; [apply scalar_replacement|exact H0]. }
      constructor; [apply scalar_replacement|exact H0]. }
  exact (H (length bs) bs (le_n _)).
Qed.

(** Pairing the code units of a code point gives the code point back. *)
Lemma scalars_units (cp : N) (t : Text.text) :
  scalar cp -> scalars (units cp ++ t) = cp :: scalars t.
Proof.
  intros Hs. unfold units.
  destruct (N.ltb_spec cp 0x10000) as [H|H].
  - cbn [app scalars]. unfold high, low.
    destruct Hs as [Hs|Hs].
    + rewrite (between_out 0xD800 0xDBFF cp) by lia.
      now rewrite (between_out 0xDC00 0xDFFF cp) by lia.
    + rewrite (between_out 0xD800 0xDBFF cp) by lia.
      now rewrite (between_out 0xDC00 0xDFFF cp) by lia.
  - assert (Hlt : cp < 0x110000) by (destruct Hs; lia).
    assert (Hq : (cp - 0x10000) / 0x400 < 0x400) by arith.
    assert (Hm : (cp - 0x10000) mod 0x400 < 0x400) by arith.
    assert (He : cp = 0x10000 + (cp - 0x10000) / 0x400 * 0x400 + (cp - 0x10000) mod 0x400)
      by arith.
    set (q := (cp - 0x10000) / 0x400) in *. set (m := (cp - 0x10000) mod 0x400) in *.
    clearbody q m. cbn [app scalars]. unfold high, low.
    rewrite (between_in 0xD800 0xDBFF (0xD800 + q)) by lia.
    rewrite (between_in 0xDC00 0xDFFF (0xDC00 + m)) by lia.
    f_equal. lia.
Qed.

Lemma scalars_of_units (cps : list N) :
  Forall scalar cps -> scalars (flat_map units cps) = cps.
Proof.
  induction 1 as [|cp cps Hcp _ IH]; [reflexivity|].
  cbn [flat_map]. now rewrite (scalars_units cp _ Hcp), IH.
Qed.

Lemma code_points_of_bytes (cps : list N) :
  Forall scalar cps -> code_points (flat_map bytes cps) = cps.
Proof.
  induction 1 as [|cp cps Hcp _ IH]; [reflexivity|].
  cbn [flat_map]. now rewrite (code_points_bytes cp _ Hcp), IH.
Qed.

Lemma bytes_small (cp : N) : scalar cp -> Forall (fun b => b < 256) (bytes cp).
Proof.
  intros Hs. assert (Hlt : cp < 0x110000) by (destruct Hs; lia). unfold bytes.
  destruct (N.ltb_spec cp 0x80); [repeat constructor; lia|].
  destruct (N.ltb_spec cp 0x800); [repeat constructor; arith|].
  destruct (N.ltb_spec cp 0x10000); repeat constructor; arith.
Qed.

Lemma bytes_of_of_bytes (l : list N) :
  Forall (fun b => b < 256) l -> bytes_of (of_bytes l) = l.
Proof.
  intros H. unfold bytes_of, of_bytes. rewrite list_ascii_of_string_of_list_ascii.
  induction H as [|b l Hb _ IH]; [reflexivity|].
  cbn [map]. now rewrite (N_ascii_embedding b Hb), IH.
Qed.

Lemma decode_well_formed (b : string) : well_formed (decode b).
Proof. exists (code_points (bytes_of b)). split; [apply code_points_scalar|reflexivity]. Qed.

(** Encoding a well-formed string and decoding the bytes gives the string
    back. *)
Lemma decode_encode (t : Text.text) : well_formed t -> decode (encode t) = t.
Proof.
  intros (cps & Hcps & ->). unfold decode, encode.
  rewrite (scalars_of_units cps Hcps). rewrite bytes_of_of_bytes.
  - now rewrite (code_points_of_bytes cps Hcps).
  - clear -Hcps. induction Hcps as [|cp cps Hcp _ IH]; [constructor|].
    cbn [flat_map]. apply Forall_app. split; [now apply bytes_small|exact IH].
Qed.

End Utf8Facts.

(* ===================================================================== *)
(** * Properties of the string order *)
(* ===================================================================== *)

Section TextFacts.

Local Open Scope N_scope.

Lemma text_leb_refl (x : Text.text) : Text.leb x x = true.
Proof.
  induction x as [|u x IH]; [reflexivity|].
  cbn [Text.leb]. now rewrite N.ltb_irrefl.
Qed.

Lemma text_leb_trans (x y z : Text.text) :
  Text.leb x y = true -> Text.leb y z = true -> Text.leb x z = true.
Proof.
  revert y z. induction x as [|u x IH]; intros [|v y] [|w z]; cbn [Text.leb];
    try congruence.
  destruct (N.ltb_spec u v) as [Huv|Huv].
  - intros _. destruct (N.ltb_spec v w) as [Hvw|Hvw].
    + intros _. destruct (N.ltb_spec u w); [reflexivity|lia].
    + destruct (N.ltb_spec w v); [discriminate|].
      intros _. destruct (N.ltb_spec u w); [reflexivity|lia].
  - destruct (N.ltb_spec v u); [discriminate|].
    assert (u = v) by lia. subst v. intros Hxy.
    destruct (N.ltb_spec u w); [reflexivity|].
    destruct (N.ltb_spec w u); [discriminate|]. now apply IH.
Qed.

Lemma text_leb_total (x y : Text.text) : Text.leb x y = true \/ Text.leb y x = true.
Proof.
  revert y. induction x as [|u x IH]; intros [|v y]; cbn [Text.leb]; auto.
  destruct (N.ltb_spec u v); [now left|].
  destruct (N.ltb_spec v u); [now right|]. apply IH.
Qed.

Lemma text_leb_antisym (x y : Text.text) :
  Text.leb x y = true -> Text.leb y x = true -> x = y.
Proof.
  revert y. induction x as [|u x IH]; intros [|v y]; cbn [Text.leb];
    try congruence.
  destruct (N.ltb_spec u v) as [Huv|Huv].
  - intros _. destruct (N.ltb_spec v u); [lia|discriminate].
  - destruct (N.ltb_spec v u); [discriminate|].
    assert (u = v) by lia. subst v. intros H1 H2. f_equal. now apply IH.
Qed.

(** The comparison function decides the order of strings. *)
Lemma text_leb_le (x y : Text.text) : Text.leb x y = true <-> text_le x y.
Proof.
  split.
  - revert y. induction x as [|u x IH]; intros [|v y]; cbn [Text.leb].
    + now left.
    + right. constructor.
    + discriminate.
    + destruct (N.ltb_spec u v) as [Huv|Huv].
      * right. now constructor.
      * destruct (N.ltb_spec v u); [discriminate|].
        assert (u = v) by lia. subst v. intros Hle.
        destruct (IH y Hle) as [->|Hlt]; [now left|right; now constructor].
  - intros [->|Hlt]; [apply text_leb_refl|].
    induction Hlt as [u y|u v x y Huv|u x y _ IH]; cbn [Text.leb].
    + reflexivity.
    + now rewrite (proj2 (N.ltb_lt _ _) Huv).
    + now rewrite N.ltb_irrefl.
Qed.

End TextFacts.

(* ===================================================================== *)
(** * Properties of the sort *)
(* ===================================================================== *)

Section SortFacts.

Lemma sort_leb_trans (x y z : buffer) :
  sort_leb x y = true -> sort_leb y z = true -> sort_leb x z = true.
Proof. apply text_leb_trans. Qed.

Lemma sort_leb_total (x y : buffer) : sort_leb x y = true \/ sort_leb y x = true.
Proof. apply text_leb_total. Qed.

(** Two buffers that compare equal decode to the same string; they need
    not be the same buffer. *)
Lemma sort_leb_antisym (x y : buffer) :
  sort_leb x y = true -> sort_leb y x = true ->
  Buffer_toString x = Buffer_toString y.
Proof. apply text_leb_antisym. Qed.

Lemma sort_leb_false (x y : buffer) : sort_leb x y = false -> sort_leb y x = true.
Proof.
  intros H. destruct (sort_leb_total x y) as [H'|H']; [congruence|exact H'].
Qed.

(** Two insertions commute when the two buffers are the same or decode to
    different strings. *)
Lemma sort_insert_comm (x y : buffer) (l : list buffer) :
  (Buffer_toString x = Buffer_toString y -> x = y) ->
  sort_insert x (sort_insert y l) = sort_insert y (sort_insert x l).
Proof.
  intros Hxy'.
  assert (Hanti : sort_leb x y = true -> sort_leb y x = true -> x = y).
  { intros H1 H2. apply Hxy'. now apply sort_leb_antisym. }
  induction l as [|z l IH]; simpl.
  - destruct (sort_leb x y) eqn:Hxy, (sort_leb y x) eqn:Hyx; try reflexivity.
    + rewrite (Hanti eq_refl eq_refl). reflexivity.
    + apply sort_leb_false in Hxy. congruence.
  - destruct (sort_leb y z) eqn:Hyz, (sort_leb x z) eqn:Hxz; simpl;
      destruct (sort_leb x y) eqn:Hxy, (sort_leb y x) eqn:Hyx;
      rewrite ?Hyz, ?Hxz; try reflexivity;
      try (rewrite (Hanti eq_refl eq_refl); reflexivity);
      try (apply sort_leb_false in Hxy; congruence);
      try (rewrite IH; reflexivity).
    + rewrite (sort_leb_trans _ _ _ Hxy Hyz) in Hxz. discriminate.
    + rewrite (sort_leb_trans _ _ _ Hxy Hyz) in Hxz. discriminate.
    + rewrite (sort_leb_trans _ _ _ Hyx Hxz) in Hyz. discriminate.
    + rewrite (sort_leb_trans _ _ _ Hyx Hxz) in Hyz. discriminate.
Qed.

Lemma told_apart_perm (l1 l2 : list buffer) :
  Permutation l1 l2 -> told_apart l1 -> told_apart l2.
Proof.
  intros Hp H x y Hx Hy. apply H; eapply Permutation_in; try eassumption;
    now apply Permutation_sym.
Qed.

(** The sorted list depends on the multiset of the elements only, when the
    elements are told apart by their strings. *)
Lemma Array_sort_permutation (l1 l2 : list buffer) :
  Permutation l1 l2 -> told_apart l1 -> Array_sort l1 = Array_sort l2.
Proof.
  induction 1 as [|x l l' _ IH|x y l|l l' l'' Hp1 IH1 _ IH2]; simpl; intros Ht.
  - reflexivity.
  - rewrite IH; [reflexivity|].
    intros a b Ha Hb. apply Ht; now right.
  - apply sort_insert_comm. intros H. apply Ht; [now left|right; now left|exact H].
  - rewrite IH1 by exact Ht. apply IH2. exact (told_apart_perm _ _ Hp1 Ht).
Qed.

Lemma sort_insert_perm (x : buffer) (l : list buffer) :
  Permutation (x :: l) (sort_insert x l).
Proof.
  induction l as [|y l IH]; simpl.
  - apply Permutation_refl.
  - destruct (sort_leb x y).
    + apply Permutation_refl.
    + eapply Permutation_trans; [apply perm_swap|]. now apply perm_skip.
Qed.

Lemma Array_sort_perm (l : list buffer) : Permutation l (Array_sort l).
Proof.
  induction l as [|x l IH]; simpl.
  - constructor.
  - eapply Permutation_trans; [apply perm_skip, IH|apply sort_insert_perm].
Qed.

Lemma sort_insert_sorted (x : buffer) (l : list buffer) :
  StronglySorted (fun a b => sort_leb a b = true) l ->
  StronglySorted (fun a b => sort_leb a b = true) (sort_insert x l).
Proof.
  induction 1 as [|y l Hs IH Hy]; simpl.
  - constructor; constructor.
  - destruct (sort_leb x y) eqn:Hxy.
    + constructor.
      * now constructor.
      * constructor; [exact Hxy|].
        eapply Forall_impl; [|exact Hy].
        intros z Hz. eapply sort_leb_trans; eassumption.
    + constructor; [exact IH|].
      apply (Permutation_Forall (sort_insert_perm x l)).
      constructor; [now apply sort_leb_false|exact Hy].
Qed.

Lemma Array_sort_sorted (l : list buffer) :
  StronglySorted (fun a b => sort_leb a b = true) (Array_sort l).
Proof.
  induction l as [|x l IH]; simpl.
  - constructor.
  - now apply sort_insert_sorted.
Qed.

Lemma Array_sort_length (l : list buffer) :
  List.length (Array_sort l) = List.length l.
Proof. symmetry. apply Permutation_length, Array_sort_perm. Qed.

(** The buffers made from strings without lone surrogates are told apart
    by their strings. *)
Lemma text_buffers_told_apart (ts : list Text.text) :
  Forall Utf8.well_formed ts -> told_apart (map Buffer_from ts).
Proof.
  intros Hwf x y Hx Hy Heq.
  apply in_map_iff in Hx. destruct Hx as (t & <- & Ht).
  apply in_map_iff in Hy. destruct Hy as (u & <- & Hu).
  rewrite Forall_forall in Hwf. unfold Buffer_toString, Buffer_from in Heq.
  rewrite (decode_encode t (Hwf t Ht)), (decode_encode u (Hwf u Hu)) in Heq.
  now subst u.
Qed.

End SortFacts.

(* ===================================================================== *)
(** * The content hasher *)
(* ===================================================================== *)

Section Hasher.

Context {P : Platform}.

Lemma createHash_cons (x : buffer) (l : list buffer) (o : validated_options) :
  _createHash (Some (x :: l)) o =
  Some (JS.toLowerCase
          (getHashDigest (Buffer_concat (Array_sort (x :: l)))
             (HASH_TYPE o) (DIGEST_TYPE o) (MAX_LENGTH o))).
Proof.
  unfold _createHash. rewrite Array_sort_length. reflexivity.
Qed.

(** On buffers told apart by their strings the token does not depend on
    the order of the collection. *)
Lemma createHash_told_apart (l1 l2 : list buffer) (o : validated_options) :
  Permutation l1 l2 -> told_apart l1 ->
  _createHash (Some l1) o = _createHash (Some l2) o.
Proof.
  intros Hp Ht. unfold _createHash.
  rewrite (Array_sort_permutation l1 l2 Hp Ht). reflexivity.
Qed.

Lemma list_ascii_of_append (a b : string) :
  list_ascii_of_string (a ++ b)
  = (list_ascii_of_string a ++ list_ascii_of_string b)%list.
Proof. induction a as [|c a IH]; [reflexivity|]. cbn. now rewrite IH. Qed.

(** The concatenation holds the bytes of the buffers, one buffer after the
    other. *)
Lemma Buffer_concat_bytes (l : list buffer) :
  list_ascii_of_string (Buffer_concat l) = bytes_in_order l.
Proof.
  unfold Buffer_concat, bytes_in_order.
  induction l as [|x l IH]; [reflexivity|].
  destruct l as [|y l].
  - cbn. now rewrite app_nil_r.
  - change (String.concat "" (x :: y :: l)) with (x ++ "" ++ String.concat "" (y :: l)).
    rewrite list_ascii_of_append. cbn [append].
    change (list_ascii_of_string (String.concat "" (y :: l)))
      with (list_ascii_of_string (String.concat "" (y :: l))).
    rewrite IH. reflexivity.
Qed.

Lemma lower_char_lowered (c : ascii) : lowered c (JS.lower_char c).
Proof.
  unfold lowered, JS.lower_char. cbv zeta.
  pose proof (nat_ascii_bounded c) as Hb.
  set (n := nat_of_ascii c) in *.
  destruct (Nat.leb_spec 65 n), (Nat.leb_spec n 90), (Nat.leb_spec 192 n),
    (Nat.leb_spec n 222), (Nat.eqb_spec n 215);
    cbn [andb orb negb]; try lia; try reflexivity;
    rewrite nat_ascii_embedding; lia.
Qed.

Lemma toLowerCase_lowered (t : string) :
  Forall2 lowered (list_ascii_of_string t) (list_ascii_of_string (JS.toLowerCase t)).
Proof.
  induction t as [|c t IH]; cbn; constructor; [apply lower_char_lowered|exact IH].
Qed.

Lemma sorted_by_text (l : list buffer) :
  StronglySorted (fun a b => text_le (Utf8.decode a) (Utf8.decode b)) (Array_sort l).
Proof.
  pose proof (Array_sort_sorted l) as H.
  induction H as [|x l' Hs IH Hx]; constructor; [exact IH|].
  eapply Forall_impl; [|exact Hx]. intros y Hy. now apply text_leb_le.
Qed.

(** C9 (amended).  [_createHash] returns [null] exactly on the empty
    collection (an omitted collection counts as empty); on a non-empty
    collection it returns the lower-cased digest, cut to [MAX_LENGTH] by the
    digest primitive, of the bytes of the buffers one after the other, the
    buffers arranged in ascending order of their UTF-8-decoded strings,
    compared code unit by code unit. *)
Theorem createHash_null_iff_empty (o : validated_options) :
  _createHash None o = None
  /\ (forall l, _createHash (Some l) o = None <-> l = [])
  /\ (forall x l, exists lSorted d t,
        Permutation (x :: l) lSorted
        /\ StronglySorted (fun a b => text_le (Utf8.decode a) (Utf8.decode b)) lSorted
        /\ list_ascii_of_string d = bytes_in_order lSorted
        /\ _createHash (Some (x :: l)) o = Some t
        /\ Forall2 lowered
             (list_ascii_of_string
                (getHashDigest d (HASH_TYPE o) (DIGEST_TYPE o) (MAX_LENGTH o)))
             (list_ascii_of_string t)).
Proof.
  split; [reflexivity|]. split.
  - intros [|x l].
    + split; reflexivity.
    + rewrite createHash_cons. split; discriminate.
  - intros x l.
    exists (Array_sort (x :: l)), (Buffer_concat (Array_sort (x :: l))).
    eexists. split; [apply Array_sort_perm|].
    split; [apply sorted_by_text|].
    split; [apply Buffer_concat_bytes|].
    split; [apply createHash_cons|apply toLowerCase_lowered].
Qed.

End Hasher.

(* ===================================================================== *)
(** * Strings and patterns *)
(* ===================================================================== *)

Section StringFacts.

Lemma append_nil_r (s : string) : s ++ "" = s.
Proof. induction s as [|c s IH]; simpl; [reflexivity|now rewrite IH]. Qed.

Lemma append_assoc (s t u : string) : (s ++ t) ++ u = s ++ t ++ u.
Proof. induction s as [|c s IH]; simpl; [reflexivity|now rewrite IH]. Qed.

Lemma length_append (s t : string) :
  String.length (s ++ t) = (String.length s + String.length t)%nat.
Proof. induction s as [|c s IH]; simpl; [reflexivity|now rewrite IH]. Qed.

Lemma take_length (s : string) : JS.take (String.length s) s = s.
Proof. induction s as [|c s IH]; simpl; [reflexivity|now rewrite IH]. Qed.

Lemma take_append (s t : string) : JS.take (String.length s) (s ++ t) = s.
Proof. induction s as [|c s IH]; simpl; [now destruct t|now rewrite IH]. Qed.

Lemma drop_append (s t : string) : JS.drop (String.length s) (s ++ t) = t.
Proof. induction s as [|c s IH]; simpl; [reflexivity|exact IH]. Qed.

Lemma drop_length (s : string) : JS.drop (String.length s) s = "".
Proof. rewrite <- (append_nil_r s) at 2. apply drop_append. Qed.

Lemma split_nonempty (c : ascii) (s : string) : JS.split c s <> [].
Proof.
  destruct s as [|a s]; simpl; [discriminate|].
  destruct (Ascii.eqb a c); [discriminate|].
  destruct (JS.split c s); discriminate.
Qed.

(** Joining the pieces of a split gives the string back. *)
Lemma join_split (c : ascii) (s : string) :
  JS.join (String c "") (JS.split c s) = s.
Proof.
  unfold JS.join. induction s as [|a s IH]; [reflexivity|].
  simpl JS.split. destruct (Ascii.eqb_spec a c) as [->|Hne].
  - pose proof (split_nonempty c s) as Hn.
    destruct (JS.split c s) as [|y ys]; [contradiction|].
    change (String.concat (String c "") ("" :: y :: ys))
      with ("" ++ String c "" ++ String.concat (String c "") (y :: ys)).
    rewrite IH. reflexivity.
  - pose proof (split_nonempty c s) as Hn.
    destruct (JS.split c s) as [|y ys]; [contradiction|].
    destruct ys as [|z zs].
    + simpl in *. now rewrite IH.
    + change (String.concat (String c "") (String a y :: z :: zs))
        with (String a (y ++ String c "" ++ String.concat (String c "") (z :: zs))).
      change (String.concat (String c "") (y :: z :: zs))
        with (y ++ String c "" ++ String.concat (String c "") (z :: zs)) in IH.
      now rewrite IH.
Qed.

Lemma concat_last (sep : string) (l : list string) (d : string) :
  JS.lastOf l = Some d -> exists a, String.concat sep l = a ++ d.
Proof.
  induction l as [|x l IH]; [discriminate|].
  destruct l as [|y l].
  - intros [= ->]. exists "". reflexivity.
  - intros H. destruct (IH H) as [a Ha]. exists (x ++ sep ++ a).
    change (String.concat sep (x :: y :: l)) with (x ++ sep ++ String.concat sep (y :: l)).
    rewrite Ha. now rewrite !append_assoc.
Qed.

(** A path ends with its last segment. *)
Lemma origin_directory_suffix (sPath : string) :
  exists a, sPath = a ++ origin_directory sPath.
Proof.
  unfold origin_directory.
  destruct (JS.lastOf (JS.split "/" sPath)) as [d|] eqn:Hd.
  - destruct (concat_last "/" _ d Hd) as [a Ha]. exists a.
    rewrite <- Ha. symmetry. apply (join_split "/"%char).
  - exfalso. pose proof (split_nonempty "/"%char sPath) as Hn.
    destruct (JS.split "/" sPath) as [|x l]; [contradiction|].
    clear Hn. revert x Hd. induction l as [|y l IH]; intros x Hd; [discriminate|].
    apply (IH y). exact Hd.
Qed.

Lemma dollar_is_syntax (c : ascii) :
  Ascii.eqb c "$"%char = true -> Regex.is_syntax_char c = true.
Proof. intros H. apply Ascii.eqb_eq in H. subst. reflexivity. Qed.

Lemma dot_is_syntax (c : ascii) :
  Ascii.eqb c "."%char = true -> Regex.is_syntax_char c = true.
Proof. intros H. apply Ascii.eqb_eq in H. subst. reflexivity. Qed.

Lemma compile_suffix_pattern (sName : string) :
  plain_name sName = true ->
  Regex.compile (sName ++ "$") = Some (suffix_pattern sName).
Proof.
  induction sName as [|c sName IH]; simpl; [reflexivity|].
  intros H. apply andb_true_iff in H. destruct H as [Hc Hs].
  rewrite (IH Hs). destruct (Ascii.eqb c ".") eqn:Hdot; [reflexivity|].
  simpl in Hc. apply negb_true_iff in Hc. rewrite Hc.
  destruct (Ascii.eqb c "$") eqn:Hd; [|reflexivity].
  apply dollar_is_syntax in Hd. congruence.
Qed.

Lemma dot_not_terminator (c : ascii) :
  Ascii.eqb c "."%char = true -> Regex.is_line_terminator c = false.
Proof. intros H. apply Ascii.eqb_eq in H. subst. reflexivity. Qed.

(** The pattern of a name matches the name itself, up to the end. *)
Lemma rmatch_suffix_self {X : Type} (sName : string) (cap : option string)
      (k : string -> option string -> option X) :
  Regex.rmatch (suffix_pattern sName) sName cap k = k "" cap.
Proof.
  induction sName as [|c sName IH]; simpl; [reflexivity|].
  destruct (Ascii.eqb c ".") eqn:Hdot; simpl.
  - rewrite (dot_not_terminator c Hdot). apply IH.
  - rewrite Ascii.eqb_refl. apply IH.
Qed.

(** It matches no string of another length. *)
Lemma rmatch_suffix_length {X : Type} (sName s : string) (cap : option string)
      (k : string -> option string -> option X) :
  String.length s <> String.length sName ->
  Regex.rmatch (suffix_pattern sName) s cap k = None.
Proof.
  revert s. induction sName as [|c sName IH]; intros s Hlen; simpl.
  - destruct s; [contradiction|reflexivity].
  - destruct s as [|c' s]; simpl in Hlen.
    + destruct (Ascii.eqb c "."); reflexivity.
    + assert (Hlen' : String.length s <> String.length sName) by congruence.
      destruct (Ascii.eqb c "."); simpl.
      * destruct (Regex.is_line_terminator c'); [reflexivity|now apply IH].
      * destruct (Ascii.eqb c c'); [now apply IH|reflexivity].
Qed.

Lemma search_unfold (r : Regex.regex) (pre s : string) :
  Regex.search r pre s =
  match Regex.match_here r s with
  | Some (m, cap) => Some (Regex.mkFound pre m cap (JS.drop (String.length m) s))
  | None =>
      match s with
      | EmptyString => None
      | String c s' => Regex.search r (pre ++ String c EmptyString) s'
      end
  end.
Proof. destruct s; reflexivity. Qed.

(** The only match of the pattern in a string that ends with the name is
    the name at the end. *)
Lemma search_suffix (sName a pre : string) :
  Regex.search (suffix_pattern sName) pre (a ++ sName)
  = Some (Regex.mkFound (pre ++ a) sName None "").
Proof.
  revert pre. induction a as [|c a IH]; intros pre.
  - simpl append. rewrite search_unfold.
    assert (Hm : Regex.match_here (suffix_pattern sName) sName = Some (sName, None)).
    { unfold Regex.match_here. rewrite rmatch_suffix_self.
      unfold Regex.consumed. simpl String.length. rewrite Nat.sub_0_r.
      now rewrite take_length. }
    rewrite Hm, append_nil_r, drop_length. reflexivity.
  - simpl append. rewrite search_unfold.
    assert (Hm : Regex.match_here (suffix_pattern sName) (String c (a ++ sName)) = None).
    { unfold Regex.match_here. apply rmatch_suffix_length.
      simpl. rewrite length_append. lia. }
    rewrite Hm. rewrite IH. now rewrite append_assoc.
Qed.

(** A replacement string without [$] stands for itself. *)
Lemma expand_dollar_free (m : nat) (b mt a : string) (g : option string) (t : string) :
  dollar_free t = true -> Regex.expand m b mt a g t = t.
Proof.
  induction t as [|c t IH]; simpl; [reflexivity|].
  intros H. apply andb_true_iff in H. destruct H as [Hc Ht].
  apply negb_true_iff in Hc. rewrite Hc. now rewrite (IH Ht).
Qed.

Lemma dollar_free_append (s t : string) :
  dollar_free (s ++ t) = (dollar_free s && dollar_free t)%bool.
Proof.
  induction s as [|c s IH]; simpl; [reflexivity|].
  rewrite IH. now rewrite andb_assoc.
Qed.

Lemma plain_name_dollar_free (sName : string) :
  plain_name sName = true -> dollar_free sName = true.
Proof.
  induction sName as [|c sName IH]; simpl; [reflexivity|].
  intros H. apply andb_true_iff in H. destruct H as [Hc Hs].
  rewrite (IH Hs), andb_true_r. apply negb_true_iff.
  destruct (Ascii.eqb c "$") eqn:Hd; [|reflexivity].
  pose proof (dollar_is_syntax c Hd) as Hsyn. rewrite Hsyn in Hc. simpl in Hc.
  rewrite orb_false_r in Hc. apply Ascii.eqb_eq in Hc, Hd. congruence.
Qed.

(** Replacing [sName$] in a string that ends with [sName]. *)
Lemma replace_suffix (sName a t : string) :
  dollar_free t = true ->
  Regex.replace (suffix_pattern sName) (a ++ sName) t = a ++ t.
Proof.
  intros Ht. unfold Regex.replace. rewrite (search_suffix sName a "").
  simpl. rewrite (expand_dollar_free _ _ _ _ _ _ Ht). now rewrite append_nil_r.
Qed.

End StringFacts.

(* ===================================================================== *)
(** * Resolved paths *)
(* ===================================================================== *)

Section PathFacts.

Lemma split_cons_sep (c : ascii) (s : string) :
  JS.split c (String c s) = "" :: JS.split c s.
Proof. cbn [JS.split]. now rewrite Ascii.eqb_refl. Qed.

(** Splitting at a separator splits the two sides. *)
Lemma split_append_sep (c : ascii) (u v : string) :
  JS.split c (u ++ String c v) = (JS.split c u ++ JS.split c v)%list.
Proof.
  induction u as [|a u IH].
  - cbn [append]. rewrite split_cons_sep. reflexivity.
  - cbn [append JS.split]. rewrite IH.
    destruct (Ascii.eqb a c); [reflexivity|].
    pose proof (split_nonempty c u) as Hn.
    destruct (JS.split c u) as [|x xs]; [contradiction|reflexivity].
Qed.

Lemma lastOf_app (l : list string) (d : string) : JS.lastOf (l ++ [d]) = Some d.
Proof.
  induction l as [|x l IH]; [reflexivity|].
  destruct l as [|y l]; [reflexivity|exact IH].
Qed.

Lemma lastOf_split (l : list string) (d : string) :
  JS.lastOf l = Some d -> exists l', l = (l' ++ [d])%list.
Proof.
  induction l as [|x l IH]; [discriminate|].
  destruct l as [|y l].
  - intros [= ->]. now exists [].
  - intros H. destruct (IH H) as [l' Hl']. exists (x :: l'). now rewrite Hl'.
Qed.

(** A proper name at the end of the segments stays at the end; an empty
    segment after it is dropped. *)
Lemma normalize_segments_last (l acc : list string) (d : string) :
  proper_name d = true ->
  Path.normalize_segments (l ++ [d; ""]) acc
  = (Path.normalize_segments l acc ++ [d])%list.
Proof.
  intros Hd. unfold proper_name in Hd. apply negb_true_iff in Hd.
  apply orb_false_iff in Hd. destruct Hd as [Hd Hdd].
  apply orb_false_iff in Hd. destruct Hd as [He Hdot].
  revert acc. induction l as [|x l IH]; intros acc.
  - cbn [app Path.normalize_segments]. rewrite He, Hdot, Hdd. cbn [orb].
    cbn [String.eqb]. reflexivity.
  - cbn [app Path.normalize_segments].
    destruct (String.eqb x "" || String.eqb x ".")%bool; [apply IH|].
    destruct (String.eqb x ".."); apply IH.
Qed.

(** The scan puts its result in front of what it was given; what it puts
    there is empty or ends with a separator. *)
Lemma scan_prefix (l : list string) (acc : string) :
  exists y b, Path.scan l acc = (y ++ acc, b)
              /\ (y = "" \/ exists y', y = y' ++ "/").
Proof.
  revert acc. induction l as [|p l IH]; intros acc.
  - exists "", false. split; [reflexivity|now left].
  - cbn [Path.scan]. destruct (String.eqb p ""); [apply IH|].
    destruct (Path.isAbsolute p).
    + exists (p ++ "/"), true. split; [now rewrite append_assoc|right; now exists p].
    + destruct (IH (p ++ "/" ++ acc)) as (y & b & Hy & Hy').
      exists (y ++ p ++ "/"), b. split.
      * rewrite Hy. now rewrite !append_assoc.
      * right. exists (y ++ p). now rewrite append_assoc.
Qed.

(** A path resolved against directories ends with its last segment when
    that segment is a proper name. *)
Lemma resolve_suffix (sCwd : string) (dirs : list string) (sPath : string) :
  proper_name (origin_directory sPath) = true ->
  exists a, Path.resolve sCwd (dirs ++ [sPath]) = a ++ origin_directory sPath.
Proof.
  intros Hd. unfold Path.resolve. rewrite rev_app_distr. cbn [rev app].
  assert (Hne : String.eqb sPath "" = false).
  { destruct sPath; [|reflexivity]. discriminate. }
  assert (Hz : exists z b, Path.scan (sPath :: rev dirs) "" = (z ++ sPath ++ "/", b)
                           /\ (z = "" \/ exists z', z = z' ++ "/")).
  { cbn [Path.scan]. rewrite Hne. destruct (Path.isAbsolute sPath).
    - exists "", true. split; [reflexivity|now left].
    - destruct (scan_prefix (rev dirs) (sPath ++ "/" ++ "")) as (y & b & Hy & Hy').
      exists y, b. split; [exact Hy|exact Hy']. }
  destruct Hz as (z & b & Hscan & Hz). rewrite Hscan.
  assert (Hw : exists w, (w = "" \/ exists w', w = w' ++ "/")
                         /\ (if b then z ++ sPath ++ "/"
                             else sCwd ++ "/" ++ z ++ sPath ++ "/")
                            = w ++ sPath ++ "/").
  { destruct b.
    - exists z. now split.
    - exists (sCwd ++ "/" ++ z). split; [|now rewrite !append_assoc].
      right. destruct Hz as [->|[z' ->]].
      + exists sCwd. now rewrite append_nil_r.
      + exists (sCwd ++ "/" ++ z'). now rewrite !append_assoc. }
  destruct Hw as (w & Hw & ->).
  unfold origin_directory in *.
  destruct (JS.lastOf (JS.split "/" sPath)) as [d|] eqn:Hlast.
  2:{ exfalso. pose proof (split_nonempty "/"%char sPath) as Hn.
      destruct (JS.split "/" sPath) as [|x l]; [contradiction|].
      clear - Hlast. revert x Hlast.
      induction l as [|y l IH]; intros x H; [discriminate|]. apply (IH y H). }
  destruct (lastOf_split _ _ Hlast) as [l' Hl'].
  assert (Hsplit : exists l0, JS.split "/" (w ++ sPath ++ "/") = (l0 ++ [d; ""])%list).
  { change (sPath ++ "/") with (sPath ++ String "/"%char "").
    destruct Hw as [->|[w' ->]].
    - cbn [append]. rewrite split_append_sep, Hl'. exists l'.
      cbn [JS.split]. now rewrite <- app_assoc.
    - rewrite append_assoc. change ("/" ++ sPath ++ String "/"%char "")
        with (String "/"%char (sPath ++ String "/"%char "")).
      rewrite split_append_sep, split_append_sep, Hl'.
      exists (JS.split "/" w' ++ l')%list. cbn [JS.split].
      now rewrite <- !app_assoc. }
  destruct Hsplit as [l0 Hl0]. unfold Path.segments. rewrite Hl0.
  rewrite (normalize_segments_last l0 [] d Hd).
  unfold Path.of_segments, JS.join.
  destruct (concat_last "/" (Path.normalize_segments l0 [] ++ [d]) d (lastOf_app _ d))
    as [a Ha].
  exists ("/" ++ a). rewrite Ha. now rewrite append_assoc.
Qed.

Lemma split_slash_free (t : string) :
  slash_free t = true -> JS.split "/" t = [t].
Proof.
  induction t as [|c t IH]; [reflexivity|].
  cbn [slash_free]. intros H. apply andb_true_iff in H. destruct H as [Hc Ht].
  apply negb_true_iff in Hc. cbn [JS.split]. rewrite Hc, (IH Ht). reflexivity.
Qed.

End PathFacts.

(* ===================================================================== *)
(** * Resolved paths *)
(* ===================================================================== *)

Section ResolvedPaths.

(** The pieces of a split hold no separator. *)
Lemma split_pieces (t : string) :
  Forall (fun x => slash_free x = true) (JS.split "/" t).
Proof.
  induction t as [|c t IH]; [repeat constructor|].
  cbn [JS.split]. destruct (Ascii.eqb c "/") eqn:Hc.
  - constructor; [reflexivity|exact IH].
  - destruct (JS.split "/" t) as [|x xs]; [repeat constructor; cbn; now rewrite Hc|].
    inversion IH as [|? ? Hx Hxs]; subst. constructor; [|exact Hxs].
    cbn [slash_free]. now rewrite Hc, Hx.
Qed.

Lemma normalize_segments_names (l acc : list string) :
  Forall (fun x => slash_free x = true) l ->
  Forall (fun x => segment_name x = true) acc ->
  Forall (fun x => segment_name x = true) (Path.normalize_segments l acc).
Proof.
  intros Hl. revert acc. induction Hl as [|x l Hx _ IH]; intros acc Hacc.
  - cbn [Path.normalize_segments]. now apply Forall_rev.
  - cbn [Path.normalize_segments].
    destruct (String.eqb x "" || String.eqb x ".")%bool eqn:H1; [now apply IH|].
    destruct (String.eqb x "..") eqn:H2.
    + apply IH. destruct acc as [|y acc]; [constructor|].
      now inversion Hacc.
    + apply IH. constructor; [|exact Hacc].
      unfold segment_name. rewrite Hx. apply orb_false_iff in H1.
      destruct H1 as [H0 H1]. now rewrite H0, H1, H2.
Qed.

Lemma normalize_segments_of_names (l acc : list string) :
  Forall (fun x => segment_name x = true) l ->
  Path.normalize_segments l acc = (rev acc ++ l)%list.
Proof.
  intros Hl. revert acc. induction Hl as [|x l Hx _ IH]; intros acc.
  - cbn [Path.normalize_segments]. now rewrite app_nil_r.
  - cbn [Path.normalize_segments]. unfold segment_name in Hx.
    apply andb_true_iff in Hx. destruct Hx as [_ Hx]. apply negb_true_iff in Hx.
    apply orb_false_iff in Hx. destruct Hx as [Hx H2].
    rewrite Hx, H2. rewrite IH. cbn [rev]. now rewrite <- app_assoc.
Qed.

Lemma split_join (l : list string) :
  l <> [] -> Forall (fun x => slash_free x = true) l ->
  JS.split "/" (JS.join "/" l) = l.
Proof.
  unfold JS.join. intros Hne Hl. induction Hl as [|x l Hx Hl IH]; [contradiction|].
  destruct l as [|y l].
  - cbn [String.concat]. now apply split_slash_free.
  - change (String.concat "/" (x :: y :: l))
      with (x ++ String "/"%char (String.concat "/" (y :: l))).
    rewrite split_append_sep, (split_slash_free x Hx), IH; [reflexivity|discriminate].
Qed.

Lemma segment_name_slash_free (l : list string) :
  Forall (fun x => segment_name x = true) l ->
  Forall (fun x => slash_free x = true) l.
Proof.
  apply Forall_impl. intros x Hx. unfold segment_name in Hx.
  now apply andb_true_iff in Hx.
Qed.

(** The segments of a path put together from names are these names. *)
Lemma segments_of_segments (l : list string) :
  Forall (fun x => segment_name x = true) l ->
  Path.segments (Path.of_segments l) = l.
Proof.
  intros Hl. unfold Path.segments, Path.of_segments.
  change ("/" ++ JS.join "/" l) with (String "/"%char (JS.join "/" l)).
  rewrite split_cons_sep. destruct l as [|x l]; [reflexivity|].
  rewrite split_join; [|discriminate|now apply segment_name_slash_free].
  change (Path.normalize_segments ("" :: x :: l) [])
    with (Path.normalize_segments (x :: l) []).
  now rewrite (normalize_segments_of_names (x :: l) [] Hl).
Qed.

Lemma segments_names (p : string) :
  Forall (fun x => segment_name x = true) (Path.segments p).
Proof.
  unfold Path.segments. apply normalize_segments_names;
    [apply split_pieces|constructor].
Qed.

(** [path.resolve] returns an absolute, normalised path. *)
Lemma resolved_path_resolve (sCwd : string) (args : list string) :
  Fs.resolved (Path.resolve sCwd args) = true.
Proof.
  unfold Path.resolve. destruct (Path.scan (rev args) "") as [joined absolute].
  unfold Fs.resolved. rewrite segments_of_segments by apply segments_names.
  apply String.eqb_refl.
Qed.

(** A resolved path names the node its segments lead to. *)
Lemma locate_resolved (p : string) (s : Fs.fs) :
  Fs.resolved p = true -> Fs.locate p s = Ok (Fs.lookup (Path.segments p) s).
Proof.
  intros Hp. unfold Fs.locate. rewrite Hp.
  destruct (String.eqb_spec p "") as [->|_]; [discriminate|reflexivity].
Qed.

End ResolvedPaths.

(* ===================================================================== *)
(** * Classification *)
(* ===================================================================== *)

Section Classification.

Context {P : Platform}.

Lemma resolved_resolve (args : list string) : Fs.resolved (resolve args) = true.
Proof. apply resolved_path_resolve. Qed.

Lemma existsSync_spec (p : string) (s : Fs.fs) :
  Fs.resolved p = true ->
  exists b, Fs.existsSync p s = (Ok b, s)
            /\ (b = true <-> node_at s p <> None).
Proof.
  intros Hp. unfold Fs.existsSync, node_at. rewrite (locate_resolved p s Hp).
  destruct (Fs.lookup (Path.segments p) s).
  - exists true. split; [reflexivity|]. split; congruence.
  - exists false. split; [reflexivity|]. split; congruence.
Qed.

(** C8.  Every resolved module directory gets exactly one kind:
    [Application] when the component-preload marker exists (also when the
    library-preload marker exists too), [Library] when only the
    library-preload marker exists, [AssetBundle] otherwise. *)
Theorem classification_exclusive_exhaustive (s : Fs.fs) (sResolvedModulePath : string) :
  exists k : module_kind,
    module_kind_of sResolvedModulePath s = (Ok (Some k), s)
    /\ (k = Application <-> has_marker s sResolvedModulePath "Component-preload.js")
    /\ (k = Library <->
          ~ has_marker s sResolvedModulePath "Component-preload.js"
          /\ has_marker s sResolvedModulePath "library-preload.js")
    /\ (k = AssetBundle <->
          ~ has_marker s sResolvedModulePath "Component-preload.js"
          /\ ~ has_marker s sResolvedModulePath "library-preload.js").
Proof.
  unfold module_kind_of, has_marker, Fs.bind.
  destruct (existsSync_spec (resolve [sResolvedModulePath; "Component-preload.js"]) s
              (resolved_resolve _)) as (a & -> & Ha).
  destruct (existsSync_spec (resolve [sResolvedModulePath; "library-preload.js"]) s
              (resolved_resolve _)) as (b & -> & Hb).
  destruct a, b; simpl; eexists; (split; [reflexivity|]);
    repeat split; try discriminate; try tauto;
    intros; try (exfalso; intuition congruence); intuition congruence.
Qed.

End Classification.

(* ===================================================================== *)
(** * The application hash strategy *)
(* ===================================================================== *)

Section ApplicationHash.

Context {P : Platform}.

Lemma readFileSync_file (s : Fs.fs) (p c : string) :
  node_at s p = Some (Fs.File c) -> Fs.readFileSync p s = (Ok (Utf8.decode c), s).
Proof.
  unfold node_at, Fs.readFileSync.
  destruct (Fs.locate p s) as [[n|]|e|]; try discriminate. now intros [= ->].
Qed.

Lemma existsSync_present (s : Fs.fs) (p : string) (n : Fs.node) :
  node_at s p = Some n -> Fs.existsSync p s = (Ok true, s).
Proof.
  unfold node_at, Fs.existsSync.
  destruct (Fs.locate p s) as [[n'|]|e|]; try discriminate. reflexivity.
Qed.

Lemma existsSync_absent (s : Fs.fs) (args : list string) :
  node_at s (resolve args) = None -> Fs.existsSync (resolve args) s = (Ok false, s).
Proof.
  unfold node_at, Fs.existsSync.
  rewrite (locate_resolved _ s (resolved_resolve args)). now intros ->.
Qed.

Lemma eqb_nonempty (c : string) : c <> "" -> String.eqb c "" = false.
Proof. intros H. now apply String.eqb_neq. Qed.

(** A file holds no byte exactly when its text is the empty string. *)
Lemma decode_is_empty (c : string) : Text.is_empty (Utf8.decode c) = String.eqb c "".
Proof.
  destruct c as [|a c]; [reflexivity|].
  unfold Utf8.decode, Utf8.bytes_of. cbn [list_ascii_of_string map].
  cbn [Utf8.code_points].
  assert (Hu : forall cp t, Text.is_empty (Utf8.units cp ++ t)%list = false).
  { intros cp t. unfold Utf8.units. now destruct (N.ltb cp 65536). }
  set (r0 := map N_of_ascii (list_ascii_of_string c)).
  destruct (N.ltb (N_of_ascii a) 128); [apply Hu|].
  destruct (Utf8.between 194 223 (N_of_ascii a)).
  { destruct r0 as [|b1 r1]; [reflexivity|]. destruct (Utf8.cont b1); apply Hu. }
  destruct (Utf8.between 224 239 (N_of_ascii a)).
  { destruct r0 as [|b1 r1]; [reflexivity|].
    destruct (Utf8.second3 (N_of_ascii a) b1); [|apply Hu].
    destruct r1 as [|b2 r2]; [reflexivity|]. destruct (Utf8.cont b2); apply Hu. }
  destruct (Utf8.between 240 244 (N_of_ascii a)); [|apply Hu].
  destruct r0 as [|b1 r1]; [reflexivity|].
  destruct (Utf8.second4 (N_of_ascii a) b1); [|apply Hu].
  destruct r1 as [|b2 r2]; [reflexivity|]. destruct (Utf8.cont b2); [|apply Hu].
  destruct r2 as [|b3 r3]; [reflexivity|]. destruct (Utf8.cont b3); apply Hu.
Qed.

(** The empty text is the text of the empty 8-bit string only. *)
Lemma to_string_is_empty (t : Text.text) (c : string) :
  Text.to_string t = Some c -> Text.is_empty t = String.eqb c "".
Proof.
  unfold Text.to_string. destruct (forallb _ t); [|discriminate].
  intros [= <-]. now destruct t.
Qed.

Lemma text_at_file (s : Fs.fs) (p c : string) :
  text_at s p = Some c ->
  exists b, node_at s p = Some (Fs.File b)
            /\ Text.to_string (Utf8.decode b) = Some c.
Proof.
  unfold text_at. destruct (node_at s p) as [[b|es]|]; try discriminate.
  intros H. now exists b.
Qed.

(** The manifest is read and parsed. *)
Lemma app_buffer_list_parsed (s : Fs.fs) (p preload B c : string) (j : Json.json) :
  node_at s preload = Some (Fs.File B) ->
  text_at s (resolve [p; "manifest.json"]) = Some c ->
  JSON_parse c = Some j ->
  app_buffer_list p preload s =
  Fs.bind (Fs.lift (manifest_resources j))
    (fun resources =>
       Fs.bind (if Json.truthy resources
                then match resources with
                     | Some r => Fs.lift (Json.keys r)
                     | None => Fs.throw TypeError
                     end
                else Fs.ret [])
         (fun aResourceKeys =>
            Fs.bind (reduce (fun aContentsList sResourceKey =>
                               Fs.bind (read_resources p j sResourceKey)
                                 (fun l => Fs.ret (aContentsList ++ l)%list))
                            aResourceKeys [])
              (fun aDependedResourceContents =>
                 Fs.ret (map Buffer_from
                           (aDependedResourceContents
                              ++ (if String.eqb B "" then []
                                  else [Utf8.decode B]))%list)))) s.
Proof.
  intros Hpre Hman Hj.
  assert (Hc : c <> "") by (intros ->; rewrite JSON_parse_empty in Hj; discriminate).
  destruct (text_at_file _ _ _ Hman) as (b & Hfile & Htext).
  unfold app_buffer_list.
  unfold Fs.bind at 1. rewrite (readFileSync_file _ _ _ Hpre).
  unfold Fs.bind at 1. rewrite (existsSync_present _ _ _ Hfile).
  unfold Fs.bind at 1. unfold Fs.bind at 1.
  rewrite (readFileSync_file _ _ _ Hfile). unfold Fs.ret at 1.
  rewrite (to_string_is_empty _ _ Htext), (eqb_nonempty _ Hc).
  unfold Fs.bind at 1. unfold parse_text. rewrite Htext.
  unfold parse. rewrite Hj. rewrite decode_is_empty. reflexivity.
Qed.

(** C10.  In an application module whose [manifest.json] exists and parses
    to a value without a top-level ['sap.ui5'] property, [_getUi5AppHash]
    throws a [TypeError] (the read of [.resources] on [undefined]) and
    leaves the file system as it was; hence, whenever it returns on a
    parsed manifest, the parsed value has a ['sap.ui5'] property, and that
    property is not [null]. *)
Theorem app_hash_needs_sap_ui5 (s : Fs.fs) (p preload B c : string)
        (j : Json.json) (o : validated_options) :
  node_at s preload = Some (Fs.File B) ->
  text_at s (resolve [p; "manifest.json"]) = Some c ->
  JSON_parse c = Some j ->
  (Json.assoc "sap.ui5" (Json.own_entries j) = None ->
   _getUi5AppHash p preload o s = (Throw TypeError, s))
  /\ (forall h s', _getUi5AppHash p preload o s = (Ok h, s') ->
                   exists v, Json.assoc "sap.ui5" (Json.own_entries j) = Some v
                             /\ v <> Json.JNull).
Proof.
  intros Hpre Hman Hj.
  assert (Hrun : forall r,
             manifest_resources j = Throw r ->
             _getUi5AppHash p preload o s = (Throw r, s)).
  { intros r Hr. unfold _getUi5AppHash. unfold Fs.bind at 1.
    rewrite (app_buffer_list_parsed s p preload B c j Hpre Hman Hj).
    unfold Fs.bind at 1. unfold Fs.lift. rewrite Hr. reflexivity. }
  split.
  - intros Hnone. apply Hrun. unfold manifest_resources, Json.get.
    destruct j; try reflexivity; simpl in Hnone |- *; rewrite ?Hnone; reflexivity.
  - intros h s' Hok.
    destruct (Json.assoc "sap.ui5" (Json.own_entries j)) as [v|] eqn:Hv.
    + exists v. split; [reflexivity|]. intros ->.
      rewrite (Hrun TypeError) in Hok; [discriminate|].
      unfold manifest_resources, Json.get.
      destruct j; try reflexivity; simpl in Hv |- *; rewrite ?Hv; reflexivity.
    + rewrite (Hrun TypeError) in Hok; [discriminate|].
      unfold manifest_resources, Json.get.
      destruct j; try reflexivity; simpl in Hv |- *; rewrite ?Hv; reflexivity.
Qed.

(** The manifest is absent or empty: the default object stands in. *)
Lemma app_buffer_list_default (s : Fs.fs) (p preload B : string) :
  node_at s preload = Some (Fs.File B) ->
  node_at s (resolve [p; "manifest.json"]) = None
  \/ node_at s (resolve [p; "manifest.json"]) = Some (Fs.File "") ->
  app_buffer_list p preload s =
  (Ok (if String.eqb B "" then [] else [reencoded B]), s).
Proof.
  intros Hpre Hman. unfold app_buffer_list.
  unfold Fs.bind at 1. rewrite (readFileSync_file _ _ _ Hpre).
  rewrite decode_is_empty.
  unfold Fs.bind at 1. destruct Hman as [Hman|Hman].
  - rewrite (existsSync_absent s [p; "manifest.json"] Hman). simpl.
    destruct (String.eqb B ""); reflexivity.
  - rewrite (existsSync_present _ _ _ Hman).
    unfold Fs.bind at 1. unfold Fs.bind at 1.
    rewrite (readFileSync_file _ _ _ Hman).
    change (Utf8.decode "") with (@nil N). simpl.
    destruct (String.eqb B ""); reflexivity.
Qed.

(** The [map] over the entries of one category reads the referenced files
    in order. *)
Lemma mapM_entries (s : Fs.fs) (p : string) (us : list string)
      (l : list Json.json) (cs : list string) :
  Forall2 is_entry us l ->
  referenced_contents s p us cs ->
  mapM (fun oResource =>
          Fs.bind (Fs.lift (Json.get oResource "uri"))
            (fun uri => Fs.bind (Fs.lift (as_path uri))
               (fun sUri => Fs.readFileSync (resolve [p; sUri])))) l s
  = (Ok (map Utf8.decode cs), s).
Proof.
  unfold referenced_contents. intros Hl. revert cs.
  induction Hl as [|u e us l (m & -> & Hu) _ IH]; intros cs Hcs.
  - inversion Hcs. reflexivity.
  - inversion Hcs as [|u' c us' cs' Hc Hcs']; subst. simpl mapM.
    unfold Fs.bind at 1. unfold Fs.bind at 1. unfold Fs.lift at 1.
    simpl Json.get. rewrite Hu.
    unfold Fs.bind at 1. simpl.
    rewrite (readFileSync_file _ _ _ Hc).
    unfold Fs.bind at 1. rewrite (IH _ Hcs'). reflexivity.
Qed.

Lemma assoc_in_nodup {A : Type} (k : string) (v : A) (m : list (string * A)) :
  NoDup (map fst m) -> In (k, v) m -> Json.assoc k m = Some v.
Proof.
  induction m as [|[k' v'] m IH]; simpl; intros Hnd Hin; [contradiction|].
  inversion Hnd as [|? ? Hnotin Hnd']; subst.
  destruct Hin as [Heq|Hin].
  - inversion Heq; subst. now rewrite String.eqb_refl.
  - destruct (String.eqb_spec k k') as [->|_].
    + exfalso. apply Hnotin. change k' with (fst (k', v)). now apply in_map.
    + now apply IH.
Qed.

Lemma bind_ok {A B : Type} (m : Fs.M A) (f : A -> Fs.M B) (s s' : Fs.fs) (a : A) :
  m s = (Ok a, s') -> Fs.bind m f s = f a s'.
Proof. unfold Fs.bind. now intros ->. Qed.

(** One category: the files of its entries are read in order. *)
Lemma read_resources_category (s : Fs.fs) (p : string) (j : Json.json)
      (ui5 m : list (string * Json.json)) (k : string) (us : list string)
      (l : list Json.json) (cs : list string) :
  Json.get j "sap.ui5" = Ok (Some (Json.JObj ui5)) ->
  Json.assoc "resources" ui5 = Some (Json.JObj m) ->
  Json.assoc k m = Some (Json.JArr l) ->
  Forall2 is_entry us l ->
  referenced_contents s p us cs ->
  read_resources p j k s = (Ok (map Utf8.decode cs), s).
Proof.
  intros Hui5 Hres Hk Hes Hcs. unfold read_resources.
  unfold Fs.bind at 1. unfold Fs.lift at 1. unfold manifest_resources.
  rewrite Hui5. simpl Json.get_of. rewrite Hres.
  unfold Fs.bind at 1. unfold Fs.lift at 1. simpl Json.get_of. rewrite Hk.
  exact (mapM_entries s p us l cs Hes Hcs).
Qed.

(** The [reduce] over the categories appends, category by category, the
    contents of the referenced files. *)
Lemma reduce_categories (s : Fs.fs) (p : string) (j : Json.json)
      (ui5 m : list (string * Json.json)) :
  Json.get j "sap.ui5" = Ok (Some (Json.JObj ui5)) ->
  Json.assoc "resources" ui5 = Some (Json.JObj m) ->
  NoDup (map fst m) ->
  forall (R : resources_section) (m' : list (string * Json.json))
         (cs : list string) (acc : list Text.text),
    incl m' m ->
    Forall2 (fun r e => fst r = fst e /\ is_category (snd r) (snd e)) R m' ->
    referenced_contents s p (referenced_uris R) cs ->
    reduce (fun aContentsList sResourceKey =>
              Fs.bind (read_resources p j sResourceKey)
                (fun l => Fs.ret (aContentsList ++ l)%list))
           (map fst m') acc s
    = (Ok (acc ++ map Utf8.decode cs)%list, s).
Proof.
  intros Hui5 Hres Hnd R.
  induction R as [|[cat us] R IH]; intros m' cs acc Hincl HR Hcs.
  - inversion HR; subst. inversion Hcs; subst. simpl.
    now rewrite app_nil_r.
  - inversion HR as [|r e R' m'' [Hk (l & Hl & Hes)] HR']; subst.
    destruct e as [k v]. simpl in Hk, Hl, Hes. subst.
    unfold referenced_uris in Hcs. simpl in Hcs.
    apply Forall2_app_inv_l in Hcs.
    destruct Hcs as (cs1 & cs2 & Hcs1 & Hcs2 & ->).
    simpl map. simpl reduce.
    assert (Hone : read_resources p j k s = (Ok (map Utf8.decode cs1), s)).
    { apply (read_resources_category s p j ui5 m k us l cs1); auto.
      apply assoc_in_nodup; [exact Hnd|]. apply Hincl. now left. }
    rewrite (bind_ok _ _ s s (acc ++ map Utf8.decode cs1)%list).
    + rewrite (IH m'' cs2 (acc ++ map Utf8.decode cs1)%list);
        [now rewrite map_app, app_assoc| |exact HR'|exact Hcs2].
      intros x Hx. apply Hincl. now right.
    + rewrite (bind_ok _ _ s s (map Utf8.decode cs1) Hone). reflexivity.
Qed.

(** A buffer that holds UTF-8 is encoded as it is. *)
Lemma reencoded_valid (c : buffer) : valid_utf8 c -> reencoded c = c.
Proof.
  intros (t & Ht & ->). unfold reencoded, Buffer_from.
  now rewrite (decode_encode t Ht).
Qed.

Lemma map_reencoded (cs : list string) :
  map Buffer_from (map Utf8.decode cs) = map reencoded cs.
Proof. now rewrite map_map. Qed.

(** C7 (amended).  In an application module the buffers handed to the
    content hasher are made of the files the manifest refers to by the
    [uri] entries of its resource categories, followed by the
    component-preload file when its content is not empty (an empty preload
    file adds no buffer); the buffer made of a file is the UTF-8 encoding of
    the decoded content, which is the content itself when the file holds
    UTF-8.  In particular, when the manifest declares nothing and the
    preload content [B] is not empty and holds UTF-8, the token is the hash
    of the singleton [[B]]. *)
Theorem app_hash_inputs (s : Fs.fs) (p preload B : string)
        (R : resources_section) (cs : list string) (o : validated_options) :
  node_at s preload = Some (Fs.File B) ->
  manifest_declares s p R ->
  referenced_contents s p (referenced_uris R) cs ->
  app_buffer_list p preload s =
    (Ok (map reencoded cs ++ (if String.eqb B "" then [] else [reencoded B]))%list, s)
  /\ _getUi5AppHash p preload o s =
     (Ok (_createHash
            (Some (map reencoded cs
                     ++ (if String.eqb B "" then [] else [reencoded B]))%list) o), s)
  /\ (forall c, valid_utf8 c -> reencoded c = c)
  /\ (R = [] -> B <> "" -> valid_utf8 B ->
      _getUi5AppHash p preload o s = (Ok (_createHash (Some [B]) o), s)).
Proof.
  intros Hpre Hman Hcs.
  assert (Hlist : app_buffer_list p preload s =
                  (Ok (map reencoded cs
                         ++ (if String.eqb B "" then [] else [reencoded B]))%list, s)).
  { destruct Hman as [Hno|Hblank|c j ui5 Hfile Hj Hui5 Hnores
                     |c j ui5 res R Hfile Hj Hui5 Hres (m & -> & Hnd & HR)].
    - inversion Hcs; subst.
      now rewrite (app_buffer_list_default s p preload B Hpre (or_introl Hno)).
    - inversion Hcs; subst.
      now rewrite (app_buffer_list_default s p preload B Hpre (or_intror Hblank)).
    - inversion Hcs; subst.
      rewrite (app_buffer_list_parsed s p preload B c j Hpre Hfile Hj).
      unfold Fs.bind at 1. unfold Fs.lift at 1. unfold manifest_resources.
      rewrite Hui5. simpl Json.get_of. rewrite Hnores. simpl.
      destruct (String.eqb B ""); reflexivity.
    - rewrite (app_buffer_list_parsed s p preload B c j Hpre Hfile Hj).
      unfold Fs.bind at 1. unfold Fs.lift at 1. unfold manifest_resources.
      rewrite Hui5. simpl Json.get_of. rewrite Hres. simpl Json.truthy. cbv iota.
      unfold Fs.bind at 1. unfold Fs.lift at 1. simpl Json.keys.
      unfold Fs.bind at 1.
      rewrite (reduce_categories s p j ui5 m Hui5 Hres Hnd R m cs []
                 (incl_refl m) HR Hcs).
      unfold Fs.ret. cbn [app]. rewrite map_app, map_reencoded.
      destruct (String.eqb B ""); reflexivity. }
  split; [exact Hlist|]. split; [|split].
  - unfold _getUi5AppHash. unfold Fs.bind at 1. now rewrite Hlist.
  - exact reencoded_valid.
  - intros -> Hne Hvalid. inversion Hcs; subst.
    unfold _getUi5AppHash. unfold Fs.bind at 1. rewrite Hlist.
    rewrite (eqb_nonempty _ Hne). cbn [map app].
    now rewrite (reencoded_valid B Hvalid).
Qed.

End ApplicationHash.

(* ===================================================================== *)
(** * The run as a whole *)
(* ===================================================================== *)

Section Run.

Context {P : Platform}.

(** Without its marker a declaration is still looked for: the text from
    the offset of the marker's length up to the next single quote. *)
Lemma extract_missing_marker (sMarker sHTMLContent : string) :
  JS.indexOf sHTMLContent sMarker 0 = -1 ->
  extract sMarker sHTMLContent =
  JS.substring sHTMLContent (JS.len sMarker)
    (JS.indexOf sHTMLContent "'" (JS.len sMarker)).
Proof.
  intros H. unfold extract. rewrite H.
  replace (-1 + JS.len sMarker + 1) with (JS.len sMarker) by lia.
  reflexivity.
Qed.

Lemma part_one_malformed (f : Vinyl) (o : validated_options) (s : Fs.fs) :
  JSON_parse (extract "data-sap-ui-resourceroots=" (contents f)) = None ->
  part_one f o s = (Throw SyntaxError, s).
Proof.
  intros H. unfold part_one, Fs.bind, parse. rewrite H. reflexivity.
Qed.

Lemma part_two_malformed (f : Vinyl) (o : validated_options) (s : Fs.fs) :
  JSON_parse (extract "data-sap-ui-theme-roots=" (contents f)) = None ->
  part_two f o s = (Throw SyntaxError, s).
Proof.
  intros H. unfold part_two, Fs.bind, parse. rewrite H. reflexivity.
Qed.

(** C2 (amended).  When the text taken for the resource-root declaration
    is not valid JSON, the run throws a [SyntaxError] and the file system
    is as it was.  When the text taken for the theme-root declaration is
    not valid JSON, the run never completes; the [SyntaxError] is thrown
    once part one has finished, in the file system part one has left, so
    resource-root directories may have been renamed by then. *)
Theorem malformed_declaration_fails (f : Vinyl) (oOptions : option options)
        (h : hash_options) (s : Fs.fs) :
  hash_options_of oOptions = Ok h ->
  (JSON_parse (extract "data-sap-ui-resourceroots=" (contents f)) = None ->
   ui5Bust f oOptions s = (Throw SyntaxError, s))
  /\ (JSON_parse (extract "data-sap-ui-theme-roots=" (contents f)) = None ->
      (forall m s1, part_one f (validate h) s = (Ok m, s1) ->
                    ui5Bust f oOptions s = (Throw SyntaxError, s1))
      /\ (forall v s', ui5Bust f oOptions s <> (Ok v, s'))).
Proof.
  intros Hopt. split.
  - intros H. unfold ui5Bust. unfold Fs.bind at 1. unfold Fs.lift at 1.
    rewrite Hopt. unfold Fs.bind at 1.
    now rewrite (part_one_malformed f (validate h) s H).
  - intros H.
    assert (Hrun : forall m s1, part_one f (validate h) s = (Ok m, s1) ->
                                ui5Bust f oOptions s = (Throw SyntaxError, s1)).
    { intros m s1 Hone. unfold ui5Bust. unfold Fs.bind at 1. unfold Fs.lift at 1.
      rewrite Hopt. unfold Fs.bind at 1. rewrite Hone.
      unfold Fs.bind at 1.
      now rewrite (part_two_malformed f (validate h) s1 H). }
    split; [exact Hrun|].
    intros v s' Hok.
    destruct (part_one f (validate h) s) as [[m|e|] s1] eqn:Hone.
    + rewrite (Hrun m s1 eq_refl) in Hok. discriminate.
    + unfold ui5Bust in Hok. unfold Fs.bind at 1 in Hok. unfold Fs.lift at 1 in Hok.
      rewrite Hopt in Hok. unfold Fs.bind at 1 in Hok. rewrite Hone in Hok.
      discriminate.
    + unfold ui5Bust in Hok. unfold Fs.bind at 1 in Hok. unfold Fs.lift at 1 in Hok.
      rewrite Hopt in Hok. unfold Fs.bind at 1 in Hok. rewrite Hone in Hok.
      discriminate.
Qed.

End Run.

(* ===================================================================== *)
(** * Runs on the example inputs (reference platform) *)
(* ===================================================================== *)

Section Runs.

Import Examples.

(** The run on a site with one application and one theme: both directories
    are renamed with their token and both declarations follow. *)
Lemma site_is_busted :
  run page_site None site =
  (Ok (page ("<script data-sap-ui-resourceroots='{`demo.app`:`./apps/demo-0002b5e7`}'"
             ++ JS.nl
             ++ "data-sap-ui-theme-roots='{`base`:`themes/base-0b88674e/UI5`}'></script>")),
   Fs.Dir
     [("proj",
       Fs.Dir
         [("index.html", Fs.File "<html/>");
          ("apps",
           Fs.Dir [("demo-0002b5e7", Fs.Dir [("Component-preload.js", Fs.File "B")])]);
          ("themes",
           Fs.Dir [("base-0b88674e",
                    Fs.Dir [("UI5", Fs.Dir [("library.css", Fs.File "css")])])])])]).
Proof. vm_compute. reflexivity. Qed.

(** C1.  An empty asset bundle: the hash strategy returns [null] and the
    directory stays where it is, but the declaration is rewritten to the
    path with the suffix [-null]. *)
Theorem empty_bundle_declared_with_null_suffix :
  _getAssetsHash (P := Ref.platform) "/proj/apps/empty" default_options project
    = (Ok None, project)
  /\ run page_empty_bundle None project =
     (Ok (page ("<script data-sap-ui-resourceroots='{`demo.assets`:`./apps/empty-null`}'"
                ++ JS.nl ++ "data-sap-ui-theme-roots='{}'></script>")),
      project).
Proof. split; vm_compute; reflexivity. Qed.

(** C2, counterexample.  A page with a library as resource root and no
    theme-root declaration: the run throws a [SyntaxError], and at that
    point the library directory has already been renamed. *)
Lemma theme_failure_follows_rename :
  JS.indexOf (contents page_without_theme_roots) "data-sap-ui-theme-roots=" 0 = -1
  /\ node_at project "/proj/libs/demo"
     = Some (Fs.Dir [("library-preload.js", Fs.File "L1")])
  /\ node_at (snd (run page_without_theme_roots None project)) "/proj/libs/demo" = None
  /\ node_at (snd (run page_without_theme_roots None project)) "/proj/libs/demo-00597442"
     = Some (Fs.Dir [("library-preload.js", Fs.File "L1")])
  /\ fst (run page_without_theme_roots None project) = Throw SyntaxError
  /\ snd (run page_without_theme_roots None project) <> project.
Proof.
  repeat split; try (vm_compute; reflexivity).
  intros H. apply (f_equal (fun s => node_at s "/proj/libs/demo")) in H.
  vm_compute in H. discriminate.
Qed.

(** A page without the resource-root marker on which the run completes. *)
Lemma missing_marker_not_detected :
  JS.indexOf (contents page_without_resource_roots) "data-sap-ui-resourceroots=" 0 = -1
  /\ run page_without_resource_roots None project
     = (Ok page_without_resource_roots, project).
Proof. split; vm_compute; reflexivity. Qed.

(** C4.  Both declarations on one line: the first substitution runs up to
    the last single quote of the line and takes the theme-root declaration
    with it. *)
Theorem one_line_page_loses_theme_declaration :
  run page_one_line None project
  = (Ok (page "<script data-sap-ui-resourceroots='{}'></script>"), project).
Proof. vm_compute. reflexivity. Qed.

(** A declaration laid out over several lines is not matched by the
    substitution pattern: the library directory is renamed and the document
    keeps the old path. *)
Lemma multi_line_declaration_left_stale :
  fst (run page_multi_line None project) = Ok page_multi_line
  /\ node_at (snd (run page_multi_line None project)) "/proj/libs/demo" = None
  /\ node_at (snd (run page_multi_line None project)) "/proj/libs/demo-00597442"
     = Some (Fs.Dir [("library-preload.js", Fs.File "L1")]).
Proof. repeat split; vm_compute; reflexivity. Qed.

(** C5.  A theme root whose directory does not exist: no token is
    generated, yet the declared path gets the suffix [-null] and the
    parent directory is renamed accordingly. *)
Theorem missing_theme_directory_renamed_with_null :
  node_at project "/proj/themes/custom/UI5" = None
  /\ fst (run page_missing_theme None project) =
     Ok (page ("<script data-sap-ui-resourceroots='{}'" ++ JS.nl
               ++ "data-sap-ui-theme-roots='{`custom`:`themes/custom-null/UI5`}'></script>"))
  /\ node_at (snd (run page_missing_theme None project)) "/proj/themes/custom" = None
  /\ node_at (snd (run page_missing_theme None project)) "/proj/themes/custom-null"
     = Some (Fs.Dir [("readme.txt", Fs.File "r")]).
Proof. repeat split; vm_compute; reflexivity. Qed.

(** C6.  With the allow-list [["a.txt"]] the reader drops [c.txt] of the
    root directory but returns the content of [sub/b.txt]: the allow-list
    is not applied below the root. *)
Theorem allow_list_not_applied_below_root :
  _readAllFiles "/d" ["a.txt"] tree = (Ok (map Text.of_string ["A"; "B"]), tree).
Proof. vm_compute. reflexivity. Qed.

(** C7, counterexample.  An application with an empty component-preload
    file and no manifest: no buffer reaches the hasher and there is no
    token, whereas the hash of the singleton of the empty buffer is a
    token.  An application whose component-preload file holds the byte
    [ff] and no manifest: the hasher is given the bytes [ef bf bd], the
    encoding of U+FFFD, and the token is not the hash of the singleton of
    the file content. *)
Lemma preload_content_is_not_the_buffer :
  (node_at empty_preload "/proj/app/Component-preload.js" = Some (Fs.File "")
   /\ node_at empty_preload "/proj/app/manifest.json" = None
   /\ _getUi5AppHash (P := Ref.platform) "/proj/app" "/proj/app/Component-preload.js"
        default_options empty_preload = (Ok None, empty_preload)
   /\ _createHash (P := Ref.platform) (Some [""]) default_options = Some "00001505")
  /\ (node_at binary_preload "/proj/app/Component-preload.js"
      = Some (Fs.File (bytes [255]))
      /\ node_at binary_preload "/proj/app/manifest.json" = None
      /\ app_buffer_list (P := Ref.platform) "/proj/app"
           "/proj/app/Component-preload.js" binary_preload
         = (Ok [bytes [239; 191; 189]], binary_preload)
      /\ _getUi5AppHash (P := Ref.platform) "/proj/app" "/proj/app/Component-preload.js"
           default_options binary_preload = (Ok (Some "0b8ac4f0"), binary_preload)
      /\ _createHash (P := Ref.platform) (Some [bytes [255]]) default_options
         = Some "0002b6a4").
Proof. repeat split; vm_compute; reflexivity. Qed.

(** C3, failing input.  The buffers [ff] and [fe] both read as the string
    U+FFFD, so the sort leaves them in the order they came in, and the token
    of the collection depends on that order. *)
Theorem createHash_order_of_binary_buffers :
  Permutation [bytes [255]; bytes [254]] [bytes [254]; bytes [255]]
  /\ Buffer_toString (bytes [255]) = Buffer_toString (bytes [254])
  /\ Array_sort [bytes [255]; bytes [254]] = [bytes [255]; bytes [254]]
  /\ Array_sort [bytes [254]; bytes [255]] = [bytes [254]; bytes [255]]
  /\ _createHash (P := Ref.platform) (Some [bytes [255]; bytes [254]]) default_options
     = Some "00598c22"
  /\ _createHash (P := Ref.platform) (Some [bytes [254]; bytes [255]]) default_options
     = Some "00598c02".
Proof. split; [apply perm_swap|]. repeat split; vm_compute; reflexivity. Qed.

(** C9, counterexample.  The buffers [ef bc 81] (U+FF01) and [f0 9f 98 80]
    (U+1F600) are in ascending byte order, yet the second one is hashed
    first: its string starts with the code unit [d83d], which is below
    [ff01]. *)
Lemma sort_order_is_not_bytewise :
  String.leb (bytes [239; 188; 129]) (bytes [240; 159; 152; 128]) = true
  /\ Array_sort [bytes [239; 188; 129]; bytes [240; 159; 152; 128]]
     = [bytes [240; 159; 152; 128]; bytes [239; 188; 129]]
  /\ _createHash (P := Ref.platform)
       (Some [bytes [239; 188; 129]; bytes [240; 159; 152; 128]]) default_options
     = Some (JS.toLowerCase
               (Ref.digest (bytes [240; 159; 152; 128; 239; 188; 129])
                  "sha512" "base62" 8))
  /\ _createHash (P := Ref.platform)
       (Some [bytes [239; 188; 129]; bytes [240; 159; 152; 128]]) default_options
     <> Some (JS.toLowerCase
                (Ref.digest (bytes [239; 188; 129; 240; 159; 152; 128])
                   "sha512" "base62" 8)).
Proof.
  split; [vm_compute; reflexivity|]. split; [vm_compute; reflexivity|].
  split; [vm_compute; reflexivity|]. vm_compute. discriminate.
Qed.

(** The application strategy on a manifest without ['sap.ui5']. *)
Lemma app_hash_needs_sap_ui5_witness :
  _getUi5AppHash (P := Ref.platform) "/proj/app" "/proj/app/Component-preload.js"
    default_options bare_manifest = (Throw TypeError, bare_manifest).
Proof.
  apply (proj1 (app_hash_needs_sap_ui5 (P := Ref.platform) bare_manifest "/proj/app"
                  "/proj/app/Component-preload.js" "B" "{}" (Json.JObj [])
                  default_options
                  ltac:(vm_compute; reflexivity) ltac:(vm_compute; reflexivity)
                  ltac:(vm_compute; reflexivity))).
  vm_compute. reflexivity.
Defined.

(** The application strategy on a manifest with two style sheets. *)
Lemma app_hash_inputs_witness :
  app_buffer_list (P := Ref.platform) "/proj/app" "/proj/app/Component-preload.js"
    styled_app = (Ok (map reencoded ["a{}"; "b{}"] ++ [reencoded "B"])%list, styled_app).
Proof.
  apply (proj1 (app_hash_inputs (P := Ref.platform) styled_app "/proj/app"
                  "/proj/app/Component-preload.js" "B"
                  [("css", ["css/a.css"; "css/b.css"])] ["a{}"; "b{}"]
                  default_options
                  ltac:(vm_compute; reflexivity)
                  ltac:(eapply (manifest_with_resources (P := Ref.platform)
                                  styled_app "/proj/app");
                        [ vm_compute; reflexivity
                        | vm_compute; reflexivity
                        | vm_compute; reflexivity
                        | vm_compute; reflexivity
                        | eexists; split; [reflexivity|]; split;
                          [ repeat constructor; simpl; tauto
                          | repeat constructor;
                            eexists; split; [reflexivity|];
                            repeat constructor;
                            eexists; split; reflexivity ] ])
                  ltac:(repeat constructor; vm_compute; reflexivity))).
Defined.

(** Malformed declarations: a resource-root declaration that is not JSON,
    and a missing theme-root declaration. *)
Lemma malformed_declaration_fails_witness :
  run page_broken_resource_roots None project = (Throw SyntaxError, project)
  /\ fst (run page_without_theme_roots None project) = Throw SyntaxError.
Proof.
  split.
  - apply (proj1 (malformed_declaration_fails (P := Ref.platform)
                    page_broken_resource_roots None _ project eq_refl)).
    vm_compute. reflexivity.
  - destruct (part_one (P := Ref.platform) page_without_theme_roots
                       (validate {| type := None; digestType := None; maxLength := None |})
                       project) as [[m|e|] s1] eqn:Hone;
      try (vm_compute in Hone; discriminate).
    unfold run.
    rewrite (proj1 (proj2 (malformed_declaration_fails (P := Ref.platform)
                             page_without_theme_roots None _ project eq_refl)
                      ltac:(vm_compute; reflexivity)) m s1 Hone).
    reflexivity.
Defined.

End Runs.

(* ===================================================================== *)
(** * The hash strategies and the file-tree reader *)
(* ===================================================================== *)

Section Strategies.

Context {P : Platform}.

Lemma node_induction (Q : Fs.node -> Prop) :
  (forall c, Q (Fs.File c)) ->
  (forall es, Forall (fun e => Q (snd e)) es -> Q (Fs.Dir es)) ->
  forall n, Q n.
Proof.
  intros Hf Hd. fix IH 1. intros [c|es].
  - apply Hf.
  - apply Hd. induction es as [|[x n] es IHes]; constructor; [apply IH|apply IHes].
Qed.

Lemma readTree_dir (es : list (string * Fs.node)) (aWhitelist : list string) :
  readTree (Fs.Dir es) aWhitelist = read_entries aWhitelist es [].
Proof. reflexivity. Qed.

Lemma read_entries_all (es : list (string * Fs.node)) :
  Forall (fun e => readTree (snd e) [] = match snd e with
                                         | Fs.File _ => []
                                         | Fs.Dir _ =>
                                             map Utf8.decode (file_contents (snd e))
                                         end) es ->
  forall acc,
    read_entries [] es acc = (acc ++ map Utf8.decode (file_contents (Fs.Dir es)))%list.
Proof.
  induction 1 as [|[x n] es Hn _ IH]; intros acc.
  - simpl. now rewrite app_nil_r.
  - simpl in Hn. simpl read_entries. destruct n as [c|es0].
    + simpl. rewrite IH. simpl. now rewrite <- app_assoc.
    + rewrite IH. rewrite Hn. simpl file_contents at 3.
      now rewrite map_app, <- app_assoc.
Qed.

(** Without an allow-list the reader returns the decoded content of every
    file of the tree. *)
Lemma readTree_all (es : list (string * Fs.node)) :
  readTree (Fs.Dir es) [] = map Utf8.decode (file_contents (Fs.Dir es)).
Proof.
  change (match Fs.Dir es with
          | Fs.File _ => readTree (Fs.Dir es) [] = []
          | Fs.Dir _ =>
              readTree (Fs.Dir es) [] = map Utf8.decode (file_contents (Fs.Dir es))
          end).
  generalize (Fs.Dir es). intros n.
  induction n as [c|es0 IH] using node_induction.
  - reflexivity.
  - rewrite readTree_dir. rewrite read_entries_all; [reflexivity|].
    eapply Forall_impl; [|exact IH]. intros [x n] Hn. simpl in *.
    destruct n; exact Hn.
Qed.

Lemma file_contents_dir (es : list (string * Fs.node)) :
  file_contents (Fs.Dir es) = flat_map (fun e => file_contents (snd e)) es.
Proof.
  induction es as [|[x n] es IH]; [reflexivity|].
  simpl in *. now rewrite IH.
Qed.

Lemma reshuffled_contents (n n' : Fs.node) :
  reshuffled n n' -> Permutation (file_contents n) (file_contents n').
Proof.
  revert n n'. fix IH 3. intros n n' H. destruct H as [c|es es' es'' Hes Hp].
  - apply Permutation_refl.
  - rewrite !file_contents_dir.
    apply Permutation_trans with (flat_map (fun e => file_contents (snd e)) es').
    + clear Hp. induction Hes as [|e e' es es' He _ IHes]; simpl.
      * apply Permutation_refl.
      * apply Permutation_app; [apply IH, He|apply IHes].
    + now apply Permutation_flat_map.
Qed.

(** Closure of [read_only] under the operations of the monad. *)
Lemma read_only_ret {A : Type} (a : A) : read_only (Fs.ret a).
Proof. intros s. reflexivity. Qed.

Lemma read_only_throw {A : Type} (e : error) : read_only (Fs.throw (A := A) e).
Proof. intros s. reflexivity. Qed.

Lemma read_only_lift {A : Type} (o : outcome A) : read_only (Fs.lift o).
Proof. intros s. reflexivity. Qed.

Lemma read_only_bind {A B : Type} (m : Fs.M A) (f : A -> Fs.M B) :
  read_only m -> (forall a, read_only (f a)) -> read_only (Fs.bind m f).
Proof.
  intros Hm Hf s. unfold Fs.bind. specialize (Hm s).
  destruct (m s) as [[a|e|] s1]; simpl in *; subst; try reflexivity. apply Hf.
Qed.

Lemma read_only_existsSync (p : string) : read_only (Fs.existsSync p).
Proof.
  intros s. unfold Fs.existsSync.
  destruct (Fs.locate p s) as [[n|]|e|]; reflexivity.
Qed.

Lemma read_only_readFileSync (p : string) : read_only (Fs.readFileSync p).
Proof.
  intros s. unfold Fs.readFileSync.
  destruct (Fs.locate p s) as [[[c|es]|]|e|]; reflexivity.
Qed.

Lemma read_only_readdirSync (p : string) : read_only (Fs.readdirSync p).
Proof.
  intros s. unfold Fs.readdirSync.
  destruct (Fs.locate p s) as [[[c|es]|]|e|]; reflexivity.
Qed.

Lemma read_only_mapM {A B : Type} (f : A -> Fs.M B) (l : list A) :
  (forall a, read_only (f a)) -> read_only (mapM f l).
Proof.
  intros Hf. induction l as [|x l IH]; simpl.
  - apply read_only_ret.
  - apply read_only_bind; [apply Hf|]. intros y.
    apply read_only_bind; [exact IH|]. intros ys. apply read_only_ret.
Qed.

Lemma read_only_reduce {A B : Type} (f : B -> A -> Fs.M B) (l : list A) (acc : B) :
  (forall b a, read_only (f b a)) -> read_only (reduce f l acc).
Proof.
  intros Hf. revert acc. induction l as [|x l IH]; intros acc; simpl.
  - apply read_only_ret.
  - apply read_only_bind; [apply Hf|]. intros acc'. apply IH.
Qed.

Lemma read_only_parse (c : string) : read_only (parse c).
Proof.
  unfold parse. destruct (JSON_parse c); [apply read_only_ret|apply read_only_throw].
Qed.

Lemma read_only_parse_text (t : Text.text) : read_only (parse_text t).
Proof.
  unfold parse_text. destruct (Text.to_string t); [apply read_only_parse|].
  apply read_only_lift.
Qed.

Lemma read_only_readAllFiles (sDir : string) (aWhitelist : list string) :
  read_only (_readAllFiles sDir aWhitelist).
Proof.
  unfold _readAllFiles. apply read_only_bind; [apply read_only_readdirSync|].
  intros es. apply read_only_ret.
Qed.

Lemma read_only_read_resources (p : string) (j : Json.json) (k : string) :
  read_only (read_resources p j k).
Proof.
  unfold read_resources.
  apply read_only_bind; [apply read_only_lift|]. intros resources.
  apply read_only_bind; [apply read_only_lift|]. intros [[| | | |l|]|];
    try apply read_only_throw.
  apply read_only_mapM. intros oResource.
  apply read_only_bind; [apply read_only_lift|]. intros uri.
  apply read_only_bind; [apply read_only_lift|]. intros sUri.
  apply read_only_readFileSync.
Qed.

Lemma read_only_app_buffer_list (p preload : string) :
  read_only (app_buffer_list p preload).
Proof.
  unfold app_buffer_list.
  apply read_only_bind; [apply read_only_readFileSync|]. intros B.
  apply read_only_bind; [apply read_only_existsSync|]. intros [|].
  - apply read_only_bind.
    { apply read_only_bind; [apply read_only_readFileSync|].
      intros c. apply read_only_ret. }
    intros [c|].
    + apply read_only_bind.
      { destruct (Text.is_empty c); [apply read_only_ret|apply read_only_parse_text]. }
      intros j. apply read_only_bind; [apply read_only_lift|]. intros resources.
      apply read_only_bind.
      { destruct (Json.truthy resources); [|apply read_only_ret].
        destruct resources; [apply read_only_lift|apply read_only_throw]. }
      intros keys. apply read_only_bind; [|intros l; apply read_only_ret].
      apply read_only_reduce. intros acc k.
      apply read_only_bind; [apply read_only_read_resources|].
      intros l. apply read_only_ret.
    + apply read_only_bind; [apply read_only_ret|].
      intros j. apply read_only_bind; [apply read_only_lift|]. intros resources.
      apply read_only_bind.
      { destruct (Json.truthy resources); [|apply read_only_ret].
        destruct resources; [apply read_only_lift|apply read_only_throw]. }
      intros keys. apply read_only_bind; [|intros l; apply read_only_ret].
      apply read_only_reduce. intros acc k.
      apply read_only_bind; [apply read_only_read_resources|].
      intros l. apply read_only_ret.
  - apply read_only_bind; [apply read_only_ret|]. intros [c|].
    + apply read_only_bind.
      { destruct (Text.is_empty c); [apply read_only_ret|apply read_only_parse_text]. }
      intros j. apply read_only_bind; [apply read_only_lift|]. intros resources.
      apply read_only_bind.
      { destruct (Json.truthy resources); [|apply read_only_ret].
        destruct resources; [apply read_only_lift|apply read_only_throw]. }
      intros keys. apply read_only_bind; [|intros l; apply read_only_ret].
      apply read_only_reduce. intros acc k.
      apply read_only_bind; [apply read_only_read_resources|].
      intros l. apply read_only_ret.
    + apply read_only_bind; [apply read_only_ret|].
      intros j. apply read_only_bind; [apply read_only_lift|]. intros resources.
      apply read_only_bind.
      { destruct (Json.truthy resources); [|apply read_only_ret].
        destruct resources; [apply read_only_lift|apply read_only_throw]. }
      intros keys. apply read_only_bind; [|intros l; apply read_only_ret].
      apply read_only_reduce. intros acc k.
      apply read_only_bind; [apply read_only_read_resources|].
      intros l. apply read_only_ret.
Qed.

Lemma read_only_getUi5AppHash (p preload : string) (o : validated_options) :
  read_only (_getUi5AppHash p preload o).
Proof.
  unfold _getUi5AppHash. apply read_only_bind; [apply read_only_app_buffer_list|].
  intros l. apply read_only_ret.
Qed.

Lemma read_only_getUi5LibHash (p preload : string) (o : validated_options) :
  read_only (_getUi5LibHash p preload o).
Proof.
  unfold _getUi5LibHash. apply read_only_bind; [apply read_only_readFileSync|].
  intros l. apply read_only_ret.
Qed.

Lemma read_only_getAssetsHash (p : string) (o : validated_options) :
  read_only (_getAssetsHash p o).
Proof.
  unfold _getAssetsHash. apply read_only_bind; [apply read_only_readAllFiles|].
  intros l. apply read_only_ret.
Qed.

Lemma read_only_getThemeRootHash (p sThemeName : string) (o : validated_options) :
  read_only (_getThemeRootHash p sThemeName o).
Proof.
  unfold _getThemeRootHash. apply read_only_bind; [apply read_only_readAllFiles|].
  intros l. apply read_only_ret.
Qed.

(** X1.  Hashing has no side effect: each of the four hash strategies
    leaves the file system exactly as it found it, whether it returns a
    token, returns [null] or throws. *)
Theorem hash_strategies_read_only (p q sThemeName : string) (o : validated_options) :
  read_only (_getUi5AppHash p q o)
  /\ read_only (_getUi5LibHash p q o)
  /\ read_only (_getAssetsHash p o)
  /\ read_only (_getThemeRootHash p sThemeName o).
Proof.
  repeat split.
  - apply read_only_getUi5AppHash.
  - apply read_only_getUi5LibHash.
  - apply read_only_getAssetsHash.
  - apply read_only_getThemeRootHash.
Qed.

(** The buffers made of file contents are told apart by their strings. *)
Lemma reencoded_told_apart (cs : list string) : told_apart (map reencoded cs).
Proof.
  rewrite <- map_reencoded. apply text_buffers_told_apart.
  apply Forall_map. apply Forall_forall. intros c _. apply decode_well_formed.
Qed.

(** The token of the buffers made of file contents depends on the multiset
    of the contents only. *)
Lemma createHash_of_permutation (l1 l2 : list string) (o : validated_options) :
  Permutation l1 l2 ->
  _createHash (Some (map reencoded l1)) o = _createHash (Some (map reencoded l2)) o.
Proof.
  intros Hp. apply createHash_told_apart.
  - now apply Permutation_map.
  - apply reencoded_told_apart.
Qed.

(** X22.  The token of the buffers made from strings without lone
    surrogates, as every string read from a file is, does not depend on the
    order of the strings: distinct strings give buffers that the sort tells
    apart. *)
Theorem createHash_order_independent_on_strings
        (ts1 ts2 : list Text.text) (o : validated_options) :
  Forall Utf8.well_formed ts1 ->
  Permutation ts1 ts2 ->
  _createHash (Some (map Buffer_from ts1)) o
  = _createHash (Some (map Buffer_from ts2)) o.
Proof.
  intros Hwf Hp. apply createHash_told_apart.
  - now apply Permutation_map.
  - now apply text_buffers_told_apart.
Qed.

Lemma readdirSync_dir (s : Fs.fs) (p : string) (es : list (string * Fs.node)) :
  node_at s p = Some (Fs.Dir es) -> Fs.readdirSync p s = (Ok es, s).
Proof.
  unfold node_at, Fs.readdirSync.
  destruct (Fs.locate p s) as [[n|]|e|]; try discriminate. now intros [= ->].
Qed.

Lemma readAllFiles_dir (s : Fs.fs) (p : string) (es : list (string * Fs.node)) :
  node_at s p = Some (Fs.Dir es) ->
  _readAllFiles p [] s = (Ok (map Utf8.decode (file_contents (Fs.Dir es))), s).
Proof.
  intros H. unfold _readAllFiles, Fs.bind. rewrite (readdirSync_dir s p es H).
  unfold Fs.ret. now rewrite readTree_all.
Qed.

Lemma assets_hash_dir (s : Fs.fs) (p : string) (es : list (string * Fs.node))
      (o : validated_options) :
  node_at s p = Some (Fs.Dir es) ->
  _getAssetsHash p o s
  = (Ok (_createHash (Some (map reencoded (file_contents (Fs.Dir es)))) o), s).
Proof.
  intros H. unfold _getAssetsHash, Fs.bind. rewrite (readAllFiles_dir s p es H).
  unfold Fs.ret. now rewrite map_reencoded.
Qed.

Lemma theme_hash_dir (s : Fs.fs) (p sThemeName : string)
      (es : list (string * Fs.node)) (o : validated_options) :
  node_at s p = Some (Fs.Dir es) ->
  _getThemeRootHash p sThemeName o s
  = (Ok (_createHash (Some (map reencoded (file_contents (Fs.Dir es)))) o), s).
Proof.
  intros H. unfold _getThemeRootHash, Fs.bind. rewrite (readAllFiles_dir s p es H).
  unfold Fs.ret. now rewrite map_reencoded.
Qed.

(** X2.  The token of an asset bundle or of a theme root depends on the
    multiset of the contents of the files below the directory only: two
    directories, in any two file systems and under any names, whose files
    have the same contents up to order get the same token.  File names,
    directory names and the shape of the tree do not enter the hash. *)
Theorem tree_hash_depends_on_contents_only
        (s s' : Fs.fs) (p p' sThemeName sThemeName' : string)
        (es es' : list (string * Fs.node)) (o : validated_options) :
  node_at s p = Some (Fs.Dir es) ->
  node_at s' p' = Some (Fs.Dir es') ->
  Permutation (file_contents (Fs.Dir es)) (file_contents (Fs.Dir es')) ->
  fst (_getAssetsHash p o s) = fst (_getAssetsHash p' o s')
  /\ fst (_getThemeRootHash p sThemeName o s)
     = fst (_getThemeRootHash p' sThemeName' o s').
Proof.
  intros H H' Hp.
  rewrite (assets_hash_dir s p es o H), (assets_hash_dir s' p' es' o H').
  rewrite (theme_hash_dir s p sThemeName es o H).
  rewrite (theme_hash_dir s' p' sThemeName' es' o H').
  rewrite (createHash_of_permutation _ _ o Hp). split; reflexivity.
Qed.

(** X3.  The token of an asset bundle does not depend on the order in which
    the operating system enumerates the entries of the directory or of any
    directory below it. *)
Theorem assets_hash_enumeration_order
        (s s' : Fs.fs) (p : string) (es es' : list (string * Fs.node))
        (o : validated_options) :
  node_at s p = Some (Fs.Dir es) ->
  node_at s' p = Some (Fs.Dir es') ->
  reshuffled (Fs.Dir es) (Fs.Dir es') ->
  _getAssetsHash p o s' = (fst (_getAssetsHash p o s), s').
Proof.
  intros H H' Hr.
  rewrite (assets_hash_dir s p es o H), (assets_hash_dir s' p es' o H').
  now rewrite (createHash_of_permutation _ _ o (reshuffled_contents _ _ Hr)).
Qed.

Lemma createHash_none (l : list buffer) (o : validated_options) :
  _createHash (Some l) o = None <-> l = [].
Proof.
  destruct l as [|x l].
  - split; reflexivity.
  - rewrite createHash_cons. split; discriminate.
Qed.

(** X4.  The asset strategy returns [null] exactly when the directory holds
    no regular file at any depth; empty subdirectories do not count. *)
Theorem assets_hash_null_iff_no_file
        (s : Fs.fs) (p : string) (es : list (string * Fs.node))
        (o : validated_options) :
  node_at s p = Some (Fs.Dir es) ->
  (_getAssetsHash p o s = (Ok None, s) <-> file_contents (Fs.Dir es) = []).
Proof.
  intros H. rewrite (assets_hash_dir s p es o H). split.
  - intros Heq. inversion Heq as [Hn]. apply (proj1 (createHash_none _ o)) in Hn.
    now apply map_eq_nil in Hn.
  - intros ->. reflexivity.
Qed.





Lemma lower_char_not_upper (c : ascii) :
  ~ (65 <= nat_of_ascii (JS.lower_char c) <= 90)%nat.
Proof.
  pose proof (lower_char_lowered c) as H. unfold lowered in H. cbv zeta in H.
  rewrite H. set (n := nat_of_ascii c).
  destruct (Nat.leb_spec 65 n), (Nat.leb_spec n 90), (Nat.leb_spec 192 n),
    (Nat.leb_spec n 222), (Nat.eqb_spec n 215); cbn [andb orb negb]; lia.
Qed.

Lemma toLowerCase_no_upper (t : string) :
  Forall (fun c => ~ (65 <= nat_of_ascii c <= 90)%nat)
         (list_ascii_of_string (JS.toLowerCase t)).
Proof.
  induction t as [|c t IH]; simpl; constructor; [apply lower_char_not_upper|exact IH].
Qed.

(** X7.  A token never holds an upper-case ASCII letter, whatever the
    digest primitive returns. *)
Theorem token_has_no_upper_case (l : option (list buffer)) (o : validated_options)
        (t : string) :
  _createHash l o = Some t ->
  Forall (fun c => ~ (65 <= nat_of_ascii c <= 90)%nat) (list_ascii_of_string t).
Proof.
  unfold _createHash.
  destruct (Nat.ltb 0 _); [|discriminate]. intros [= <-].
  apply toLowerCase_no_upper.
Qed.

End Strategies.

(* ===================================================================== *)
(** * The resource-root rewriter *)
(* ===================================================================== *)

Section ResourceRoots.

Context {P : Platform}.

(** The callback of part one is the generation of the hash followed by the
    composition of the paths, the rename and the update of the map. *)
Lemma bust_resource_root_split (f : Vinyl) (o : validated_options)
      (roots : Json.json) (m : Json.strmap) (sModuleName : string) (s : Fs.fs) :
  bust_resource_root f o roots m sModuleName s =
  Fs.bind (resource_root_hash f o roots sModuleName)
    (fun t => finish_resource_root m sModuleName (fst (fst t)) (snd (fst t)) (snd t)) s.
Proof.
  unfold bust_resource_root, resource_root_hash, finish_resource_root,
    hashed_resolved_path, hashed_module_path, origin_directory, Fs.bind, Fs.lift, Fs.ret.
  destruct (Json.get roots sModuleName) as [v|e|]; try reflexivity.
  destruct (as_path v) as [sModulePath|e|]; try reflexivity.
  destruct (Fs.existsSync _ s) as [[a|e|] s1]; try reflexivity.
  destruct (Fs.existsSync _ s1) as [[b|e|] s2]; try reflexivity.
  destruct (module_hash _ _ _ a b _ o s2) as [[h|e|] s3]; try reflexivity.
  simpl fst. simpl snd.
  destruct (hash_truthy h);
    destruct (RegExp _) as [r|e|]; reflexivity.
Qed.

Lemma bind_ok_inv {A B : Type} (m : Fs.M A) (f : A -> Fs.M B) (s s' : Fs.fs) (b : B) :
  Fs.bind m f s = (Ok b, s') ->
  exists a s1, m s = (Ok a, s1) /\ f a s1 = (Ok b, s').
Proof.
  unfold Fs.bind. destruct (m s) as [[a|e|] s1]; try discriminate.
  intros H. now exists a, s1.
Qed.

Lemma bind_at {A B : Type} (m : Fs.M A) (f : A -> Fs.M B) (s s1 : Fs.fs) (a : A) :
  m s = (Ok a, s1) -> Fs.bind m f s = f a s1.
Proof. unfold Fs.bind. now intros ->. Qed.

Lemma module_hash_value (p q r : string) (a b : bool) (o : validated_options)
      (s s' : Fs.fs) (h : hash_value) :
  module_hash p q r a b (negb a && negb b) o s = (Ok h, s') ->
  h = HNull \/ exists t, h = HString t /\ t <> "".
Proof.
  assert (Hor : forall x, or_null x = HNull
                          \/ exists t, or_null x = HString t /\ t <> "").
  { intros [t|]; simpl; [|now left].
    destruct (String.eqb_spec t ""); [now left|right; now exists t]. }
  unfold module_hash. destruct a, b; simpl;
    intros H; apply bind_ok_inv in H; destruct H as (x & s1 & _ & H);
    inversion H; apply Hor.
Qed.

(** X8.  The hash that reaches the rewriter of part one is either [null] or
    a non-empty token: it is never [undefined] (one of the three strategies
    is always selected) and an empty digest counts as [null]. *)
Theorem module_hash_token_or_null (p q r : string) (a b : bool)
        (o : validated_options) (s s' : Fs.fs) (h : hash_value) :
  module_hash p q r a b (negb a && negb b) o s = (Ok h, s') ->
  h = HNull \/ exists t, h = HString t /\ t <> "".
Proof. apply module_hash_value. Qed.

Lemma read_only_module_hash (p q r : string) (a b c : bool) (o : validated_options) :
  read_only (module_hash p q r a b c o).
Proof.
  unfold module_hash. destruct (classify a b c) as [[| |]|].
  - apply read_only_bind; [apply read_only_getUi5AppHash|intros; apply read_only_ret].
  - apply read_only_bind; [apply read_only_getUi5LibHash|intros; apply read_only_ret].
  - apply read_only_bind; [apply read_only_getAssetsHash|intros; apply read_only_ret].
  - apply read_only_ret.
Qed.

Lemma read_only_resource_root_hash (f : Vinyl) (o : validated_options)
      (roots : Json.json) (sModuleName : string) :
  read_only (resource_root_hash f o roots sModuleName).
Proof.
  unfold resource_root_hash.
  apply read_only_bind; [apply read_only_lift|]. intros v.
  apply read_only_bind; [apply read_only_lift|]. intros sModulePath.
  apply read_only_bind; [apply read_only_existsSync|]. intros a.
  apply read_only_bind; [apply read_only_existsSync|]. intros b.
  apply read_only_bind; [apply read_only_module_hash|]. intros h.
  apply read_only_ret.
Qed.

Lemma resource_root_hash_value (f : Vinyl) (o : validated_options)
      (roots : Json.json) (sModuleName : string) (s s1 : Fs.fs)
      (sModulePath sResolved : string) (h : hash_value) :
  resource_root_hash f o roots sModuleName s = (Ok (sModulePath, sResolved, h), s1) ->
  s1 = s
  /\ sResolved = resolve [cwd f; Path.dirname (path f); sModulePath]
  /\ (h = HNull \/ exists t, h = HString t /\ t <> "").
Proof.
  intros H. split.
  - pose proof (read_only_resource_root_hash f o roots sModuleName s) as Hro.
    rewrite H in Hro. exact Hro.
  - unfold resource_root_hash in H.
    apply bind_ok_inv in H. destruct H as (v & s2 & _ & H).
    apply bind_ok_inv in H. destruct H as (sPath & s3 & _ & H).
    apply bind_ok_inv in H. destruct H as (a & s4 & _ & H).
    apply bind_ok_inv in H. destruct H as (b & s5 & _ & H).
    apply bind_ok_inv in H. destruct H as (h' & s6 & Hh & H).
    inversion H; subst. split; [reflexivity|]. eapply module_hash_value. exact Hh.
Qed.

Lemma is_prefix_refl (p : list string) : Fs.is_prefix p p = true.
Proof. induction p as [|x p IH]; simpl; [reflexivity|]. now rewrite String.eqb_refl. Qed.

(** Renaming a path to itself changes nothing. *)
Lemma renameSync_same (p : string) (s : Fs.fs) : snd (Fs.renameSync p p s) = s.
Proof.
  unfold Fs.renameSync. destruct (Fs.locate p s) as [[src|]|e|]; try reflexivity.
  destruct (String.eqb p ""); [reflexivity|].
  unfold Fs.same_path. now rewrite is_prefix_refl.
Qed.

(** X9.  Without a token the callback of part one renames nothing: when
    the hash of an entry is [null], the file system after the callback is
    the file system before it. *)
Theorem untokened_entry_keeps_file_system
        (f : Vinyl) (o : validated_options) (roots : Json.json) (m : Json.strmap)
        (sModuleName sModulePath sResolved : string) (h : hash_value)
        (s s1 : Fs.fs) :
  resource_root_hash f o roots sModuleName s = (Ok (sModulePath, sResolved, h), s1) ->
  hash_truthy h = false ->
  snd (bust_resource_root f o roots m sModuleName s) = s.
Proof.
  intros Hh Hfalse.
  destruct (resource_root_hash_value _ _ _ _ _ _ _ _ _ Hh) as (-> & _ & _).
  rewrite bust_resource_root_split. rewrite (bind_at _ _ _ _ _ Hh). simpl fst. simpl snd.
  unfold finish_resource_root, hashed_resolved_path. rewrite Hfalse.
  unfold Fs.bind at 1. unfold Fs.lift at 1.
  unfold Fs.bind at 1. unfold Fs.lift at 1.
  destruct (hashed_module_path sModulePath h) as [sNew|e|]; try reflexivity.
  unfold Fs.bind. pose proof (renameSync_same sResolved s) as Hr.
  destruct (Fs.renameSync sResolved sResolved s) as [[u|e|] s2]; simpl in *; now subst.
Qed.

(** X10.  With a token [t], an entry whose last path segment is a plain
    directory name gets the same suffix on disk and in the declaration: the
    resolved directory is renamed to its path followed by [-t] and, when the
    rename succeeds, the declared path followed by [-t] is recorded; a
    failing rename fails the callback. *)
Theorem tokened_entry_renamed_and_declared
        (f : Vinyl) (o : validated_options) (roots : Json.json) (m : Json.strmap)
        (sModuleName sModulePath sResolved t : string) (s s1 : Fs.fs) :
  resource_root_hash f o roots sModuleName s
    = (Ok (sModulePath, sResolved, HString t), s1) ->
  plain_name (origin_directory sModulePath) = true ->
  proper_name (origin_directory sModulePath) = true ->
  dollar_free t = true ->
  bust_resource_root f o roots m sModuleName s =
  Fs.bind (Fs.renameSync sResolved (sResolved ++ "-" ++ t))
    (fun _ => Fs.ret (Json.set m sModuleName (sModulePath ++ "-" ++ t))) s.
Proof.
  intros Hh Hplain Hproper Ht.
  destruct (resource_root_hash_value _ _ _ _ _ _ _ _ _ Hh)
    as (-> & Hresolved & [Hnull|(t' & Heq & Hne)]); [discriminate|].
  inversion Heq; subst t'.
  destruct (resolve_suffix process_cwd [cwd f; Path.dirname (path f)] sModulePath Hproper)
    as [a Hres].
  change (Path.resolve process_cwd ([cwd f; Path.dirname (path f)] ++ [sModulePath]))
    with (resolve [cwd f; Path.dirname (path f); sModulePath]) in Hres.
  rewrite <- Hresolved in Hres.
  rewrite bust_resource_root_split. rewrite (bind_at _ _ _ _ _ Hh). simpl fst. simpl snd.
  destruct (origin_directory_suffix sModulePath) as [a' Ha'].
  assert (Hrepl : dollar_free (origin_directory sModulePath ++ "-" ++ t) = true).
  { rewrite !dollar_free_append. rewrite (plain_name_dollar_free _ Hplain), Ht.
    reflexivity. }
  assert (Hpath : hashed_module_path sModulePath (HString t)
                  = Ok (sModulePath ++ "-" ++ t)).
  { unfold hashed_module_path, RegExp. rewrite (compile_suffix_pattern _ Hplain).
    simpl hash_to_string. rewrite Ha' at 2.
    rewrite (replace_suffix _ _ _ Hrepl). rewrite <- append_assoc. now rewrite <- Ha'. }
  assert (Hdir : hashed_resolved_path sModulePath sResolved (HString t)
                 = Ok (sResolved ++ "-" ++ t)).
  { unfold hashed_resolved_path, RegExp. simpl hash_truthy.
    rewrite (proj2 (String.eqb_neq t "") Hne). simpl negb. cbv iota.
    rewrite (compile_suffix_pattern _ Hplain).
    simpl hash_to_string. rewrite Hres at 1.
    rewrite (replace_suffix _ _ _ Hrepl). rewrite <- append_assoc. now rewrite <- Hres. }
  unfold finish_resource_root. rewrite Hdir, Hpath. reflexivity.
Qed.

Lemma assoc_absent {A : Type} (k : string) (acc : list (string * A)) :
  ~ In k (map fst acc) -> Json.assoc k acc = None.
Proof.
  induction acc as [|[k' v] acc IH]; simpl; [reflexivity|].
  intros H. destruct (String.eqb_spec k k') as [->|_].
  - exfalso. apply H. now left.
  - apply IH. intros Hin. apply H. now right.
Qed.

Lemma keys_after_set (acc : Json.strmap) (k v : string) :
  ~ In k (map fst acc) ->
  map fst (Json.set acc k v)
  = (map fst acc ++ filter (fun x => negb (String.eqb x "__proto__")) [k])%list.
Proof.
  intros H. unfold Json.set. simpl filter.
  destruct (String.eqb k "__proto__"); simpl.
  - now rewrite app_nil_r.
  - rewrite (assoc_absent k acc H). now rewrite map_app.
Qed.

(** A [reduce] whose callback only ever sets the key it is called with
    produces the keys it was given, in order. *)
Lemma reduce_keys (cb : Json.strmap -> string -> Fs.M Json.strmap) :
  (forall acc k s m s', cb acc k s = (Ok m, s') -> exists v, m = Json.set acc k v) ->
  forall (aKeys : list string) (acc : Json.strmap) (s s' : Fs.fs) (m : Json.strmap),
    NoDup aKeys ->
    (forall k, In k aKeys -> ~ In k (map fst acc)) ->
    reduce cb aKeys acc s = (Ok m, s') ->
    map fst m
    = (map fst acc ++ filter (fun x => negb (String.eqb x "__proto__")) aKeys)%list.
Proof.
  intros Hcb aKeys. induction aKeys as [|k aKeys IH]; intros acc s s' m Hnd Hfresh H.
  - simpl in H. inversion H; subst. simpl. now rewrite app_nil_r.
  - simpl in H. apply bind_ok_inv in H. destruct H as (acc' & s1 & Hstep & H).
    destruct (Hcb _ _ _ _ _ Hstep) as [v ->].
    inversion Hnd as [|? ? Hnotin Hnd']; subst.
    assert (Hk : ~ In k (map fst acc)) by (apply Hfresh; now left).
    assert (Hfresh' : forall k', In k' aKeys -> ~ In k' (map fst (Json.set acc k v))).
    { intros k' Hin. rewrite (keys_after_set acc k v Hk). intros Hin'.
      apply in_app_or in Hin'. destruct Hin' as [Hin'|Hin'].
      - apply (Hfresh k'); [now right|exact Hin'].
      - simpl in Hin'. destruct (negb (String.eqb k "__proto__")); simpl in Hin';
          [|contradiction].
        destruct Hin' as [->|[]]. contradiction. }
    rewrite (IH _ _ _ _ Hnd' Hfresh' H).
    rewrite (keys_after_set acc k v Hk). simpl filter.
    destruct (negb (String.eqb k "__proto__")); simpl; now rewrite <- app_assoc.
Qed.

Lemma bust_resource_root_sets (f : Vinyl) (o : validated_options) (roots : Json.json)
      (acc : Json.strmap) (k : string) (s : Fs.fs) (m : Json.strmap) (s' : Fs.fs) :
  bust_resource_root f o roots acc k s = (Ok m, s') -> exists v, m = Json.set acc k v.
Proof.
  rewrite bust_resource_root_split. intros H.
  apply bind_ok_inv in H. destruct H as (t & s1 & _ & H).
  unfold finish_resource_root in H.
  apply bind_ok_inv in H. destruct H as (p1 & s2 & _ & H).
  apply bind_ok_inv in H. destruct H as (p2 & s3 & _ & H).
  apply bind_ok_inv in H. destruct H as (u & s4 & _ & H).
  inversion H. now exists p2.
Qed.

Lemma bust_theme_root_sets (f : Vinyl) (o : validated_options) (roots : Json.json)
      (acc : Json.strmap) (k : string) (s : Fs.fs) (m : Json.strmap) (s' : Fs.fs) :
  bust_theme_root f o roots acc k s = (Ok m, s') -> exists v, m = Json.set acc k v.
Proof.
  unfold bust_theme_root. intros H.
  apply bind_ok_inv in H. destruct H as (v & s1 & _ & H).
  apply bind_ok_inv in H. destruct H as (sPath & s2 & _ & H).
  apply bind_ok_inv in H. destruct H as (b & s3 & _ & H).
  apply bind_ok_inv in H. destruct H as (h & s4 & _ & H).
  apply bind_ok_inv in H. destruct H as (r1 & s5 & _ & H).
  apply bind_ok_inv in H. destruct H as (r2 & s6 & _ & H).
  apply bind_ok_inv in H. destruct H as (u & s7 & _ & H).
  inversion H. eexists. reflexivity.
Qed.

(** X11.  The rewritten resource-root map has the keys of the parsed
    declaration, in the same order and each once; only a key [__proto__]
    is lost. *)
Theorem part_one_keeps_keys (f : Vinyl) (o : validated_options) (j : Json.json)
        (s s' : Fs.fs) (m : Json.strmap) :
  JSON_parse (extract "data-sap-ui-resourceroots=" (contents f)) = Some j ->
  NoDup (map fst (Json.own_entries j)) ->
  part_one f o s = (Ok m, s') ->
  map fst m
  = filter (fun x => negb (String.eqb x "__proto__")) (map fst (Json.own_entries j)).
Proof.
  intros Hj Hnd H. unfold part_one in H.
  apply bind_ok_inv in H. destruct H as (j' & s1 & Hparse & H).
  unfold parse in Hparse. rewrite Hj in Hparse. inversion Hparse; subst j' s1.
  apply bind_ok_inv in H. destruct H as (aKeys & s2 & Hkeys & H).
  assert (aKeys = map fst (Json.own_entries j) /\ s2 = s) as [-> ->].
  { unfold Fs.lift, Json.keys in Hkeys. destruct j; inversion Hkeys; now split. }
  apply (reduce_keys _ (bust_resource_root_sets f o j) _ [] s s' m Hnd); auto.
Qed.

(** X12.  The rewritten theme-root map has the keys of the parsed
    declaration, in the same order and each once; only a key [__proto__]
    is lost. *)
Theorem part_two_keeps_keys (f : Vinyl) (o : validated_options) (j : Json.json)
        (s s' : Fs.fs) (m : Json.strmap) :
  JSON_parse (extract "data-sap-ui-theme-roots=" (contents f)) = Some j ->
  NoDup (map fst (Json.own_entries j)) ->
  part_two f o s = (Ok m, s') ->
  map fst m
  = filter (fun x => negb (String.eqb x "__proto__")) (map fst (Json.own_entries j)).
Proof.
  intros Hj Hnd H. unfold part_two in H.
  apply bind_ok_inv in H. destruct H as (j' & s1 & Hparse & H).
  unfold parse in Hparse. rewrite Hj in Hparse. inversion Hparse; subst j' s1.
  apply bind_ok_inv in H. destruct H as (aKeys & s2 & Hkeys & H).
  assert (aKeys = map fst (Json.own_entries j) /\ s2 = s) as [-> ->].
  { unfold Fs.lift, Json.keys in Hkeys. destruct j; inversion Hkeys; now split. }
  apply (reduce_keys _ (bust_theme_root_sets f o j) _ [] s s' m Hnd); auto.
Qed.

End ResourceRoots.

(* ===================================================================== *)
(** * The declarations in the document text *)
(* ===================================================================== *)

Section Declarations.

Context {P : Platform}.

Lemma indexFrom_cons (p : string) (c : ascii) (s : string) (i : Z) :
  JS.indexFrom p (String c s) i
  = if JS.startsWith p (String c s) then i else JS.indexFrom p s (i + 1).
Proof. reflexivity. Qed.

Lemma startsWith_char (a c : ascii) (s : string) :
  JS.startsWith (String a "") (String c s) = Ascii.eqb a c.
Proof. cbn [JS.startsWith]. now destruct (Ascii.eqb a c). Qed.

Lemma indexFrom_lower_bound (p s : string) (i : Z) :
  JS.indexFrom p s i = -1 \/ i <= JS.indexFrom p s i.
Proof.
  revert i. induction s as [|c s IH]; intros i.
  - cbn [JS.indexFrom]. destruct (JS.startsWith p ""); [right; lia|now left].
  - rewrite indexFrom_cons. destruct (JS.startsWith p (String c s)); [right; lia|].
    destruct (IH (i + 1)) as [H|H]; [now left|right; lia].
Qed.

(** A search that fails from one offset fails from every offset; one that
    succeeds reports the offset it was started with plus the distance. *)
Lemma indexFrom_offset (p s : string) (i : Z) :
  JS.indexFrom p s i
  = if Z.eqb (JS.indexFrom p s 0) (-1) then -1 else JS.indexFrom p s 0 + i.
Proof.
  revert i. induction s as [|c s IH]; intros i.
  - cbn [JS.indexFrom]. destruct (JS.startsWith p ""); reflexivity.
  - rewrite !indexFrom_cons. destruct (JS.startsWith p (String c s)); [reflexivity|].
    rewrite (IH (i + 1)), (IH (0 + 1)).
    destruct (Z.eqb_spec (JS.indexFrom p s 0) (-1)) as [_|Hne]; [reflexivity|].
    destruct (indexFrom_lower_bound p s 0) as [H|H]; [contradiction|].
    destruct (Z.eqb_spec (JS.indexFrom p s 0 + (0 + 1)) (-1)); lia.
Qed.

Lemma indexFrom_absent (p s : string) (i : Z) :
  JS.indexFrom p s 0 = -1 -> JS.indexFrom p s i = -1.
Proof. intros H. rewrite indexFrom_offset, H. reflexivity. Qed.

(** The first single quote after a text without one. *)
Lemma indexFrom_quote (body rest : string) (i : Z) :
  JS.indexFrom "'" body 0 = -1 ->
  JS.indexFrom "'" (body ++ String "'"%char rest) i = i + JS.len body.
Proof.
  revert i. induction body as [|c body IH]; intros i H.
  - cbn [append]. rewrite indexFrom_cons, startsWith_char, Ascii.eqb_refl.
    unfold JS.len. simpl. lia.
  - cbn [append]. rewrite indexFrom_cons, startsWith_char.
    rewrite indexFrom_cons, startsWith_char in H.
    destruct (Ascii.eqb "'" c); [discriminate|].
    rewrite IH.
    + unfold JS.len. cbn [String.length]. lia.
    + rewrite indexFrom_offset in H.
      destruct (Z.eqb_spec (JS.indexFrom "'" body 0) (-1)) as [He|Hne]; [exact He|].
      destruct (indexFrom_lower_bound "'" body 0); lia.
Qed.

Lemma clamp_inside (s : string) (n : nat) :
  (n <= String.length s)%nat -> JS.clamp s (Z.of_nat n) = n.
Proof. intros H. unfold JS.clamp, JS.len. lia. Qed.

(** X13.  The text taken for a declaration: when the first occurrence of
    the marker is followed by one character (the opening quote, which is
    not looked at) and by a text free of single quotes up to a single
    quote, that text is what is extracted. *)
Theorem extract_between_quotes (sMarker pre body post : string) (q : ascii) :
  JS.indexOf (pre ++ sMarker ++ String q (body ++ String "'"%char post)) sMarker 0
    = JS.len pre ->
  JS.indexOf body "'" 0 = -1 ->
  extract sMarker (pre ++ sMarker ++ String q (body ++ String "'"%char post)) = body.
Proof.
  intros Hmarker Hbody. unfold extract. rewrite Hmarker.
  set (html := pre ++ sMarker ++ String q (body ++ String "'"%char post)).
  set (n := (String.length pre + String.length sMarker + 1)%nat).
  assert (Hn : JS.len pre + JS.len sMarker + 1 = Z.of_nat n) by (unfold JS.len, n; lia).
  assert (Hhtml : html = (pre ++ sMarker ++ String q "") ++ body ++ String "'"%char post).
  { unfold html. rewrite !append_assoc. reflexivity. }
  assert (Hlen : String.length (pre ++ sMarker ++ String q "") = n).
  { rewrite !length_append. simpl. unfold n. lia. }
  assert (Hdrop : JS.drop n html = body ++ String "'"%char post).
  { rewrite Hhtml, <- Hlen. apply drop_append. }
  assert (Hle : (n <= String.length html)%nat).
  { rewrite Hhtml, length_append, Hlen. lia. }
  assert (Hbody' : JS.indexFrom "'" body 0 = -1).
  { unfold JS.indexOf in Hbody. unfold JS.clamp in Hbody.
    replace (Z.to_nat (Z.min (Z.max 0 0) (JS.len body))) with O in Hbody
      by (unfold JS.len; lia).
    exact Hbody. }
  rewrite Hn. unfold JS.indexOf. rewrite (clamp_inside html n Hle), Hdrop.
  rewrite (indexFrom_quote body post (Z.of_nat n) Hbody').
  unfold JS.substring. rewrite (clamp_inside html n Hle).
  replace (Z.of_nat n + JS.len body) with (Z.of_nat (n + String.length body))
    by (unfold JS.len; lia).
  rewrite clamp_inside.
  - replace (Nat.min n (n + String.length body)) with n by lia.
    replace (Nat.max n (n + String.length body) - n)%nat with (String.length body) by lia.
    rewrite Hdrop. apply take_append.
  - rewrite Hhtml, length_append, Hlen, length_append. lia.
Qed.

End Declarations.

(* ===================================================================== *)
(** * The substitution of a declaration *)
(* ===================================================================== *)

Section Substitution.

Lemma rmatch_star {X : Type} (r : Regex.regex) (s : string) (cap : option string)
      (k : string -> option string -> option X) :
  Regex.rmatch (Regex.Star r) s cap k = star_loop r k (String.length s) s cap.
Proof. reflexivity. Qed.

Lemma star_loop_unfold {X : Type} (r : Regex.regex)
      (k : string -> option string -> option X) (n : nat) (s : string)
      (cap : option string) :
  star_loop r k (S n) s cap =
  match Regex.rmatch r s cap
          (fun s' cap' =>
             if Nat.ltb (String.length s') (String.length s)
             then star_loop r k n s' cap' else None) with
  | Some x => Some x
  | None => k s cap
  end.
Proof. reflexivity. Qed.

(** A greedy [.*] on a line tries the continuation after the longest prefix
    first. *)
Lemma star_dot_line {X : Type} (k : string -> option string -> option X)
      (line rest : string) (cap : option string) :
  line_text line = true ->
  at_line_end rest = true ->
  forall n, (String.length line <= n)%nat ->
            star_loop Regex.Dot k n (line ++ rest) cap = longest_first k line rest cap.
Proof.
  intros Hline Hrest. induction line as [|c line IH]; intros n Hn.
  - cbn [append longest_first]. destruct n as [|n]; [reflexivity|].
    rewrite star_loop_unfold. destruct rest as [|d rest]; [reflexivity|].
    cbn [Regex.rmatch]. simpl in Hrest. now rewrite Hrest.
  - cbn [line_text] in Hline. apply andb_true_iff in Hline. destruct Hline as [Hc Hline].
    apply negb_true_iff in Hc.
    destruct n as [|n]; [simpl in Hn; lia|].
    cbn [append longest_first]. rewrite star_loop_unfold.
    cbn [Regex.rmatch]. rewrite Hc.
    assert (Hlt : Nat.ltb (String.length (line ++ rest))
                          (String.length (String c (line ++ rest))) = true).
    { apply Nat.ltb_lt. simpl. lia. }
    rewrite Hlt. rewrite (IH Hline n); [reflexivity|]. simpl in Hn. lia.
Qed.

Lemma rmatch_lit_prefix {X : Type} (m s : string) (cap : option string)
      (k : string -> option string -> option X) :
  Regex.rmatch (Regex.lit m) (m ++ s) cap k = k s cap.
Proof.
  induction m as [|c m IH]; [reflexivity|].
  cbn [Regex.lit append Regex.rmatch]. now rewrite Ascii.eqb_refl.
Qed.

Lemma rmatch_lit_fail {X : Type} (m s : string) (cap : option string)
      (k : string -> option string -> option X) :
  JS.startsWith m s = false -> Regex.rmatch (Regex.lit m) s cap k = None.
Proof.
  revert s. induction m as [|c m IH]; intros s H; [discriminate|].
  destruct s as [|d s]; [reflexivity|].
  cbn [Regex.lit Regex.rmatch]. cbn [JS.startsWith] in H.
  destruct (Ascii.eqb c d); [now apply IH|reflexivity].
Qed.

Lemma rmatch_quote_fail {X : Type} (t rest : string) (cap : option string)
      (k : string -> option string -> option X) :
  quote_free t = true -> at_line_end rest = true ->
  Regex.rmatch (Regex.Lit "'"%char) (t ++ rest) cap k = None.
Proof.
  intros Ht Hrest. destruct t as [|c t].
  - cbn [append]. destruct rest as [|d rest]; [reflexivity|].
    cbn [Regex.rmatch]. simpl in Hrest.
    destruct (Ascii.eqb_spec "'"%char d) as [<-|_]; [discriminate|reflexivity].
  - cbn [append Regex.rmatch]. cbn [quote_free] in Ht.
    apply andb_true_iff in Ht. destruct Ht as [Hc _]. apply negb_true_iff in Hc.
    rewrite Ascii.eqb_sym, Hc. reflexivity.
Qed.

(** After a greedy run no quote is found inside a quote-free tail. *)
Lemma longest_first_no_quote {X : Type} (g : string -> option string)
      (k : string -> option string -> option X) (t rest : string)
      (cap : option string) :
  quote_free t = true -> at_line_end rest = true ->
  longest_first (fun s' _ => Regex.rmatch (Regex.Lit "'"%char) s' (g s') k) t rest cap
  = None.
Proof.
  intros Ht Hrest. induction t as [|c t IH].
  - cbn [longest_first]. change rest with ("" ++ rest).
    apply rmatch_quote_fail; auto.
  - cbn [longest_first]. cbn [quote_free] in Ht.
    apply andb_true_iff in Ht. destruct Ht as [Hc Ht'].
    rewrite (IH Ht').
    apply (rmatch_quote_fail (String c t) rest); auto.
    cbn [quote_free]. now rewrite Hc, Ht'.
Qed.

(** The greedy run stops at the last quote of the line. *)
Lemma longest_first_last_quote {X : Type} (g : string -> option string)
      (k : string -> option string -> option X) (body t rest : string)
      (cap : option string) (x : X) :
  quote_free t = true -> at_line_end rest = true ->
  k (t ++ rest) (g (String "'"%char t ++ rest)) = Some x ->
  longest_first (fun s' _ => Regex.rmatch (Regex.Lit "'"%char) s' (g s') k)
                (body ++ String "'"%char t) rest cap
  = Some x.
Proof.
  intros Ht Hrest Hk. induction body as [|c body IH].
  - cbn [append longest_first].
    rewrite (longest_first_no_quote g k t rest cap Ht Hrest).
    cbn [append Regex.rmatch]. rewrite Ascii.eqb_refl. exact Hk.
  - cbn [append longest_first]. now rewrite IH.
Qed.

Lemma line_text_append (s t : string) :
  line_text (s ++ t) = (line_text s && line_text t)%bool.
Proof.
  induction s as [|c s IH]; [reflexivity|].
  cbn [append line_text]. rewrite IH. now rewrite andb_assoc.
Qed.

(** The pattern of a declaration, matched where the marker starts. *)
Lemma match_here_declaration (sMarker body t rest : string) :
  line_text body = true -> line_text t = true -> quote_free t = true ->
  at_line_end rest = true ->
  Regex.match_here (declaration_pattern sMarker)
    (sMarker ++ String "'"%char (body ++ String "'"%char (t ++ rest)))
  = Some (sMarker ++ String "'"%char (body ++ "'"), Some body).
Proof.
  intros Hbody Ht Hq Hrest. unfold Regex.match_here, declaration_pattern.
  set (s := sMarker ++ String "'"%char (body ++ String "'"%char (t ++ rest))).
  cbn [Regex.rmatch]. unfold s at 1. rewrite rmatch_lit_prefix.
  rewrite Ascii.eqb_refl.
  set (k0 := fun (rest0 : string) (cap : option string) =>
               Some (Regex.consumed s rest0, cap)).
  set (s2 := body ++ String "'"%char (t ++ rest)).
  set (K := fun (s' : string) (_ : option string) =>
              Regex.rmatch (Regex.Lit "'"%char) s' (Some (Regex.consumed s2 s')) k0).
  change (star_loop Regex.Dot K (String.length s2) s2 None
          = Some (sMarker ++ String "'"%char (body ++ "'"), Some body)).
  assert (Hs2 : s2 = (body ++ String "'"%char t) ++ rest).
  { unfold s2. rewrite append_assoc. reflexivity. }
  transitivity (star_loop Regex.Dot K (String.length s2)
                  ((body ++ String "'"%char t) ++ rest) None).
  { now rewrite <- Hs2. }
  rewrite (star_dot_line K (body ++ String "'"%char t) rest None).
  - unfold K.
    apply (longest_first_last_quote (fun s' => Some (Regex.consumed s2 s')) k0
             body t rest None); auto.
    unfold k0. f_equal. f_equal.
    + unfold Regex.consumed, s.
      replace (sMarker ++ String "'"%char (body ++ String "'"%char (t ++ rest)))
        with ((sMarker ++ String "'"%char (body ++ "'")) ++ (t ++ rest)).
      * rewrite length_append.
        replace (String.length (sMarker ++ String "'"%char (body ++ "'"))
                 + String.length (t ++ rest) - String.length (t ++ rest))%nat
          with (String.length (sMarker ++ String "'"%char (body ++ "'"))) by lia.
        apply take_append.
      * rewrite append_assoc. cbn [append]. rewrite append_assoc. reflexivity.
    + f_equal. unfold Regex.consumed, s2. cbn [append].
      rewrite length_append. cbn [String.length].
      replace (String.length body + S (String.length (t ++ rest))
               - S (String.length (t ++ rest)))%nat
        with (String.length body) by lia.
      apply take_append.
  - rewrite line_text_append. cbn [line_text]. rewrite Hbody, Ht. reflexivity.
  - exact Hrest.
  - rewrite Hs2. rewrite (length_append (body ++ String "'"%char t) rest). lia.
Qed.

Lemma match_here_without_marker (sMarker s : string) :
  JS.startsWith sMarker s = false ->
  Regex.match_here (declaration_pattern sMarker) s = None.
Proof.
  intros H. unfold Regex.match_here, declaration_pattern. cbn [Regex.rmatch].
  now apply rmatch_lit_fail.
Qed.

Lemma indexOf_zero (s p : string) : JS.indexOf s p 0 = JS.indexFrom p s 0.
Proof.
  unfold JS.indexOf, JS.clamp.
  replace (Z.to_nat (Z.min (Z.max 0 0) (JS.len s))) with O by (unfold JS.len; lia).
  reflexivity.
Qed.

(** The search passes over the text before the first occurrence of the
    marker. *)
Lemma search_to_marker (sMarker pre x pre0 : string) :
  JS.indexFrom sMarker (pre ++ x) 0 = JS.len pre ->
  Regex.search (declaration_pattern sMarker) pre0 (pre ++ x)
  = Regex.search (declaration_pattern sMarker) (pre0 ++ pre) x.
Proof.
  revert pre0. induction pre as [|c pre IH]; intros pre0 H.
  - cbn [append]. now rewrite append_nil_r.
  - cbn [append] in *. rewrite indexFrom_cons in H.
    destruct (JS.startsWith sMarker (String c (pre ++ x))) eqn:Hs.
    { unfold JS.len in H. cbn [String.length] in H. lia. }
    rewrite search_unfold, (match_here_without_marker _ _ Hs).
    rewrite IH.
    + now rewrite append_assoc.
    + rewrite indexFrom_offset in H.
      destruct (Z.eqb_spec (JS.indexFrom sMarker (pre ++ x) 0) (-1)) as [He|Hne].
      * unfold JS.len in H. lia.
      * unfold JS.len in *. cbn [String.length] in H. lia.
Qed.

(** Without the marker there is no match. *)
Lemma search_without_marker (sMarker s pre0 : string) :
  JS.indexFrom sMarker s 0 = -1 ->
  Regex.search (declaration_pattern sMarker) pre0 s = None.
Proof.
  revert pre0. induction s as [|c s IH]; intros pre0 H.
  - rewrite search_unfold. cbn [JS.indexFrom] in H.
    destruct (JS.startsWith sMarker "") eqn:Hs; [discriminate|].
    now rewrite (match_here_without_marker _ _ Hs).
  - rewrite indexFrom_cons in H.
    destruct (JS.startsWith sMarker (String c s)) eqn:Hs; [discriminate|].
    rewrite search_unfold, (match_here_without_marker _ _ Hs).
    apply IH. rewrite indexFrom_offset in H.
    destruct (Z.eqb_spec (JS.indexFrom sMarker s 0) (-1)) as [He|Hne]; [exact He|].
    destruct (indexFrom_lower_bound sMarker s 0); lia.
Qed.

(** One substitution of the patcher on a well placed declaration: the
    quoted text is replaced and everything else stays. *)
Lemma replace_all_declaration (sMarker pre body t rest json : string) :
  well_placed sMarker pre body t rest ->
  dollar_free sMarker = true ->
  dollar_free json = true ->
  Regex.replace_all (declaration_pattern sMarker) (document sMarker pre body t rest)
    ((sMarker ++ "'") ++ json ++ "'")
  = document sMarker pre json t rest.
Proof.
  intros (Hfirst & Hbody & Ht & Hq & Hrest & Hafter) Hm Hj.
  rewrite indexOf_zero in Hfirst, Hafter.
  unfold Regex.replace_all. cbn [Regex.replace_all_from].
  unfold document in *.
  rewrite (search_to_marker sMarker pre _ "" Hfirst). cbn [append].
  rewrite search_unfold, (match_here_declaration sMarker body t rest Hbody Ht Hq Hrest).
  cbn [Regex.before Regex.matched Regex.after Regex.group1].
  assert (Hdrop : JS.drop (String.length (sMarker ++ String "'"%char (body ++ "'")))
                    (sMarker ++ String "'"%char (body ++ String "'"%char (t ++ rest)))
                  = t ++ rest).
  { replace (sMarker ++ String "'"%char (body ++ String "'"%char (t ++ rest)))
      with ((sMarker ++ String "'"%char (body ++ "'")) ++ (t ++ rest)).
    - apply drop_append.
    - rewrite append_assoc. cbn [append]. rewrite append_assoc. reflexivity. }
  rewrite Hdrop.
  assert (Hrepl : dollar_free ((sMarker ++ "'") ++ json ++ "'") = true).
  { rewrite !dollar_free_append, Hm, Hj. reflexivity. }
  rewrite (expand_dollar_free _ _ _ _ _ _ Hrepl).
  assert (Hrest' : forall fuel d,
             Regex.replace_all_from fuel (declaration_pattern sMarker)
               ((sMarker ++ "'") ++ json ++ "'") d (t ++ rest) = t ++ rest).
  { intros [|fuel] d; [reflexivity|]. cbn [Regex.replace_all_from].
    now rewrite (search_without_marker sMarker (t ++ rest) "" Hafter). }
  destruct (sMarker ++ String "'"%char (body ++ "'")) as [|c0 M] eqn:HM.
  { destruct sMarker; discriminate. }
  rewrite Hrest'.
  rewrite ?append_assoc. cbn [append]. rewrite ?append_assoc. reflexivity.
Qed.

Lemma quote_char_dollar_free (c : ascii) :
  dollar_free (Json.quote_char c) = negb (Ascii.eqb c "$"%char).
Proof.
  destruct c as [[] [] [] [] [] [] [] []]; vm_compute; reflexivity.
Qed.

Lemma quote_body_dollar_free (t : string) :
  dollar_free t = true -> dollar_free (Json.quote_body t) = true.
Proof.
  induction t as [|c t IH]; [reflexivity|].
  intros Ht. cbn [dollar_free] in Ht. apply andb_true_iff in Ht. destruct Ht as [Hc Ht].
  cbn [Json.quote_body]. rewrite dollar_free_append, quote_char_dollar_free, Hc.
  now apply IH.
Qed.

Lemma quote_dollar_free (t : string) :
  dollar_free t = true -> dollar_free (Json.quote t) = true.
Proof.
  intros Ht. unfold Json.quote.
  change (String (ascii_of_nat 34) (Json.quote_body t ++ String (ascii_of_nat 34) ""))
    with (String (ascii_of_nat 34) "" ++ Json.quote_body t ++ String (ascii_of_nat 34) "").
  now rewrite !dollar_free_append, (quote_body_dollar_free t Ht).
Qed.

Lemma concat_dollar_free (sep : string) (l : list string) :
  dollar_free sep = true ->
  Forall (fun x => dollar_free x = true) l ->
  dollar_free (String.concat sep l) = true.
Proof.
  intros Hsep Hl. induction Hl as [|x l Hx Hl IH]; [reflexivity|].
  destruct l as [|y l]; [exact Hx|].
  change (String.concat sep (x :: y :: l)) with (x ++ sep ++ String.concat sep (y :: l)).
  now rewrite !dollar_free_append, Hx, Hsep, IH.
Qed.

Lemma stringify_dollar_free (o : Json.strmap) :
  dollar_free_map o = true -> dollar_free (Json.stringify o) = true.
Proof.
  intros Ho. unfold Json.stringify, JS.join.
  rewrite !dollar_free_append.
  rewrite concat_dollar_free; [reflexivity|reflexivity|].
  apply Forall_map. apply Forall_forall. intros [k v] Hin.
  unfold dollar_free_map in Ho. rewrite forallb_forall in Ho.
  specialize (Ho _ Hin). cbn [fst snd] in *.
  apply andb_true_iff in Ho. destruct Ho as [Hk Hv].
  now rewrite !dollar_free_append, (quote_dollar_free k Hk), (quote_dollar_free v Hv).
Qed.

(** X14.  The patcher replaces the two quoted declarations and nothing
    else, provided each declaration is the only one of its marker and
    closes with the last single quote of its line, and neither rewritten
    map holds a [$]: the text before the marker, the rest of the line and
    all other lines come out as they went in. *)
Theorem patch_replaces_the_declarations
        (pre1 body1 tail1 rest1 pre2 body2 tail2 rest2 : string)
        (oNewResouceRoots oNewThemeRoots : Json.strmap) :
  well_placed "data-sap-ui-resourceroots=" pre1 body1 tail1 rest1 ->
  document "data-sap-ui-resourceroots=" pre1 (Json.stringify oNewResouceRoots) tail1 rest1
    = document "data-sap-ui-theme-roots=" pre2 body2 tail2 rest2 ->
  well_placed "data-sap-ui-theme-roots=" pre2 body2 tail2 rest2 ->
  dollar_free_map oNewResouceRoots = true ->
  dollar_free_map oNewThemeRoots = true ->
  patch (document "data-sap-ui-resourceroots=" pre1 body1 tail1 rest1)
        oNewResouceRoots oNewThemeRoots
  = document "data-sap-ui-theme-roots=" pre2 (Json.stringify oNewThemeRoots) tail2 rest2.
Proof.
  intros H1 Hmid H2 Hm1 Hm2. unfold patch.
  change ("data-sap-ui-resourceroots='" ++ Json.stringify oNewResouceRoots ++ "'")
    with (("data-sap-ui-resourceroots=" ++ "'") ++ Json.stringify oNewResouceRoots ++ "'").
  change ("data-sap-ui-theme-roots='" ++ Json.stringify oNewThemeRoots ++ "'")
    with (("data-sap-ui-theme-roots=" ++ "'") ++ Json.stringify oNewThemeRoots ++ "'").
  rewrite (replace_all_declaration _ _ _ _ _ _ H1 eq_refl
             (stringify_dollar_free _ Hm1)).
  rewrite Hmid.
  apply (replace_all_declaration _ _ _ _ _ _ H2 eq_refl (stringify_dollar_free _ Hm2)).
Qed.

End Substitution.

(* ===================================================================== *)
(** * The theme-root rewriter *)
(* ===================================================================== *)

Section ThemeRoots.

Context {P : Platform}.

(** The callback of part two is the generation of the hash followed by the
    composition of the paths, the rename and the update of the map. *)
Lemma bust_theme_root_split (f : Vinyl) (o : validated_options)
      (roots : Json.json) (m : Json.strmap) (sThemeName : string) (s : Fs.fs) :
  bust_theme_root f o roots m sThemeName s =
  Fs.bind (theme_root_hash f o roots sThemeName)
    (fun t => finish_theme_root m sThemeName (fst (fst t)) (snd (fst t)) (snd t)) s.
Proof.
  unfold bust_theme_root, theme_root_hash, finish_theme_root, origin_directory,
    trailing_UI5, Fs.bind, Fs.lift, Fs.ret.
  destruct (Json.get roots sThemeName) as [v|e|]; try reflexivity.
  destruct (as_path v) as [sPath|e|]; try reflexivity.
  destruct (Fs.existsSync _ s) as [[a|e|] s1]; try reflexivity.
  destruct a.
  - destruct (_getThemeRootHash _ sThemeName o s1) as [[h|e|] s2]; reflexivity.
  - reflexivity.
Qed.

Lemma syntax_free_char (c : ascii) :
  Regex.is_syntax_char c = false ->
  Ascii.eqb c "."%char = false /\ Ascii.eqb c "$"%char = false.
Proof.
  intros H. split.
  - destruct (Ascii.eqb c ".") eqn:E; [|reflexivity].
    apply dot_is_syntax in E. congruence.
  - destruct (Ascii.eqb c "$") eqn:E; [|reflexivity].
    apply dollar_is_syntax in E. congruence.
Qed.

(** A literal name compiles to the pattern of its characters. *)
Lemma compile_literal (w : string) :
  literal_name w = true -> Regex.compile w = Some (Regex.lit w).
Proof.
  induction w as [|c w IH]; [reflexivity|].
  cbn [literal_name]. intros H. apply andb_true_iff in H. destruct H as [Hc Hw].
  apply negb_true_iff in Hc. destruct (syntax_free_char c Hc) as [Hdot Hdollar].
  cbn [Regex.compile Regex.lit]. rewrite (IH Hw), Hdot, Hdollar, Hc. reflexivity.
Qed.

Lemma literal_name_append (s t : string) :
  literal_name (s ++ t) = (literal_name s && literal_name t)%bool.
Proof.
  induction s as [|c s IH]; [reflexivity|].
  cbn [append literal_name]. rewrite IH. now rewrite andb_assoc.
Qed.

Lemma literal_name_dollar_free (w : string) :
  literal_name w = true -> dollar_free w = true.
Proof.
  induction w as [|c w IH]; [reflexivity|].
  cbn [literal_name dollar_free]. intros H. apply andb_true_iff in H.
  destruct H as [Hc Hw]. apply negb_true_iff in Hc.
  destruct (syntax_free_char c Hc) as [_ Hdollar]. now rewrite Hdollar, (IH Hw).
Qed.

Lemma match_here_lit (w y : string) :
  Regex.match_here (Regex.lit w) (w ++ y) = Some (w, None).
Proof.
  unfold Regex.match_here. rewrite rmatch_lit_prefix. unfold Regex.consumed.
  rewrite length_append.
  replace (String.length w + String.length y - String.length y)%nat
    with (String.length w) by lia.
  now rewrite take_append.
Qed.

Lemma match_here_lit_fail (w s : string) :
  JS.startsWith w s = false -> Regex.match_here (Regex.lit w) s = None.
Proof. intros H. unfold Regex.match_here. now apply rmatch_lit_fail. Qed.

(** A search passes over the text before the first place where a match can
    start. *)
Lemma search_skip (r : Regex.regex) (w pre x pre0 : string) :
  (forall s, JS.startsWith w s = false -> Regex.match_here r s = None) ->
  JS.indexFrom w (pre ++ x) 0 = JS.len pre ->
  Regex.search r pre0 (pre ++ x) = Regex.search r (pre0 ++ pre) x.
Proof.
  intros Hr. revert pre0. induction pre as [|c pre IH]; intros pre0 H.
  - cbn [append]. now rewrite append_nil_r.
  - cbn [append] in *. rewrite indexFrom_cons in H.
    destruct (JS.startsWith w (String c (pre ++ x))) eqn:Hs.
    { unfold JS.len in H. cbn [String.length] in H. lia. }
    rewrite search_unfold, (Hr _ Hs). rewrite IH.
    + now rewrite append_assoc.
    + rewrite indexFrom_offset in H.
      destruct (Z.eqb_spec (JS.indexFrom w (pre ++ x) 0) (-1)) as [He|Hne].
      * unfold JS.len in H. lia.
      * unfold JS.len in *. cbn [String.length] in H. lia.
Qed.

(** Replacing the first occurrence of a literal text. *)
Lemma replace_literal (w x y t : string) :
  JS.indexFrom w (x ++ w ++ y) 0 = JS.len x ->
  dollar_free t = true ->
  Regex.replace (Regex.lit w) (x ++ w ++ y) t = x ++ t ++ y.
Proof.
  intros Hfirst Ht. unfold Regex.replace.
  rewrite (search_skip (Regex.lit w) w x (w ++ y) "" (match_here_lit_fail w) Hfirst).
  rewrite search_unfold, match_here_lit. cbn [append].
  cbn [Regex.before Regex.matched Regex.after Regex.group1].
  now rewrite drop_append, (expand_dollar_free _ _ _ _ _ _ Ht).
Qed.

(** A literal followed by the end of the input matches no input of another
    length. *)
Lemma rmatch_lit_eol_length {X : Type} (m s : string) (cap : option string)
      (k : string -> option string -> option X) :
  String.length s <> String.length m ->
  Regex.rmatch (Regex.lit m) s cap (fun s' cap' => Regex.rmatch Regex.Eol s' cap' k)
  = None.
Proof.
  revert s. induction m as [|c m IH]; intros s Hlen.
  - destruct s; [contradiction|reflexivity].
  - destruct s as [|d s]; [reflexivity|].
    cbn [Regex.lit Regex.rmatch]. destruct (Ascii.eqb c d); [|reflexivity].
    apply IH. simpl in Hlen. congruence.
Qed.

Lemma match_here_lit_eol (m : string) :
  Regex.match_here (Regex.Seq (Regex.lit m) Regex.Eol) m = Some (m, None).
Proof.
  unfold Regex.match_here. cbn [Regex.rmatch].
  rewrite <- (append_nil_r m) at 2. rewrite rmatch_lit_prefix.
  cbn [Regex.rmatch]. unfold Regex.consumed. cbn [String.length].
  now rewrite Nat.sub_0_r, take_length.
Qed.

(** Cutting a literal suffix off. *)
Lemma replace_lit_eol (m x : string) :
  Regex.replace (Regex.Seq (Regex.lit m) Regex.Eol) (x ++ m) "" = x.
Proof.
  unfold Regex.replace.
  assert (Hs : forall pre0,
             Regex.search (Regex.Seq (Regex.lit m) Regex.Eol) pre0 (x ++ m)
             = Some (Regex.mkFound (pre0 ++ x) m None "")).
  { induction x as [|c x IH]; intros pre0.
    - cbn [append]. rewrite search_unfold, match_here_lit_eol.
      now rewrite append_nil_r, drop_length.
    - cbn [append]. rewrite search_unfold.
      assert (Hm : Regex.match_here (Regex.Seq (Regex.lit m) Regex.Eol)
                     (String c (x ++ m)) = None).
      { unfold Regex.match_here. cbn [Regex.rmatch].
        apply rmatch_lit_eol_length. simpl. rewrite length_append. lia. }
      rewrite Hm, IH. now rewrite append_assoc. }
  rewrite Hs. cbn. now rewrite append_nil_r.
Qed.

Lemma match_here_trailing_UI5_length (s : string) :
  String.length s <> 4%nat -> Regex.match_here trailing_UI5 s = None.
Proof.
  intros Hlen. unfold Regex.match_here, trailing_UI5.
  destruct s as [|c s]; [reflexivity|].
  assert (Hk : forall cap (k : string -> option string -> option (string * option string)),
             Regex.rmatch (Regex.Seq (Regex.lit "UI5") Regex.Eol) s cap k = None).
  { intros cap k. cbn [Regex.rmatch]. apply rmatch_lit_eol_length.
    simpl in Hlen. simpl. lia. }
  cbn [Regex.rmatch] in *.
  destruct (Ascii.eqb "\" c), (Ascii.eqb "/" c); rewrite ?Hk; reflexivity.
Qed.

Lemma match_here_trailing_UI5 :
  Regex.match_here trailing_UI5 "/UI5" = Some ("/UI5", Some "/").
Proof. reflexivity. Qed.

(** Cutting the trailing [UI5] segment off a resolved path. *)
Lemma replace_trailing_UI5 (x : string) :
  Regex.replace trailing_UI5 (x ++ "/UI5") "" = x.
Proof.
  unfold Regex.replace.
  assert (Hs : forall pre0,
             Regex.search trailing_UI5 pre0 (x ++ "/UI5")
             = Some (Regex.mkFound (pre0 ++ x) "/UI5" (Some "/") "")).
  { induction x as [|c x IH]; intros pre0.
    - cbn [append]. rewrite search_unfold, match_here_trailing_UI5.
      now rewrite append_nil_r.
    - cbn [append]. rewrite search_unfold.
      rewrite match_here_trailing_UI5_length.
      + rewrite IH. now rewrite append_assoc.
      + simpl. rewrite length_append. simpl. lia. }
  rewrite Hs. cbn. now rewrite append_nil_r.
Qed.

(** The last segment of a path that ends with a separator-free name. *)
Lemma origin_directory_last (a d : string) :
  slash_free d = true ->
  (a = "" \/ exists a', a = a' ++ "/") ->
  origin_directory (a ++ d) = d.
Proof.
  intros Hd [->|[a' ->]]; unfold origin_directory.
  - cbn [append]. now rewrite (split_slash_free d Hd).
  - rewrite append_assoc. change ("/" ++ d) with (String "/"%char d).
    rewrite split_append_sep, (split_slash_free d Hd). now rewrite lastOf_app.
Qed.

Lemma read_only_theme_root_hash (f : Vinyl) (o : validated_options)
      (roots : Json.json) (sThemeName : string) :
  read_only (theme_root_hash f o roots sThemeName).
Proof.
  unfold theme_root_hash.
  apply read_only_bind; [apply read_only_lift|]. intros v.
  apply read_only_bind; [apply read_only_lift|]. intros sThemeRootPath.
  apply read_only_bind; [apply read_only_existsSync|]. intros [|].
  - apply read_only_bind.
    + apply read_only_bind; [apply read_only_getThemeRootHash|].
      intros h. apply read_only_ret.
    + intros h. apply read_only_ret.
  - apply read_only_bind; [apply read_only_ret|]. intros h. apply read_only_ret.
Qed.

(** The two paths of a theme root with the suffix in place. *)
Lemma finish_theme_root_paths (m : Json.strmap) (sThemeName a b d : string)
      (h : hash_value) (s : Fs.fs) :
  literal_name d = true ->
  slash_free d = true ->
  (a = "" \/ exists a', a = a' ++ "/") ->
  JS.indexFrom (d ++ "/UI5") (a ++ d ++ "/UI5") 0 = JS.len a ->
  JS.indexFrom (d ++ "/UI5") (b ++ d ++ "/UI5") 0 = JS.len b ->
  dollar_free (hash_to_string h) = true ->
  finish_theme_root m sThemeName (a ++ d ++ "/UI5") (b ++ d ++ "/UI5") h s =
  Fs.bind (Fs.renameSync (b ++ d) (b ++ d ++ "-" ++ hash_to_string h))
    (fun _ => Fs.ret (Json.set m sThemeName
                        (a ++ d ++ "-" ++ hash_to_string h ++ "/UI5"))) s.
Proof.
  intros Hlit Hslash Ha Hfa Hfb Ht.
  assert (Hod : origin_directory
                  (Regex.replace (Regex.Seq (Regex.lit "/UI5") Regex.Eol)
                     (a ++ d ++ "/UI5") "") = d).
  { rewrite <- (append_assoc a d "/UI5"). rewrite replace_lit_eol.
    exact (origin_directory_last a d Hslash Ha). }
  unfold finish_theme_root. cbv zeta. rewrite !Hod.
  change ("/" ++ "UI5") with "/UI5".
  assert (Hc : RegExp (d ++ "/UI5") = Ok (Regex.lit (d ++ "/UI5"))).
  { unfold RegExp. rewrite compile_literal; [reflexivity|].
    rewrite literal_name_append, Hlit. reflexivity. }
  rewrite Hc. cbn [Fs.lift Fs.bind Fs.ret].
  assert (Hd : dollar_free d = true) by now apply literal_name_dollar_free.
  assert (Hr1 : Regex.replace (Regex.lit (d ++ "/UI5")) (b ++ d ++ "/UI5")
                  (d ++ "-" ++ hash_to_string h)
                = b ++ d ++ "-" ++ hash_to_string h).
  { rewrite <- (append_nil_r (d ++ "/UI5")) at 2.
    rewrite <- (append_nil_r (d ++ "/UI5")) in Hfb at 2.
    rewrite (replace_literal _ b "" _ Hfb).
    - now rewrite append_nil_r.
    - rewrite !dollar_free_append, Hd, Ht. reflexivity. }
  assert (Hr2 : Regex.replace (Regex.lit (d ++ "/UI5")) (a ++ d ++ "/UI5")
                  (d ++ "-" ++ hash_to_string h ++ "/UI5")
                = a ++ d ++ "-" ++ hash_to_string h ++ "/UI5").
  { rewrite <- (append_nil_r (d ++ "/UI5")) at 2.
    rewrite <- (append_nil_r (d ++ "/UI5")) in Hfa at 2.
    rewrite (replace_literal _ a "" _ Hfa).
    - now rewrite append_nil_r.
    - rewrite !dollar_free_append, Hd, Ht. reflexivity. }
  rewrite Hr1, Hr2.
  rewrite <- (append_assoc b d "/UI5"). rewrite replace_trailing_UI5.
  rewrite ?append_assoc. reflexivity.
Qed.

(** X15.  A theme root declared as [a ++ d ++ "/UI5"], where the directory
    name [d] is made of ordinary characters and occurs before ["/UI5"] for
    the first time at the end of the declared and of the resolved path: the
    directory above [UI5] is renamed to its path followed by ["-"] and the
    hash as text, and, when the rename succeeds, the declaration records
    the same suffix before ["/UI5"]; a failing rename fails the callback. *)
Theorem theme_root_renamed_and_declared
        (f : Vinyl) (o : validated_options) (roots : Json.json) (m : Json.strmap)
        (sThemeName a b d : string) (h : hash_value) (s s1 : Fs.fs) :
  theme_root_hash f o roots sThemeName s
    = (Ok (a ++ d ++ "/UI5", b ++ d ++ "/UI5", h), s1) ->
  literal_name d = true ->
  slash_free d = true ->
  (a = "" \/ exists a', a = a' ++ "/") ->
  JS.indexFrom (d ++ "/UI5") (a ++ d ++ "/UI5") 0 = JS.len a ->
  JS.indexFrom (d ++ "/UI5") (b ++ d ++ "/UI5") 0 = JS.len b ->
  dollar_free (hash_to_string h) = true ->
  bust_theme_root f o roots m sThemeName s =
  Fs.bind (Fs.renameSync (b ++ d) (b ++ d ++ "-" ++ hash_to_string h))
    (fun _ => Fs.ret (Json.set m sThemeName
                        (a ++ d ++ "-" ++ hash_to_string h ++ "/UI5"))) s.
Proof.
  intros Hh Hlit Hslash Ha Hfa Hfb Ht.
  assert (Hs : s1 = s).
  { pose proof (read_only_theme_root_hash f o roots sThemeName s) as Hro.
    rewrite Hh in Hro. exact Hro. }
  subst s1.
  rewrite bust_theme_root_split, (bind_at _ _ _ _ _ Hh).
  cbn [fst snd]. now apply finish_theme_root_paths.
Qed.

End ThemeRoots.



(* ===================================================================== *)
(** * Failures of the application strategy and forms of a declaration *)
(* ===================================================================== *)

Section Failures.

Context {P : Platform}.

Lemma readFileSync_ok_inv (p : string) (s s' : Fs.fs) (t : Text.text) :
  Fs.readFileSync p s = (Ok t, s') ->
  exists c, node_at s p = Some (Fs.File c) /\ t = Utf8.decode c /\ s' = s.
Proof.
  unfold Fs.readFileSync, node_at.
  destruct (Fs.locate p s) as [[[c0|es]|]|e|]; try discriminate.
  intros H. inversion H. now exists c0.
Qed.

Lemma lift_ok_inv {A : Type} (o : outcome A) (s s' : Fs.fs) (a : A) :
  Fs.lift o s = (Ok a, s') -> o = Ok a /\ s' = s.
Proof. unfold Fs.lift. intros H. inversion H. now split. Qed.

(** A [map] over the entries of a category that returns has read every
    referenced file. *)
Lemma mapM_entries_inv (s s' : Fs.fs) (p : string) (us : list string)
      (l : list Json.json) (ts : list Text.text) :
  Forall2 is_entry us l ->
  mapM (fun oResource =>
          Fs.bind (Fs.lift (Json.get oResource "uri"))
            (fun uri => Fs.bind (Fs.lift (as_path uri))
               (fun sUri => Fs.readFileSync (resolve [p; sUri])))) l s
  = (Ok ts, s') ->
  (exists cs, referenced_contents s p us cs) /\ s' = s.
Proof.
  unfold referenced_contents. intros Hl. revert ts s'.
  induction Hl as [|u e us l (m & -> & Hu) _ IH]; intros ts s' H.
  - simpl in H. inversion H. split; [exists []; constructor|reflexivity].
  - simpl mapM in H.
    apply bind_ok_inv in H. destruct H as (c & s1 & Hc & H).
    apply bind_ok_inv in Hc. destruct Hc as (uri & s2 & Huri & Hc).
    apply lift_ok_inv in Huri. destruct Huri as [Huri ->].
    simpl in Huri. rewrite Hu in Huri. inversion Huri; subst uri.
    apply bind_ok_inv in Hc. destruct Hc as (sUri & s3 & HsUri & Hc).
    apply lift_ok_inv in HsUri. destruct HsUri as [HsUri ->].
    simpl in HsUri. inversion HsUri; subst sUri.
    apply readFileSync_ok_inv in Hc. destruct Hc as (c0 & Hc & _ & ->).
    apply bind_ok_inv in H. destruct H as (ts' & s4 & Hrest & H).
    destruct (IH _ _ Hrest) as [[cs' Hcs'] ->]. inversion H; subst.
    split; [exists (c0 :: cs'); now constructor|reflexivity].
Qed.

(** A [reduce] over the categories that returns has read every referenced
    file of every category. *)
Lemma reduce_categories_inv (s : Fs.fs) (p : string) (j : Json.json)
      (ui5 m : list (string * Json.json)) :
  Json.get j "sap.ui5" = Ok (Some (Json.JObj ui5)) ->
  Json.assoc "resources" ui5 = Some (Json.JObj m) ->
  NoDup (map fst m) ->
  forall (R : resources_section) (m' : list (string * Json.json))
         (acc l : list Text.text) (s' : Fs.fs),
    incl m' m ->
    Forall2 (fun r e => fst r = fst e /\ is_category (snd r) (snd e)) R m' ->
    reduce (fun aContentsList sResourceKey =>
              Fs.bind (read_resources p j sResourceKey)
                (fun l => Fs.ret (aContentsList ++ l)%list))
           (map fst m') acc s
    = (Ok l, s') ->
    exists cs, referenced_contents s p (referenced_uris R) cs.
Proof.
  intros Hui5 Hres Hnd R.
  induction R as [|[cat us] R IH]; intros m' acc l s' Hincl HR H.
  - exists []. constructor.
  - inversion HR as [|r e R' m'' [Hk (l0 & Hl0 & Hes)] HR']; subst.
    destruct e as [k v]. simpl in Hk, Hl0, Hes. subst.
    simpl map in H. simpl reduce in H.
    apply bind_ok_inv in H. destruct H as (acc' & s1 & Hstep & H).
    apply bind_ok_inv in Hstep. destruct Hstep as (cs1 & s2 & Hread & Hstep).
    inversion Hstep; subst acc' s2. clear Hstep.
    unfold read_resources in Hread.
    apply bind_ok_inv in Hread. destruct Hread as (resources & s3 & Hr & Hread).
    apply lift_ok_inv in Hr. destruct Hr as [Hr ->].
    unfold manifest_resources in Hr. rewrite Hui5 in Hr. simpl in Hr.
    rewrite Hres in Hr. inversion Hr; subst resources.
    apply bind_ok_inv in Hread. destruct Hread as (aResources & s4 & Ha & Hread).
    apply lift_ok_inv in Ha. destruct Ha as [Ha ->].
    simpl in Ha.
    rewrite (assoc_in_nodup k (Json.JArr l0) m Hnd (Hincl _ (or_introl eq_refl))) in Ha.
    inversion Ha; subst aResources.
    destruct (mapM_entries_inv _ _ _ _ _ _ Hes Hread) as [[cs1' Hcs1] ->].
    destruct (IH m'' _ _ _ (fun x Hx => Hincl x (or_intror Hx)) HR' H) as [cs2 Hcs2].
    exists (cs1' ++ cs2)%list. unfold referenced_uris. simpl.
    apply Forall2_app; assumption.
Qed.

(** X16.  The application strategy returns only when it has read the
    component-preload file and every file that the manifest refers to: a
    missing or unreadable reference never goes unnoticed. *)
Theorem app_hash_reads_every_reference
        (s s' : Fs.fs) (p preload : string) (R : resources_section)
        (o : validated_options) (h : option string) :
  manifest_declares s p R ->
  _getUi5AppHash p preload o s = (Ok h, s') ->
  (exists B, node_at s preload = Some (Fs.File B))
  /\ exists cs, referenced_contents s p (referenced_uris R) cs.
Proof.
  intros Hman H. unfold _getUi5AppHash in H.
  apply bind_ok_inv in H. destruct H as (l & s1 & Hlist & _).
  assert (Hpre : exists B, node_at s preload = Some (Fs.File B)).
  { unfold app_buffer_list in Hlist.
    apply bind_ok_inv in Hlist. destruct Hlist as (tB & s2 & HB & _).
    apply readFileSync_ok_inv in HB. destruct HB as (B & HB & _). now exists B. }
  split; [exact Hpre|]. destruct Hpre as [B HB].
  destruct Hman as [Hno|Hblank|c j ui5 Hfile Hj Hui5 Hnores
                   |c j ui5 res R Hfile Hj Hui5 Hres (m & -> & Hnd & HR)];
    try (exists []; constructor).
  rewrite (app_buffer_list_parsed s p preload B c j HB Hfile Hj) in Hlist.
  apply bind_ok_inv in Hlist. destruct Hlist as (resources & s2 & Hr & Hlist).
  apply lift_ok_inv in Hr. destruct Hr as [Hr ->].
  unfold manifest_resources in Hr. rewrite Hui5 in Hr. simpl in Hr.
  rewrite Hres in Hr. inversion Hr; subst resources.
  apply bind_ok_inv in Hlist. destruct Hlist as (aKeys & s3 & Hkeys & Hlist).
  simpl in Hkeys. inversion Hkeys; subst aKeys s3.
  apply bind_ok_inv in Hlist. destruct Hlist as (cs & s4 & Hred & _).
  exact (reduce_categories_inv s p j ui5 m Hui5 Hres Hnd R m [] cs s4
           (incl_refl m) HR Hred).
Qed.

(** X17.  A manifest that is not empty and not valid JSON is fatal for the
    application strategy: it throws the [SyntaxError] of [JSON.parse] and
    the file system stays as it was. *)
Theorem app_hash_malformed_manifest
        (s : Fs.fs) (p preload B c : string) (o : validated_options) :
  node_at s preload = Some (Fs.File B) ->
  text_at s (resolve [p; "manifest.json"]) = Some c ->
  c <> "" ->
  JSON_parse c = None ->
  _getUi5AppHash p preload o s = (Throw SyntaxError, s).
Proof.
  intros Hpre Hman Hc Hj.
  destruct (text_at_file _ _ _ Hman) as (b & Hfile & Htext).
  unfold _getUi5AppHash, app_buffer_list.
  unfold Fs.bind at 1. unfold Fs.bind at 1.
  rewrite (readFileSync_file _ _ _ Hpre).
  unfold Fs.bind at 1. rewrite (existsSync_present _ _ _ Hfile).
  unfold Fs.bind at 1. unfold Fs.bind at 1.
  rewrite (readFileSync_file _ _ _ Hfile). unfold Fs.ret at 1.
  rewrite (to_string_is_empty _ _ Htext), (eqb_nonempty _ Hc).
  unfold Fs.bind at 1. unfold parse_text. rewrite Htext.
  unfold parse. rewrite Hj. reflexivity.
Qed.

(** X19.  Forms of the resource-root declaration other than an object of
    strings: the JSON value [null] makes part one throw a [TypeError]; a
    value without own properties (a number, a boolean, an empty object,
    array or string) counts as an empty declaration; a value whose first
    property is not a string makes part one throw a [TypeError].  In each
    case the file system stays as it was. *)
Theorem declaration_of_another_form (f : Vinyl) (o : validated_options)
        (j : Json.json) (s : Fs.fs) :
  JSON_parse (extract "data-sap-ui-resourceroots=" (contents f)) = Some j ->
  (j = Json.JNull -> part_one f o s = (Throw TypeError, s))
  /\ (j <> Json.JNull -> Json.own_entries j = [] -> part_one f o s = (Ok [], s))
  /\ (forall k v rest,
         Json.own_entries j = (k, v) :: rest ->
         (forall p, v <> Json.JStr p) ->
         part_one f o s = (Throw TypeError, s)).
Proof.
  intros Hj.
  assert (Hp : part_one f o s
               = Fs.bind (Fs.lift (Json.keys j))
                   (fun aModuleNames =>
                      reduce (bust_resource_root f o j) aModuleNames []) s).
  { unfold part_one. unfold Fs.bind at 1. unfold parse. now rewrite Hj. }
  rewrite Hp. clear Hp. repeat split.
  - intros ->. reflexivity.
  - intros Hnull Hnone.
    assert (Hk : Json.keys j = Ok []).
    { unfold Json.keys. rewrite Hnone. destruct j; try reflexivity. contradiction. }
    unfold Fs.bind at 1. rewrite Hk. reflexivity.
  - intros k v rest He Hv.
    assert (Hnull : j <> Json.JNull).
    { intros ->. discriminate. }
    assert (Hk : Json.keys j = Ok (k :: map fst rest)).
    { unfold Json.keys. rewrite He. destruct j; try reflexivity. contradiction. }
    assert (Hg : Json.get j k = Ok (Some v)).
    { unfold Json.get. rewrite He. cbn [Json.assoc]. rewrite String.eqb_refl.
      destruct j; try reflexivity. contradiction. }
    unfold Fs.bind at 1. rewrite Hk. cbn [Fs.lift reduce]. unfold Fs.bind at 1.
    unfold bust_resource_root. unfold Fs.bind at 1. rewrite Hg. cbn [Fs.lift].
    unfold Fs.bind at 1.
    destruct v as [| b | q | p | l | m]; try reflexivity.
    exfalso. now apply (Hv p).
Qed.

End Failures.

(* ===================================================================== *)
(** * The earlier version *)
(* ===================================================================== *)

Section LegacyFacts.

Context {P : Platform}.

Lemma read_or_null_absent (s : Fs.fs) (args : list string) :
  node_at s (resolve args) = None ->
  Legacy.read_or_null (resolve args) s = (Ok None, s).
Proof.
  intros H. unfold Legacy.read_or_null, Fs.bind.
  now rewrite (existsSync_absent _ _ H).
Qed.

Lemma read_or_null_file (s : Fs.fs) (p c : string) :
  node_at s p = Some (Fs.File c) ->
  Legacy.read_or_null p s = (Ok (Some (Utf8.decode c)), s).
Proof.
  intros H. unfold Legacy.read_or_null, Fs.bind.
  now rewrite (existsSync_present _ _ _ H), (readFileSync_file _ _ _ H).
Qed.

(** Reading an optional file gives its content or [null] unless the path
    names a directory. *)
Lemma read_or_null_value (s : Fs.fs) (args : list string) :
  (forall es, node_at s (resolve args) <> Some (Fs.Dir es)) ->
  exists c, Legacy.read_or_null (resolve args) s = (Ok c, s).
Proof.
  intros H. destruct (node_at s (resolve args)) as [[c|es]|] eqn:Hn.
  - exists (Some (Utf8.decode c)). now apply read_or_null_file.
  - exfalso. now apply (H es).
  - exists None. now apply read_or_null_absent.
Qed.

Lemma read_only_read_or_null (p : string) : read_only (Legacy.read_or_null p).
Proof.
  unfold Legacy.read_or_null.
  apply read_only_bind; [apply read_only_existsSync|]. intros [|].
  - apply read_only_bind; [apply read_only_readFileSync|]. intros c.
    apply read_only_ret.
  - apply read_only_ret.
Qed.

Lemma read_only_legacy_app_buffer_list (p : string) :
  read_only (Legacy.app_buffer_list p).
Proof.
  unfold Legacy.app_buffer_list.
  apply read_only_bind; [apply read_only_read_or_null|]. intros B.
  apply read_only_bind; [apply read_only_read_or_null|]. intros c.
  apply read_only_bind.
  { unfold Legacy.manifest_json. destruct c as [c|]; [|apply read_only_ret].
    destruct (Text.is_empty c); [apply read_only_ret|apply read_only_parse_text]. }
  intros j. apply read_only_bind; [apply read_only_lift|]. intros resources.
  apply read_only_bind.
  { destruct (Json.truthy resources); [|apply read_only_ret].
    destruct resources; [apply read_only_lift|apply read_only_throw]. }
  intros keys. apply read_only_bind; [|intros l; apply read_only_ret].
  apply read_only_reduce. intros acc k.
  apply read_only_bind; [apply read_only_read_resources|].
  intros l. apply read_only_ret.
Qed.

(** Without a manifest, or with an empty one, nothing can be hashed. *)
Lemma legacy_app_buffer_list_without_manifest (s : Fs.fs) (p : string) :
  (forall es, node_at s (resolve [p; "Component-preload.js"]) <> Some (Fs.Dir es)) ->
  node_at s (resolve [p; "manifest.json"]) = None
  \/ node_at s (resolve [p; "manifest.json"]) = Some (Fs.File "") ->
  Legacy.app_buffer_list p s = (Throw TypeError, s).
Proof.
  intros Hpre Hman. unfold Legacy.app_buffer_list.
  destruct (read_or_null_value s _ Hpre) as [B HB].
  rewrite (bind_at _ _ _ _ _ HB).
  destruct Hman as [Hman|Hman].
  - rewrite (bind_at _ _ _ _ _ (read_or_null_absent _ _ Hman)). reflexivity.
  - rewrite (bind_at _ _ _ _ _ (read_or_null_file _ _ _ Hman)). reflexivity.
Qed.

(** X20.  The earlier version needs a manifest: a run on a page whose first
    resource root is a directory without [manifest.json], or with an empty
    one, throws a [TypeError] and renames nothing, whether or not the
    directory holds a component-preload file. *)
Theorem legacy_run_needs_manifest
        (f : Vinyl) (o : option options) (ho : hash_options)
        (k p : string) (rest : list (string * Json.json)) (s : Fs.fs) :
  hash_options_of o = Ok ho ->
  JSON_parse (extract "data-sap-ui-resourceroots=" (contents f))
  = Some (Json.JObj ((k, Json.JStr p) :: rest)) ->
  (forall es,
      node_at s (resolve [resolve [cwd f; Path.dirname (path f); p];
                          "Component-preload.js"]) <> Some (Fs.Dir es)) ->
  node_at s (resolve [resolve [cwd f; Path.dirname (path f); p]; "manifest.json"])
  = None
  \/ node_at s (resolve [resolve [cwd f; Path.dirname (path f); p]; "manifest.json"])
     = Some (Fs.File "") ->
  Legacy.ui5Bust f o s = (Throw TypeError, s).
Proof.
  intros Ho Hj Hpre Hman. unfold Legacy.ui5Bust.
  rewrite Ho. unfold Fs.bind at 1. cbn [Fs.lift].
  unfold Fs.bind at 1. unfold parse. rewrite Hj. unfold Fs.ret at 1.
  unfold Fs.bind at 1. cbn [Json.keys Json.own_entries map fst Fs.lift].
  unfold Fs.bind at 1. cbn [reduce]. unfold Fs.bind at 1.
  unfold Legacy.bust_app at 1.
  unfold Fs.bind at 1. cbn [Json.get Json.own_entries Json.assoc Fs.lift].
  rewrite String.eqb_refl.
  unfold Fs.bind at 1. cbn [as_path Fs.lift].
  unfold Fs.bind at 1.
  rewrite (legacy_app_buffer_list_without_manifest s _ Hpre Hman). reflexivity.
Qed.

(** X21.  The earlier version replaces the directory name by the token: when
    there is something to hash, the last segment [d] of the declared path
    being a plain directory name, the resolved directory [a ++ d] is renamed
    to [a ++ t] for the token [t], the lower-cased digest of the contents in
    the order they were read, and the declaration records [t] alone, without
    the directories of the declared path. *)
Theorem legacy_token_replaces_name
        (f : Vinyl) (o : validated_options) (roots : Json.json) (m : Json.strmap)
        (sAppName sAppPath : string) (l : list buffer) (s s1 : Fs.fs) :
  Json.get roots sAppName = Ok (Some (Json.JStr sAppPath)) ->
  Legacy.app_buffer_list (resolve [cwd f; Path.dirname (path f); sAppPath]) s
  = (Ok l, s1) ->
  l <> [] ->
  plain_name (origin_directory sAppPath) = true ->
  proper_name (origin_directory sAppPath) = true ->
  dollar_free (Legacy.new_hash sAppPath l o) = true ->
  exists a,
    resolve [cwd f; Path.dirname (path f); sAppPath] = a ++ origin_directory sAppPath
    /\ Legacy.new_hash sAppPath l o
       = JS.toLowerCase (getHashDigest (Buffer_concat l) (HASH_TYPE o)
                           (DIGEST_TYPE o) (MAX_LENGTH o))
    /\ Legacy.bust_app f o roots m sAppName s =
       Fs.bind (Fs.renameSync (a ++ origin_directory sAppPath)
                  (a ++ Legacy.new_hash sAppPath l o))
         (fun _ => Fs.ret (Json.set m sAppName (Legacy.new_hash sAppPath l o))) s.
Proof.
  intros Hget Hl Hne Hplain Hproper Ht.
  assert (Hs : s1 = s).
  { pose proof (read_only_legacy_app_buffer_list
                  (resolve [cwd f; Path.dirname (path f); sAppPath]) s) as Hro.
    rewrite Hl in Hro. exact Hro. }
  subst s1.
  destruct (resolve_suffix process_cwd [cwd f; Path.dirname (path f)] sAppPath Hproper)
    as [a Hres].
  change (Path.resolve process_cwd ([cwd f; Path.dirname (path f)] ++ [sAppPath]))
    with (resolve [cwd f; Path.dirname (path f); sAppPath]) in Hres.
  exists a. split; [exact Hres|]. split.
  - unfold Legacy.new_hash. destruct l; [contradiction|reflexivity].
  - unfold Legacy.bust_app. rewrite Hget.
    unfold Fs.bind at 1. cbn [Fs.lift].
    unfold Fs.bind at 1. cbn [as_path Fs.lift].
    rewrite (bind_at _ _ _ _ _ Hl).
    unfold RegExp. rewrite (compile_suffix_pattern _ Hplain).
    unfold Fs.bind at 1. cbn [Fs.lift].
    rewrite Hres. rewrite (replace_suffix _ _ _ Ht). reflexivity.
Qed.

End LegacyFacts.

(* ===================================================================== *)
(** * Runs for the further properties (reference platform) *)
(* ===================================================================== *)

Section MoreRuns.

Import Examples.
Import MoreExamples.

Lemma tree_hash_depends_on_contents_only_witness :
  fst (_getAssetsHash (P := Ref.platform) "/d" default_options bundles)
  = fst (_getAssetsHash (P := Ref.platform) "/e" default_options bundles)
  /\ fst (_getThemeRootHash (P := Ref.platform) "/d" "one" default_options bundles)
     = fst (_getThemeRootHash (P := Ref.platform) "/e" "two" default_options bundles).
Proof.
  apply (tree_hash_depends_on_contents_only (P := Ref.platform) bundles bundles
           "/d" "/e" "one" "two"
           [("a.json", Fs.File "1"); ("b.json", Fs.File "2")]
           [("sub", Fs.Dir [("y.json", Fs.File "2")]); ("x.json", Fs.File "1")]
           default_options).
  - vm_compute. reflexivity.
  - vm_compute. reflexivity.
  - simpl. apply perm_swap.
Defined.

Lemma assets_hash_enumeration_order_witness :
  _getAssetsHash (P := Ref.platform) "/d" default_options bundles_reordered
  = (fst (_getAssetsHash (P := Ref.platform) "/d" default_options bundles),
     bundles_reordered).
Proof.
  apply (assets_hash_enumeration_order (P := Ref.platform) bundles bundles_reordered
           "/d"
           [("a.json", Fs.File "1"); ("b.json", Fs.File "2")]
           [("b.json", Fs.File "2"); ("a.json", Fs.File "1")]
           default_options).
  - vm_compute. reflexivity.
  - vm_compute. reflexivity.
  - apply reshuffled_dir with (es' := [("a.json", Fs.File "1"); ("b.json", Fs.File "2")]).
    + repeat constructor.
    + apply perm_swap.
Defined.

Lemma assets_hash_null_iff_no_file_witness :
  _getAssetsHash (P := Ref.platform) "/proj/apps/empty" default_options project
  = (Ok None, project).
Proof.
  apply (proj2 (assets_hash_null_iff_no_file (P := Ref.platform) project
                  "/proj/apps/empty" [] default_options
                  ltac:(vm_compute; reflexivity))).
  reflexivity.
Defined.

Lemma token_has_no_upper_case_witness :
  Forall (fun c => ~ (65 <= nat_of_ascii c <= 90)%nat) (list_ascii_of_string "0002b5e7").
Proof.
  apply (token_has_no_upper_case (P := Ref.platform) (Some ["B"]) default_options).
  vm_compute. reflexivity.
Defined.

Lemma module_hash_token_or_null_witness :
  HString "00597442" = HNull
  \/ exists t, HString "00597442" = HString t /\ t <> "".
Proof.
  apply (module_hash_token_or_null (P := Ref.platform)
           "/proj/libs/demo" "/proj/libs/demo/Component-preload.js"
           "/proj/libs/demo/library-preload.js" false true default_options
           project project).
  vm_compute. reflexivity.
Defined.

Lemma untokened_entry_keeps_file_system_witness :
  snd (bust_resource_root (P := Ref.platform) page_empty_bundle default_options
         empty_root [] "demo.assets" project) = project.
Proof.
  apply (untokened_entry_keeps_file_system (P := Ref.platform) page_empty_bundle
           default_options empty_root [] "demo.assets" "./apps/empty"
           "/proj/apps/empty" HNull project project).
  - vm_compute. reflexivity.
  - reflexivity.
Defined.

Lemma tokened_entry_renamed_and_declared_witness :
  bust_resource_root (P := Ref.platform) page_without_theme_roots default_options
    library_root [] "demo.lib" project
  = Fs.bind (Fs.renameSync "/proj/libs/demo" ("/proj/libs/demo" ++ "-" ++ "00597442"))
      (fun _ => Fs.ret (Json.set [] "demo.lib" ("./libs/demo" ++ "-" ++ "00597442")))
      project.
Proof.
  apply (tokened_entry_renamed_and_declared (P := Ref.platform)
           page_without_theme_roots default_options library_root [] "demo.lib"
           "./libs/demo" "/proj/libs/demo" "00597442" project project).
  - vm_compute. reflexivity.
  - vm_compute. reflexivity.
  - vm_compute. reflexivity.
  - vm_compute. reflexivity.
Defined.

Lemma part_one_keeps_keys_witness :
  map fst [("demo.app", "./apps/demo-0002b5e7")]
  = filter (fun x => negb (String.eqb x "__proto__"))
           (map fst (Json.own_entries (Json.JObj [("demo.app", Json.JStr "./apps/demo")]))).
Proof.
  apply (part_one_keeps_keys (P := Ref.platform) page_site default_options
           (Json.JObj [("demo.app", Json.JStr "./apps/demo")]) site
           (snd (part_one (P := Ref.platform) page_site default_options site))).
  - vm_compute. reflexivity.
  - repeat constructor. simpl. tauto.
  - vm_compute. reflexivity.
Defined.

Lemma part_two_keeps_keys_witness :
  map fst [("base", "themes/base-0b88674e/UI5")]
  = filter (fun x => negb (String.eqb x "__proto__"))
           (map fst (Json.own_entries (Json.JObj [("base", Json.JStr "themes/base/UI5")]))).
Proof.
  apply (part_two_keeps_keys (P := Ref.platform) page_site default_options
           (Json.JObj [("base", Json.JStr "themes/base/UI5")]) site
           (snd (part_two (P := Ref.platform) page_site default_options site))).
  - vm_compute. reflexivity.
  - repeat constructor. simpl. tauto.
  - vm_compute. reflexivity.
Defined.

Lemma extract_between_quotes_witness :
  extract "data-sap-ui-resourceroots="
    ("<script " ++ "data-sap-ui-resourceroots="
       ++ String "'"%char (JS.dq "{`demo.app`:`./apps/demo`}"
                           ++ String "'"%char " defer></script>"))
  = JS.dq "{`demo.app`:`./apps/demo`}".
Proof.
  apply (extract_between_quotes "data-sap-ui-resourceroots=" "<script "
           (JS.dq "{`demo.app`:`./apps/demo`}") " defer></script>" "'"%char).
  - vm_compute. reflexivity.
  - vm_compute. reflexivity.
Defined.

Lemma patch_replaces_the_declarations_witness :
  patch (document "data-sap-ui-resourceroots=" "<script "
           (JS.dq "{`demo.app`:`./apps/demo`}") ""
           (JS.nl ++ "data-sap-ui-theme-roots='"
              ++ JS.dq "{`base`:`themes/base/UI5`}" ++ "'></script>"))
        [("demo.app", "./apps/demo-0002b5e7")]
        [("base", "themes/base-0b88674e/UI5")]
  = document "data-sap-ui-theme-roots="
      ("<script data-sap-ui-resourceroots='"
         ++ JS.dq "{`demo.app`:`./apps/demo-0002b5e7`}" ++ "'" ++ JS.nl)
      (Json.stringify [("base", "themes/base-0b88674e/UI5")]) "></script>" "".
Proof.
  apply (patch_replaces_the_declarations "<script "
           (JS.dq "{`demo.app`:`./apps/demo`}") ""
           (JS.nl ++ "data-sap-ui-theme-roots='"
              ++ JS.dq "{`base`:`themes/base/UI5`}" ++ "'></script>")
           ("<script data-sap-ui-resourceroots='"
              ++ JS.dq "{`demo.app`:`./apps/demo-0002b5e7`}" ++ "'" ++ JS.nl)
           (JS.dq "{`base`:`themes/base/UI5`}") "></script>" "").
  - repeat split; vm_compute; reflexivity.
  - vm_compute. reflexivity.
  - repeat split; vm_compute; reflexivity.
  - vm_compute. reflexivity.
  - vm_compute. reflexivity.
Defined.

Lemma theme_root_renamed_and_declared_witness :
  bust_theme_root (P := Ref.platform) page_site default_options base_theme []
    "base" site
  = Fs.bind (Fs.renameSync "/proj/themes/base" "/proj/themes/base-0b88674e")
      (fun _ => Fs.ret [("base", "themes/base-0b88674e/UI5")]) site.
Proof.
  apply (theme_root_renamed_and_declared (P := Ref.platform) page_site
           default_options base_theme [] "base" "themes/" "/proj/themes/" "base"
           (HString "0b88674e") site site).
  - vm_compute. reflexivity.
  - vm_compute. reflexivity.
  - vm_compute. reflexivity.
  - right. exists "themes". reflexivity.
  - vm_compute. reflexivity.
  - vm_compute. reflexivity.
  - vm_compute. reflexivity.
Defined.

Lemma app_hash_reads_every_reference_witness :
  (exists B, node_at styled_app "/proj/app/Component-preload.js" = Some (Fs.File B))
  /\ exists cs, referenced_contents (P := Ref.platform) styled_app "/proj/app"
                  ["css/a.css"; "css/b.css"] cs.
Proof.
  eapply (app_hash_reads_every_reference (P := Ref.platform) styled_app styled_app
            "/proj/app" "/proj/app/Component-preload.js"
            [("css", ["css/a.css"; "css/b.css"])] default_options).
  - eapply (manifest_with_resources (P := Ref.platform) styled_app "/proj/app").
    + vm_compute. reflexivity.
    + vm_compute. reflexivity.
    + vm_compute. reflexivity.
    + vm_compute. reflexivity.
    + eexists. split; [reflexivity|]. split.
      * repeat constructor. simpl. tauto.
      * repeat constructor. eexists. split; [reflexivity|].
        repeat constructor; eexists; split; reflexivity.
  - vm_compute. reflexivity.
Defined.

Lemma app_hash_malformed_manifest_witness :
  _getUi5AppHash (P := Ref.platform) "/proj/app" "/proj/app/Component-preload.js"
    default_options ManifestExamples.broken_manifest
  = (Throw SyntaxError, ManifestExamples.broken_manifest).
Proof.
  apply (app_hash_malformed_manifest (P := Ref.platform)
           ManifestExamples.broken_manifest "/proj/app"
           "/proj/app/Component-preload.js" "B" "{oops" default_options).
  - vm_compute. reflexivity.
  - vm_compute. reflexivity.
  - discriminate.
  - vm_compute. reflexivity.
Defined.

Lemma declaration_of_another_form_witness :
  part_one (P := Ref.platform) page_null_declaration default_options project
  = (Throw TypeError, project).
Proof.
  apply (proj1 (declaration_of_another_form (P := Ref.platform)
                  page_null_declaration default_options Json.JNull project
                  ltac:(vm_compute; reflexivity))).
  reflexivity.
Defined.

Lemma legacy_run_needs_manifest_witness :
  Legacy.ui5Bust (P := Ref.platform) Legacy.page_site None Legacy.site
  = (Throw TypeError, Legacy.site).
Proof.
  apply (legacy_run_needs_manifest (P := Ref.platform) Legacy.page_site None
           {| type := None; digestType := None; maxLength := None |}
           "demo.app" "./demo" [] Legacy.site).
  - reflexivity.
  - vm_compute. reflexivity.
  - intros es. vm_compute. discriminate.
  - left. vm_compute. reflexivity.
Defined.

Lemma legacy_token_replaces_name_witness :
  exists a,
    resolve (P := Ref.platform) ["/proj"; "/proj"; "./demo"] = a ++ "demo"
    /\ Legacy.new_hash (P := Ref.platform) "./demo" ["B"] default_options = "0002b5e7"
    /\ Legacy.bust_app (P := Ref.platform) Legacy.page_site default_options
         (Json.JObj [("demo.app", Json.JStr "./demo")]) [] "demo.app"
         Legacy.site_with_manifest
       = Fs.bind (Fs.renameSync (a ++ "demo") (a ++ "0002b5e7"))
           (fun _ => Fs.ret [("demo.app", "0002b5e7")]) Legacy.site_with_manifest.
Proof.
  apply (legacy_token_replaces_name (P := Ref.platform) Legacy.page_site
           default_options (Json.JObj [("demo.app", Json.JStr "./demo")]) []
           "demo.app" "./demo" ["B"] Legacy.site_with_manifest
           Legacy.site_with_manifest).
  - reflexivity.
  - vm_compute. reflexivity.
  - discriminate.
  - vm_compute. reflexivity.
  - vm_compute. reflexivity.
  - vm_compute. reflexivity.
Defined.


Lemma createHash_order_independent_on_strings_witness :
  _createHash (P := Ref.platform)
    (Some (map Buffer_from [Text.of_string "b"; [233; 65281]%N])) default_options
  = _createHash (P := Ref.platform)
      (Some (map Buffer_from [[233; 65281]%N; Text.of_string "b"])) default_options.
Proof.
  apply (createHash_order_independent_on_strings (P := Ref.platform)).
  - constructor.
    + exists [98%N]. split; [|reflexivity]. repeat constructor.
    + constructor; [|constructor].
      exists [233; 65281]%N. split; [|reflexivity].
      constructor; [left; reflexivity|]. constructor; [|constructor].
      right. split; [discriminate|reflexivity].
  - apply perm_swap.
Defined.

End MoreRuns.
